(** * Index-Page-Linker: detection, rasterisation and PDF export

    A shallow embedding of the TypeScript services of the repository
    ([services/geminiService.ts], [services/pdfImageService.ts],
    [services/pdfExportService.ts]) and of the two scan handlers of
    [App.tsx], followed by the properties the specification states
    about them.

    Conventions.
    - A JavaScript string is the list of its UTF-16 code units
      ([jsstring := list N]); literals are written [utf16 "..."].
    - A JavaScript [number] that the code uses as a page number or as an
      array index is a [Z]; a [number] the code only computes with (page
      sizes, box coordinates) is an IEEE-754 binary64 [float].
    - A function that can throw returns [Result A := Exn + A]; the
      detection service and the clock are external and are threaded
      through an explicit [World]. *)

From Stdlib Require Import ZArith NArith List Bool Lia String Ascii Floats.
From Stdlib Require Import DecimalPos DecimalN Sorted.
From stdpp Require Import gmap list.

Set Warnings "-register-all".
Local Open Scope string_scope.
Local Open Scope N_scope.
Local Open Scope list_scope.
Local Open Scope stdpp_scope.

(* ===================================================================== *)
(** * JavaScript values the services manipulate                          *)
(* ===================================================================== *)

Module JS.

Abbreviation jsstring := (list N).

(** Code units of an ASCII literal. *)
Definition utf16 (s : string) : jsstring :=
  List.map N_of_ascii (list_ascii_of_string s).

(** A thrown value: an [Error] with its name and message. *)
Record Exn := mkExn { exn_name : string; exn_message : string }.

Definition Result (A : Type) : Type := (Exn + A)%type.

Definition ok {A} (a : A) : Result A := inr a.
Definition throw {A} (e : Exn) : Result A := inl e.
Definition TypeError (msg : string) : Exn := mkExn "TypeError" msg.
Definition Error (msg : string) : Exn := mkExn "Error" msg.

Definition rbind {A B} (m : Result A) (k : A -> Result B) : Result B :=
  match m with
  | inl e => inl e
  | inr a => k a
  end.

(** [WhiteSpace] and [LineTerminator] code points of ECMAScript: what
    [String.prototype.trim] strips and what [\s] matches. *)
Definition isWhiteSpace (c : N) : bool :=
  (c =? 9) || (c =? 10) || (c =? 11) || (c =? 12) || (c =? 13) ||
  (c =? 32) || (c =? 160) || (c =? 5760) ||
  ((8192 <=? c) && (c <=? 8202)) ||
  (c =? 8232) || (c =? 8233) || (c =? 8239) || (c =? 8287) ||
  (c =? 12288) || (c =? 65279).

Fixpoint trimStart (s : jsstring) : jsstring :=
  match s with
  | c :: r => if isWhiteSpace c then trimStart r else s
  | [] => []
  end.

Definition trimEnd (s : jsstring) : jsstring := rev (trimStart (rev s)).

(** [s.trim()] *)
Definition trim (s : jsstring) : jsstring := trimEnd (trimStart s).

(** [Some rest] when [s = p ++ rest]. *)
Fixpoint stripPrefix (p s : jsstring) : option jsstring :=
  match p, s with
  | [], _ => Some s
  | a :: p', b :: s' => if a =? b then stripPrefix p' s' else None
  | _ :: _, [] => None
  end.

(** ASCII upper case of a code unit (the canonicalisation of a
    case-insensitive, non-unicode regular expression restricted to the
    letters that occur in the patterns of this program). *)
Definition upperAscii (c : N) : N :=
  if (97 <=? c) && (c <=? 122) then c - 32 else c.

Fixpoint stripPrefixCI (p s : jsstring) : option jsstring :=
  match p, s with
  | [], _ => Some s
  | a :: p', b :: s' =>
      if upperAscii a =? upperAscii b then stripPrefixCI p' s' else None
  | _ :: _, [] => None
  end.

Definition startsWith (p s : jsstring) : bool :=
  match stripPrefix p s with Some _ => true | None => false end.

Definition endsWith (p s : jsstring) : bool := startsWith (rev p) (rev s).

(** Decimal digits of a natural number, most significant first: the
    result of [Number::toString] on a non-negative integer below
    [2^53].  (From [2^53] on a number prints the shortest digits that
    read back to it, and from 1e21 on in exponent form.) *)
Fixpoint digitsOfUint (d : Decimal.uint) : jsstring :=
  match d with
  | Decimal.Nil => []
  | Decimal.D0 d => 48 :: digitsOfUint d
  | Decimal.D1 d => 49 :: digitsOfUint d
  | Decimal.D2 d => 50 :: digitsOfUint d
  | Decimal.D3 d => 51 :: digitsOfUint d
  | Decimal.D4 d => 52 :: digitsOfUint d
  | Decimal.D5 d => 53 :: digitsOfUint d
  | Decimal.D6 d => 54 :: digitsOfUint d
  | Decimal.D7 d => 55 :: digitsOfUint d
  | Decimal.D8 d => 56 :: digitsOfUint d
  | Decimal.D9 d => 57 :: digitsOfUint d
  end.

Definition NtoString (n : N) : jsstring := digitsOfUint (N.to_uint n).

(** [String(z)] for an integer [z] with [-2^53 < z < 2^53], the range
    in which a number is the integer it stands for and prints as its
    decimal digits.  Statements that depend on the digits printed for a
    value the caller supplies carry that bound. *)
Definition ZtoString (z : Z) : jsstring :=
  match z with
  | Zneg p => 45 :: NtoString (Npos p)
  | _ => NtoString (Z.to_N z)
  end.

(** ** Effects

    An effectful computation runs in a world (whatever lies outside
    the function: the remote model, the clock, the component state);
    it may throw, and it advances the world either way. *)
Section IO.
Context {World : Type}.

Definition IO (A : Type) : Type := World -> Result A * World.

Definition ret {A} (a : A) : IO A := fun w => (inr a, w).

Definition raise {A} (e : Exn) : IO A := fun w => (inl e, w).

Definition bind {A B} (m : IO A) (k : A -> IO B) : IO B :=
  fun w =>
    match m w with
    | (inl e, w') => (inl e, w')
    | (inr a, w') => k a w'
    end.

Definition lift {A} (r : Result A) : IO A := fun w => (r, w).

(** [try { m } catch (e) { h e }] *)
Definition tryCatch {A} (m : IO A) (h : Exn -> IO A) : IO A :=
  fun w =>
    match m w with
    | (inl e, w') => h e w'
    | (inr a, w') => (inr a, w')
    end.

(** [try { m } finally { f }] *)
Definition tryFinally {A} (m : IO A) (f : IO unit) : IO A :=
  fun w =>
    let '(r, w') := m w in
    match f w' with
    | (inl e, w'') => (inl e, w'')
    | (inr _, w'') => (r, w'')
    end.
End IO.

Arguments IO : clear implicits.

End JS.

(* ===================================================================== *)
(** * JSON values and [JSON.parse]                                       *)
(* ===================================================================== *)

Module JSON.
Import JS.

(** A parsed JSON value.  A number keeps the exact decimal value of
    its literal, [(-1)^neg * mant * 10^exp10]; an object keeps its
    members in source order (a later duplicate key shadows an earlier
    one on lookup). *)
Inductive value : Type :=
| JNull
| JBool (b : bool)
| JNumber (neg : bool) (mant : N) (exp10 : Z)
| JString (s : jsstring)
| JArray (elems : list value)
| JObject (members : list (jsstring * value)).

(** JSON white space: space, tab, line feed, carriage return. *)
Definition isJsonSpace (c : N) : bool :=
  (c =? 32) || (c =? 9) || (c =? 10) || (c =? 13).

Fixpoint skipSpace (s : jsstring) : jsstring :=
  match s with
  | c :: r => if isJsonSpace c then skipSpace r else s
  | [] => []
  end.

Definition isDigit (c : N) : bool := (48 <=? c) && (c <=? 57).

(** Reads a possibly empty run of digits: accumulated value, number
    of digits read, rest of the input. *)
Fixpoint readDigits (s : jsstring) (acc : N) (count : Z)
  : N * Z * jsstring :=
  match s with
  | c :: r =>
      if isDigit c then readDigits r (10 * acc + (c - 48)) (count + 1)
      else (acc, count, s)
  | [] => (acc, count, [])
  end.

Definition hexVal (c : N) : option N :=
  if isDigit c then Some (c - 48)
  else if (97 <=? c) && (c <=? 102) then Some (c - 87)
  else if (65 <=? c) && (c <=? 70) then Some (c - 55)
  else None.

(** The characters of a string literal after its opening quote, up to
    and including the closing quote. *)
Fixpoint parseChars (s : jsstring) : option (jsstring * jsstring) :=
  let cons c (r : option (jsstring * jsstring)) :=
    match r with
    | Some (cs, rest) => Some (c :: cs, rest)
    | None => None
    end in
  match s with
  | [] => None
  | c :: r =>
      if c =? 34 then Some ([], r)
      else if c =? 92 then
        match r with
        | e :: r1 =>
            if e =? 34 then cons 34 (parseChars r1)
            else if e =? 92 then cons 92 (parseChars r1)
            else if e =? 47 then cons 47 (parseChars r1)
            else if e =? 98 then cons 8 (parseChars r1)
            else if e =? 102 then cons 12 (parseChars r1)
            else if e =? 110 then cons 10 (parseChars r1)
            else if e =? 114 then cons 13 (parseChars r1)
            else if e =? 116 then cons 9 (parseChars r1)
            else if e =? 117 then
              match r1 with
              | h1 :: h2 :: h3 :: h4 :: r2 =>
                  match hexVal h1, hexVal h2, hexVal h3, hexVal h4 with
                  | Some a, Some b, Some c', Some d =>
                      cons (4096 * a + 256 * b + 16 * c' + d) (parseChars r2)
                  | _, _, _, _ => None
                  end
              | _ => None
              end
            else None
        | [] => None
        end
      else if c <? 32 then None
      else cons c (parseChars r)
  end.

(** A number literal: an optional minus sign; an integer part that
    is [0] or starts with a non-zero digit; an optional fraction of
    one or more digits; an optional exponent of one or more digits
    with an optional sign. *)
Definition parseNumber (s : jsstring) : option (value * jsstring) :=
  let '(neg, s1) :=
    match s with
    | c :: r => if c =? 45 then (true, r) else (false, s)
    | [] => (false, s)
    end in
  match s1 with
  | [] => None
  | c :: r =>
      if negb (isDigit c) then None else
      let '(int, _, s2) :=
        if c =? 48 then (0, 1%Z, r) else readDigits s1 0 0%Z in
      let frac :=
        match s2 with
        | d :: r2 =>
            if d =? 46 then
              let '(m, k, s3) := readDigits r2 int 0%Z in
              if (k =? 0)%Z then None else Some (m, k, s3)
            else Some (int, 0%Z, s2)
        | [] => Some (int, 0%Z, s2)
        end in
      match frac with
      | None => None
      | Some (m, k, s3) =>
          match s3 with
          | e :: r3 =>
              if (e =? 101) || (e =? 69) then
                let '(eneg, s4) :=
                  match r3 with
                  | sg :: r4 =>
                      if sg =? 45 then (true, r4)
                      else if sg =? 43 then (false, r4)
                      else (false, r3)
                  | [] => (false, r3)
                  end in
                let '(x, n, s5) := readDigits s4 0 0%Z in
                if (n =? 0)%Z then None
                else
                  let ex := if eneg then (- Z.of_N x)%Z else Z.of_N x in
                  Some (JNumber neg m (ex - k)%Z, s5)
              else Some (JNumber neg m (- k)%Z, s3)
          | [] => Some (JNumber neg m (- k)%Z, s3)
          end
      end
  end.

(** One level of the grammar of values, given the parsers for the
    elements of an array and for the members of an object. *)
Definition valueStep
  (elements : jsstring -> option (list value * jsstring))
  (members : jsstring -> option (list (jsstring * value) * jsstring))
  (s : jsstring) : option (value * jsstring) :=
  let s := skipSpace s in
  match s with
  | [] => None
  | c :: r =>
      if c =? 110 then
        option_map (pair JNull) (stripPrefix (utf16 "null") s)
      else if c =? 116 then
        option_map (pair (JBool true)) (stripPrefix (utf16 "true") s)
      else if c =? 102 then
        option_map (pair (JBool false)) (stripPrefix (utf16 "false") s)
      else if c =? 34 then
        match parseChars r with
        | Some (cs, rest) => Some (JString cs, rest)
        | None => None
        end
      else if c =? 91 then
        match skipSpace r with
        | c' :: r' =>
            if c' =? 93 then Some (JArray [], r')
            else
              match elements r with
              | Some (vs, rest) => Some (JArray vs, rest)
              | None => None
              end
        | [] => None
        end
      else if c =? 123 then
        match skipSpace r with
        | c' :: r' =>
            if c' =? 125 then Some (JObject [], r')
            else
              match members r with
              | Some (ms, rest) => Some (JObject ms, rest)
              | None => None
              end
        | [] => None
        end
      else parseNumber s
  end.

(** A non-empty list of values separated by commas, up to and
    including the closing bracket. *)
Definition elementsStep
  (value : jsstring -> option (value * jsstring))
  (elements : jsstring -> option (list JSON.value * jsstring))
  (s : jsstring) : option (list JSON.value * jsstring) :=
  match value s with
  | Some (v, rest) =>
      match skipSpace rest with
      | c :: r =>
          if c =? 44 then
            match elements r with
            | Some (vs, rest') => Some (v :: vs, rest')
            | None => None
            end
          else if c =? 93 then Some ([v], r)
          else None
      | [] => None
      end
  | None => None
  end.

(** A non-empty list of [key : value] members separated by commas, up
    to and including the closing brace. *)
Definition membersStep
  (value : jsstring -> option (value * jsstring))
  (members : jsstring -> option (list (jsstring * JSON.value) * jsstring))
  (s : jsstring) : option (list (jsstring * JSON.value) * jsstring) :=
  match skipSpace s with
  | q :: r0 =>
      if negb (q =? 34) then None else
      match parseChars r0 with
      | Some (key, r1) =>
          match skipSpace r1 with
          | colon :: r2 =>
              if negb (colon =? 58) then None else
              match value r2 with
              | Some (v, rest) =>
                  match skipSpace rest with
                  | c :: r =>
                      if c =? 44 then
                        match members r with
                        | Some (ms, rest') => Some ((key, v) :: ms, rest')
                        | None => None
                        end
                      else if c =? 125 then Some ([(key, v)], r)
                      else None
                  | [] => None
                  end
              | None => None
              end
          | [] => None
          end
      | None => None
      end
  | [] => None
  end.

(** The three parsers, by recursion on a bound on the depth of their
    calls. *)
Fixpoint parseValue (fuel : nat) (s : jsstring) {struct fuel}
  : option (value * jsstring) :=
  match fuel with
  | O => None
  | S fuel => valueStep (parseElements fuel) (parseMembers fuel) s
  end

with parseElements (fuel : nat) (s : jsstring) {struct fuel}
  : option (list value * jsstring) :=
  match fuel with
  | O => None
  | S fuel => elementsStep (parseValue fuel) (parseElements fuel) s
  end

with parseMembers (fuel : nat) (s : jsstring) {struct fuel}
  : option (list (jsstring * value) * jsstring) :=
  match fuel with
  | O => None
  | S fuel => membersStep (parseValue fuel) (parseMembers fuel) s
  end.

(** [JSON.parse(text)]: the value of a text that is, up to JSON white
    space around it, one JSON value; [None] when [JSON.parse] throws a
    [SyntaxError].  A value and a list of elements or members that
    starts where the value starts are two calls on one input, and every
    other call is on a shorter input: twice the length of the text plus
    one bounds the depth of the calls ([JsonFacts.parseValue_fuel]). *)
Definition parse (text : jsstring) : option value :=
  match parseValue (S (2 * List.length text)) text with
  | Some (v, rest) =>
      match skipSpace rest with
      | [] => Some v
      | _ :: _ => None
      end
  | None => None
  end.

(** [Array.isArray(v)] *)
Definition isArray (v : value) : bool :=
  match v with JArray _ => true | _ => false end.

(** Whether the number [mant * 10^exp10] becomes zero as a binary64
    value: it is zero, or at most half the least positive binary64
    number, [2^-1075] (round to nearest, ties to even). *)
Definition roundsToZero (mant : N) (exp10 : Z) : bool :=
  (mant =? 0)
  || ((exp10 <? 0)%Z && (Z.of_N mant * 2 ^ 1075 <=? 10 ^ (- exp10))%Z).

(** [ToBoolean(v)]: [null], [false], a zero number and the empty
    string are falsy. *)
Definition truthy (v : value) : bool :=
  match v with
  | JNull => false
  | JBool b => b
  | JNumber _ m e => negb (roundsToZero m e)
  | JString s => match s with [] => false | _ :: _ => true end
  | JArray _ | JObject _ => true
  end.

(** The last member named [k] of an object's member list. *)
Fixpoint lookupMember (k : jsstring) (ms : list (jsstring * value))
  : option value :=
  match ms with
  | [] => None
  | (k', v) :: ms' =>
      match lookupMember k ms' with
      | Some v' => Some v'
      | None => if decide (k' = k) then Some v else None
      end
  end.

End JSON.

(* ===================================================================== *)
(** * [types.ts]                                                         *)
(* ===================================================================== *)

Module Types.
Import JS.

(** [interface BoundingBox].  TypeScript types are erased at run time,
    so the records are generic in what their fields hold: the
    detection client copies the fields of the parsed response
    unchecked, the exporter reads them as numbers. *)
Record BoundingBox (A : Type) := mkBox
  { ymin : A; xmin : A; ymax : A; xmax : A }.

(** [interface IndexLink] *)
Record IndexLink (L P A : Type) := mkLink
  { id : jsstring; label : L; targetPage : P; box : BoundingBox A }.

Arguments mkBox {A} _ _ _ _.
Arguments ymin {A} _.
Arguments xmin {A} _.
Arguments ymax {A} _.
Arguments xmax {A} _.
Arguments mkLink {L P A} _ _ _ _.
Arguments id {L P A} _.
Arguments label {L P A} _.
Arguments targetPage {L P A} _.
Arguments box {L P A} _.

End Types.

(* ===================================================================== *)
(** * [services/geminiService.ts]                                        *)
(* ===================================================================== *)

Module GeminiService.
Import JS JSON Types.

(** What a property read on a parsed value yields: a value or
    [undefined]. *)
Abbreviation any := (option JSON.value).

(** An entry as the detection client builds it. *)
Abbreviation RawLink := (IndexLink any any any).

(** [v.k] for a parsed JSON value [v] and one of the property names
    this file reads ([label], [targetPage], [ymin], [xmin], [ymax],
    [xmax], [pageNumber], [entries]).  Reading a property of [null]
    throws; an object answers with its own member; no other value has
    such a property, [entries] of an array apart, which the code never
    reads: it asks for [entries] only once [pageNumber] was found
    truthy, and an array has no [pageNumber].  The exception is the
    engine's [TypeError]; its message is given in the wording of V8 and
    differs between engines. *)
Definition getProp (v : JSON.value) (k : string) : Result any :=
  match v with
  | JNull =>
      throw (TypeError
               (String.append "Cannot read properties of null (reading '"
                  (String.append k "')")))
  | JObject ms => ok (lookupMember (utf16 k) ms)
  | _ => ok None
  end.

Definition anyTruthy (v : any) : bool :=
  match v with Some x => truthy x | None => false end.

Definition anyIsArray (v : any) : bool :=
  match v with Some x => isArray x | None => false end.

Definition fence : jsstring := utf16 "```".

(** [s.replace(/^```(?:json)?\s*/i, "")]: the pattern is anchored at
    the start and each of its parts is greedy with nothing after it to
    backtrack for. *)
Definition replaceOpeningFence (s : jsstring) : jsstring :=
  match stripPrefix fence s with
  | Some r =>
      trimStart
        match stripPrefixCI (utf16 "json") r with
        | Some r' => r'
        | None => r
        end
  | None => s
  end.

(** [s.replace(/\s*```$/, "")]: a match ends at the end of the input,
    so it exists exactly when [s] ends with the fence, and the
    leftmost one starts at the white space run before that fence. *)
Definition replaceClosingFence (s : jsstring) : jsstring :=
  match stripPrefix (rev fence) (rev s) with
  | Some r => rev (trimStart r)
  | None => s
  end.

Definition cleanText (text : jsstring) : jsstring :=
  replaceClosingFence (replaceOpeningFence (trim text)).

(** [parseResponseJSON]: [null] is [JNull]. *)
Definition parseResponseJSON (text : option jsstring) : JSON.value :=
  match text with
  | None => JNull
  | Some [] => JNull
  | Some t =>
      match JSON.parse (cleanText t) with
      | Some v => v
      | None => JNull
      end
  end.

(** ** The request sent to the model *)

Inductive Part : Type :=
| TextPart (text : jsstring)
| InlineData (mimeType : string) (data : jsstring).

Inductive Schema : Type :=
| TString
| TInteger
| TArray (items : Schema)
| TObject (properties : list (string * Schema)) (required : list string).

Record GenerateContentParameters := mkRequest
  { model : string;
    parts : list Part;
    thinkingBudget : Z;
    responseMimeType : string;
    responseSchema : Schema }.

(** The part of [GenerateContentResponse] the code reads. *)
Record Response := mkResponse { text : option jsstring }.

Definition quoted (s : string) : jsstring := 34 :: utf16 s ++ [34].

Definition entrySchema : Schema :=
  TObject
    [("label", TString); ("targetPage", TInteger); ("ymin", TInteger);
     ("xmin", TInteger); ("ymax", TInteger); ("xmax", TInteger)]
    ["label"; "targetPage"; "ymin"; "xmin"; "ymax"; "xmax"]%string.

Definition prompt : jsstring :=
  utf16 "
    Analyze this image of a document page. 
    I am looking for " ++ quoted "Table of Contents" ++ utf16 " entries, "
  ++ quoted "Index" ++ utf16 " entries, or any list of items that link to specific page numbers.
    
    Identify each page number reference found on the page.
    
    Rules:
    1. If a line contains multiple page numbers (e.g., "
  ++ quoted "Bananas, 5, 8, 12" ++ utf16 "), create a SEPARATE entry for each page number (one for 5, one for 8, one for 12).
    2. " ++ quoted "targetPage" ++ utf16 ": The specific integer page number for that link.
    3. " ++ quoted "label" ++ utf16 ": The text label associated with the number (e.g., "
  ++ quoted "Bananas" ++ utf16 ").
    4. " ++ quoted "ymin" ++ utf16 ", " ++ quoted "xmin" ++ utf16 ", "
  ++ quoted "ymax" ++ utf16 ", " ++ quoted "xmax"
  ++ utf16 ": The bounding box coordinates normalized 0-1000.
       - IMPORTANT: If a line has MULTIPLE page numbers, the bounding box for each entry must ONLY enclose the specific number digits (e.g. the box around "
  ++ quoted "5" ++ utf16 ", the box around " ++ quoted "8"
  ++ utf16 ") so they can be clicked individually.
       - If a line has a SINGLE page number (typical Table of Contents), the bounding box should enclose the ENTIRE line (label + dots + number) to make it easier to click.
    
    Return a JSON array of these entries.
  ".

Definition batchIntro : jsstring :=
  utf16 "Analyze the following document pages. Identify Table of Contents or Index entries that link to specific page numbers.".

Definition batchInstructions : jsstring :=
  utf16 "
    For each page provided above, find all entries with page references.
    Return a JSON array where each object corresponds to a page and contains:
    - " ++ quoted "pageNumber" ++ utf16 ": The integer page number defined above.
    - " ++ quoted "entries" ++ utf16 ": A list of detected links on that page.
    
    Rules for entries:
    - If a line has multiple page numbers, create separate entries for each number.
    - If multiple numbers exist on one line, the bounding box for each must ONLY enclose the specific number digits (to allow individual clicking).
    - If only one number exists on the line, the bounding box can enclose the whole line.
    
    Each entry in " ++ quoted "entries" ++ utf16 " must contain:
    - " ++ quoted "label" ++ utf16 ": text of the entry.
    - " ++ quoted "targetPage" ++ utf16 ": the referenced page number.
    - " ++ quoted "ymin" ++ utf16 ", " ++ quoted "xmin" ++ utf16 ", "
  ++ quoted "ymax" ++ utf16 ", " ++ quoted "xmax"
  ++ utf16 ": bounding box normalized 0-1000 for that page.
  ".

Definition modelName : string := "gemini-3-flash-preview".

Definition singleRequest (imageBase64 : jsstring) : GenerateContentParameters :=
  {| model := modelName;
     parts := [InlineData "image/jpeg" imageBase64; TextPart prompt];
     thinkingBudget := 1024;
     responseMimeType := "application/json";
     responseSchema := TArray entrySchema |}.

Record BatchPage := mkBatchPage
  { pageNumber : Z; imageBase64 : jsstring }.

Definition batchParts (pages : list BatchPage) : list Part :=
  TextPart batchIntro
    :: flat_map
         (fun p =>
            [TextPart (utf16 "--- Page " ++ ZtoString (pageNumber p)
                         ++ utf16 " ---");
             InlineData "image/jpeg" (imageBase64 p)])
         pages
    ++ [TextPart batchInstructions].

Definition batchRequest (pages : list BatchPage) : GenerateContentParameters :=
  {| model := modelName;
     parts := batchParts pages;
     thinkingBudget := 1024;
     responseMimeType := "application/json";
     responseSchema :=
       TArray (TObject [("pageNumber", TInteger);
                        ("entries", TArray entrySchema)]
                       ["pageNumber"; "entries"]%string) |}.

(** The identifier template
    [`page-${p}-link-${index}-${Date.now()}`], with [p] already
    converted to a string. *)
Definition linkId (p : jsstring) (index : nat) (now : Z) : jsstring :=
  utf16 "page-" ++ p ++ utf16 "-link-" ++ NtoString (N.of_nat index)
    ++ utf16 "-" ++ ZtoString now.

(** The tail of an identifier after the page number. *)
Definition idTail (index : nat) (now : Z) : jsstring :=
  utf16 "-link-" ++ NtoString (N.of_nat index) ++ utf16 "-" ++ ZtoString now.

Section WithWorld.

(** The state of everything outside the program: the remote model
    and the clock. *)
Context {World : Type}.

(** What the module gets from its environment: the key read from
    [process.env.API_KEY] (empty when unset), the model client, the
    clock ([Date.now()], a whole number of milliseconds, which stays
    far below [2^53]), and the [ToString] conversion of the language
    applied to a parsed value. *)
Record Runtime := mkRuntime
  { apiKey : jsstring;
    generateContent : GenerateContentParameters -> IO World Response;
    DateNow : World -> Z * World;
    ToString : JSON.value -> jsstring }.

Variable rt : Runtime.

(** [Date.now()] *)
Definition now : IO World Z :=
  fun w => let '(t, w') := DateNow rt w in (inr t, w').

(** [arr.map((x, index) => f x index)] with an effectful callback,
    starting at [index]. *)
Fixpoint mapIndexed {A B} (f : A -> nat -> IO World B) (l : list A)
  (index : nat) : IO World (list B) :=
  match l with
  | [] => ret []
  | x :: l' =>
      bind (f x index) (fun y =>
      bind (mapIndexed f l' (S index)) (fun ys =>
      ret (y :: ys)))
  end.

(** The object literal both detection functions build for one raw
    entry; [p] is the page number as the template prints it. *)
Definition mkEntry (p : jsstring) (link : JSON.value) (index : nat)
  : IO World RawLink :=
  bind now (fun now =>
  bind (lift (getProp link "label")) (fun label =>
  bind (lift (getProp link "targetPage")) (fun targetPage =>
  bind (lift (getProp link "ymin")) (fun ymin =>
  bind (lift (getProp link "xmin")) (fun xmin =>
  bind (lift (getProp link "ymax")) (fun ymax =>
  bind (lift (getProp link "xmax")) (fun xmax =>
  ret {| id := linkId p index now;
         label := label;
         targetPage := targetPage;
         box := mkBox ymin xmin ymax xmax |}))))))).

Definition analyzePageForIndex (imageBase64 : jsstring) (pageNumber : Z)
  : IO World (list RawLink) :=
  match apiKey rt with
  | [] => raise (Error "API Key is missing")
  | _ :: _ =>
      tryCatch
        (bind (generateContent rt (singleRequest imageBase64))
           (fun response =>
              let rawLinks := parseResponseJSON (text response) in
              if negb (truthy rawLinks) || negb (isArray rawLinks)
              then ret []
              else
                match rawLinks with
                | JArray elems =>
                    mapIndexed (mkEntry (ZtoString pageNumber)) elems 0
                | _ => raise (TypeError "rawLinks.map is not a function")
                end))
        (fun error => raise error)
  end.

(** The body of [rawData.forEach] in [analyzePagesBatch].  The record
    [result] is kept as the map from each property name to what was
    last assigned under it.  For every name but [__proto__] that is the
    own property of that name; an assignment under [__proto__] creates
    no property: it installs the assigned array as the prototype, which
    is what a later read of [result.__proto__] yields. *)
Definition batchStep (result : gmap jsstring (list RawLink))
  (pageResult : JSON.value)
  : IO World (gmap jsstring (list RawLink)) :=
  bind (lift (getProp pageResult "pageNumber")) (fun pageNum =>
    if negb (anyTruthy pageNum) then ret result else
    bind (lift (getProp pageResult "entries")) (fun entries =>
      if anyTruthy entries && anyIsArray entries then
        match pageNum, entries with
        | Some pn, Some (JArray elems) =>
            bind (mapIndexed (mkEntry (ToString rt pn)) elems 0)
              (fun links => ret (<[ToString rt pn := links]> result))
        | _, _ => ret result
        end
      else ret result)).

Fixpoint forEach {A S} (f : S -> A -> IO World S) (l : list A) (s : S)
  : IO World S :=
  match l with
  | [] => ret s
  | x :: l' => bind (f s x) (forEach f l')
  end.

(** The returned record is keyed by property name, that is by the
    string the page number converts to. *)
Definition analyzePagesBatch (pages : list BatchPage)
  : IO World (gmap jsstring (list RawLink)) :=
  match apiKey rt with
  | [] => raise (Error "API Key is missing")
  | _ :: _ =>
      tryCatch
        (bind (generateContent rt (batchRequest pages))
           (fun response =>
              match parseResponseJSON (text response) with
              | JArray rawData => forEach batchStep rawData ∅
              | _ => ret ∅
              end))
        (fun error => raise error)
  end.

End WithWorld.

Arguments Runtime : clear implicits.

End GeminiService.

(* ===================================================================== *)
(** * The two PDF libraries and the uploaded file                        *)
(* ===================================================================== *)

(** What the code uses of pdf.js (through react-pdf). *)
Module PdfJs.
Import JS.

(** What the body of the per-page [try] block comes to: [getPage] or
    [render] rejects, [canvas.getContext('2d')] is [null], or the page
    is drawn and [canvas.toDataURL('image/jpeg', 0.8)] returns a data
    URL. *)
Inductive RenderOutcome : Type :=
| RenderThrows (e : Exn)
| NoContext
| Rendered (dataURL : jsstring).

Record PDFDocumentProxy := mkProxy
  { numPages : Z;
    renderPage : Z -> RenderOutcome }.

End PdfJs.

(** What the code uses of pdf-lib. *)
Module PdfLib.
Import JS.

Inductive PDFObject : Type :=
| PDFNumber (x : float)
| PDFName (s : string)
| PDFRef (objectNumber : nat)
| PDFArray (elems : list PDFObject)
| PDFDict (entries : list (string * PDFObject)).

(** A page: its reference, its size as [getSize()] reports it, and
    the array [node.Annots()] resolves to, if the page has one. *)
Record PDFPage := mkPage
  { ref : nat;
    width : float;
    height : float;
    Annots : option (list PDFObject) }.

(** The context of a document: the largest object number in use and
    the table of registered objects.  The table leaves out the page
    dictionaries and their annotation arrays, which the exporter
    changes in place: these are the [pages] of the document. *)
Record PDFContext := mkContext
  { largestObjectNumber : nat;
    indirectObjects : gmap nat PDFObject }.

Record PDFDocument := mkDocument
  { context : PDFContext;
    pages : list PDFPage }.

(** [context.register(obj)]: the object is stored under the next
    object number. *)
Definition register (obj : PDFObject) (ctx : PDFContext)
  : nat * PDFContext :=
  let n := S (largestObjectNumber ctx) in
  (n, {| largestObjectNumber := n;
         indirectObjects := <[n := obj]> (indirectObjects ctx) |}).

(** [arr[i]] followed by a property read: indexing outside the array
    yields [undefined], and reading a property of it throws. *)
Definition index {A} (arr : list A) (i : Z) : Result A :=
  if (i <? 0)%Z then throw (TypeError "Cannot read properties of undefined")
  else
    match arr !! Z.to_nat i with
    | Some x => ok x
    | None => throw (TypeError "Cannot read properties of undefined")
    end.

End PdfLib.

Module DOM.
Import JS.

(** An uploaded file: its name, its media type, and what each of the
    two libraries makes of its bytes when asked to open them. *)
Record File := mkFile
  { name : jsstring;
    type : string;
    pdfjsDocument : Result PdfJs.PDFDocumentProxy;
    pdflibDocument : Result PdfLib.PDFDocument }.

(** The blob the exporter returns: the saved document and its media
    type. *)
Record Blob := mkBlob
  { saved : PdfLib.PDFDocument;
    blobType : string }.

End DOM.

(* ===================================================================== *)
(** * [services/pdfImageService.ts]                                      *)
(* ===================================================================== *)

Module PdfImageService.
Import JS PdfJs DOM.

(** [s.split(sep)] for a one-character separator. *)
Fixpoint split (sep : N) (s : jsstring) : list jsstring :=
  match s with
  | [] => [[]]
  | c :: r =>
      if c =? sep then [] :: split sep r
      else
        match split sep r with
        | h :: t => (c :: h) :: t
        | [] => [[c]]
        end
  end.

(** One iteration of the loop over [pageNumbers]; a stored value is
    [None] when the data URL had no comma ([split(',')[1]] is then
    [undefined]). *)
Definition renderInto (pdfDoc : PDFDocumentProxy)
  (results : gmap Z (option jsstring)) (pageNum : Z)
  : gmap Z (option jsstring) :=
  if (pageNum <? 1)%Z || (pageNum >? numPages pdfDoc)%Z then results
  else
    match renderPage pdfDoc pageNum with
    | Rendered dataURL => <[pageNum := split 44 dataURL !! 1%nat]> results
    | NoContext => results
    | RenderThrows e => results
    end.

Definition getImagesForPages (file : File) (pageNumbers : list Z)
  : Result (gmap Z (option jsstring)) :=
  rbind (pdfjsDocument file) (fun pdfDoc =>
    ok (foldl (renderInto pdfDoc) ∅ pageNumbers)).

End PdfImageService.

(* ===================================================================== *)
(** * [services/pdfExportService.ts]                                     *)
(* ===================================================================== *)

Module PdfExportService.
Import JS Types PdfLib DOM.

(** An entry as the exporter reads it: the box as numbers, the target
    page as an integer. *)
Abbreviation Link := (IndexLink jsstring Z float).

(** The rectangle computed at the top of the inner loop. *)
Definition linkRect (link : Link) (width height : float) : list float :=
  let xmin := (xmin (box link) / 1000 * width)%float in
  let xmax := (xmax (box link) / 1000 * width)%float in
  let ymin := (height - ymax (box link) / 1000 * height)%float in
  let ymax := (height - Types.ymin (box link) / 1000 * height)%float in
  [xmin; ymin; xmax; ymax].

(** The link annotation dictionary for a rectangle and a target page
    reference. *)
Definition linkAnnot (rect : list float) (targetRef : nat) : PDFObject :=
  PDFDict
    [("Type", PDFName "Annot");
     ("Subtype", PDFName "Link");
     ("Rect", PDFArray (List.map PDFNumber rect));
     ("Border", PDFArray [PDFNumber 0; PDFNumber 0; PDFNumber 0]);
     ("A", PDFDict
             [("Type", PDFName "Action");
              ("S", PDFName "GoTo");
              ("D", PDFArray [PDFRef targetRef; PDFName "Fit"])])].

(** [page.node] gets its annotation array extended by [r]; an array
    is created when the page has none. *)
Definition pushAnnot (r : PDFObject) (page : PDFPage) : PDFPage :=
  let annots :=
    match Annots page with
    | Some annots => annots
    | None => []
    end in
  {| ref := ref page; width := width page; height := height page;
     Annots := Some (annots ++ [r]) |}.

(** The body of the loop over the links of one page. *)
Definition addLink (pageIndex : Z) (width height : float)
  (pdfDoc : PDFDocument) (link : Link) : Result PDFDocument :=
  let targetPageIndex := (targetPage link - 1)%Z in
  if (targetPageIndex >=? 0)%Z
     && (targetPageIndex <? Z.of_nat (List.length (pages pdfDoc)))%Z
  then
    let rect := linkRect link width height in
    rbind (index (pages pdfDoc) targetPageIndex) (fun target =>
      let '(linkAnnotRef, context') :=
        register (linkAnnot rect (ref target)) (context pdfDoc) in
      rbind (index (pages pdfDoc) pageIndex) (fun page =>
        ok {| context := context';
              pages := <[Z.to_nat pageIndex :=
                           pushAnnot (PDFRef linkAnnotRef) page]>
                         (pages pdfDoc) |}))
  else ok pdfDoc.

Fixpoint foldResult {A S} (f : S -> A -> Result S) (l : list A) (s : S)
  : Result S :=
  match l with
  | [] => ok s
  | x :: l' => rbind (f s x) (foldResult f l')
  end.

(** The body of the loop over [Object.entries(analyses)]; the key is
    given as the integer [parseInt] reads back from it. *)
Definition exportPage (pdfDoc : PDFDocument) (entry : Z * list Link)
  : Result PDFDocument :=
  let '(pageNum, links) := entry in
  let pageIndex := (pageNum - 1)%Z in
  if (pageIndex <? 0)%Z
     || (pageIndex >=? Z.of_nat (List.length (pages pdfDoc)))%Z
  then ok pdfDoc
  else
    rbind (index (pages pdfDoc) pageIndex) (fun page =>
      foldResult (addLink pageIndex (width page) (height page))
        links pdfDoc).

(** [exportModifiedPdf]; [analyses] is the record as
    [Object.entries] enumerates it. *)
Definition exportModifiedPdf (originalFile : File)
  (analyses : list (Z * list Link)) : Result Blob :=
  rbind (pdflibDocument originalFile) (fun pdfDoc =>
  rbind (foldResult exportPage analyses pdfDoc) (fun pdfDoc' =>
    ok {| saved := pdfDoc'; blobType := "application/pdf" |})).

End PdfExportService.

(* ===================================================================== *)
(** * [App.tsx]: the component state and its two scan handlers           *)
(* ===================================================================== *)

Module App.
Import JS Types DOM GeminiService PdfImageService.

Record AppState := mkAppState
  { file : option File;
    currentPage : Z;
    analyzing : bool;
    batchProgress : option (Z * Z);
    exporting : bool;
    pageAnalyses : gmap Z (list RawLink);
    error : option string }.

Definition setAnalyzing (b : bool) (st : AppState) : AppState :=
  {| file := file st; currentPage := currentPage st; analyzing := b;
     batchProgress := batchProgress st; exporting := exporting st;
     pageAnalyses := pageAnalyses st; error := error st |}.

Definition setBatchProgress (p : option (Z * Z)) (st : AppState) : AppState :=
  {| file := file st; currentPage := currentPage st;
     analyzing := analyzing st; batchProgress := p;
     exporting := exporting st; pageAnalyses := pageAnalyses st;
     error := error st |}.

Definition setError (e : option string) (st : AppState) : AppState :=
  {| file := file st; currentPage := currentPage st;
     analyzing := analyzing st; batchProgress := batchProgress st;
     exporting := exporting st; pageAnalyses := pageAnalyses st;
     error := e |}.

(** [setPageAnalyses(prev => f prev)] *)
Definition setPageAnalyses
  (f : gmap Z (list RawLink) -> gmap Z (list RawLink)) (st : AppState)
  : AppState :=
  {| file := file st; currentPage := currentPage st;
     analyzing := analyzing st; batchProgress := batchProgress st;
     exporting := exporting st; pageAnalyses := f (pageAnalyses st);
     error := error st |}.

Section Handlers.
Context {World : Type} (rt : Runtime World).

(** A handler runs on the component state and the outside world. *)
Abbreviation Handler := (IO (AppState * World)).

Definition update (f : AppState -> AppState) : Handler unit :=
  fun '(st, w) => (inr tt, (f st, w)).

(** A call into the detection client leaves the component state
    alone. *)
Definition await {A} (m : IO World A) : Handler A :=
  fun '(st, w) => let '(r, w') := m w in (r, (st, w')).

Definition seq {A} (m : Handler unit) (k : Handler A) : Handler A :=
  bind m (fun _ => k).

(** [handleAnalyzePage]; [currentPage] is the value the handler
    closed over. *)
Definition handleAnalyzePage (imageBase64 : jsstring) : Handler unit :=
  fun '(st0, w0) =>
    let currentPage := currentPage st0 in
    (seq (update (setAnalyzing true))
    (seq (update (setError None))
    (tryFinally
       (tryCatch
          (bind (await (analyzePageForIndex rt imageBase64 currentPage))
             (fun detectedLinks =>
                update (setPageAnalyses
                          (fun prev => <[currentPage := detectedLinks]> prev))))
          (fun err =>
             update (setError
               (Some "Failed to analyze page. Please check your API key or try again."))))
       (update (setAnalyzing false))))) (st0, w0).

(** [if (imageBase64)]: a missing entry, [undefined] and the empty
    string are falsy. *)
Definition truthyImage (v : option (option jsstring)) : option jsstring :=
  match v with
  | Some (Some (c :: s)) => Some (c :: s)
  | _ => None
  end.

(** The body of the loop of step 2 of [handleBatchScan]. *)
Definition scanPage (pageImages : gmap Z (option jsstring)) (totalPages : Z)
  (completed : Z) (pageNum : Z) : Handler unit :=
  match truthyImage (pageImages !! pageNum) with
  | Some imageBase64 =>
      tryCatch
        (seq (update (setBatchProgress (Some ((completed + 1)%Z, totalPages))))
           (bind (await (analyzePageForIndex rt imageBase64 pageNum))
              (fun detectedLinks =>
                 update (setPageAnalyses
                           (fun prev => <[pageNum := detectedLinks]> prev)))))
        (fun e => ret tt)
  | None => ret tt
  end.

(** The sequential loop over [pagesToScan]. *)
Fixpoint scanLoop (pageImages : gmap Z (option jsstring)) (totalPages : Z)
  (pagesToScan : list Z) (completed : Z) : Handler unit :=
  match pagesToScan with
  | [] => ret tt
  | pageNum :: rest =>
      seq (scanPage pageImages totalPages completed pageNum)
          (scanLoop pageImages totalPages rest (completed + 1)%Z)
  end.

Definition handleBatchScan (pagesToScan : list Z) : Handler unit :=
  fun '(st0, w0) =>
    match file st0 with
    | None => (inr tt, (st0, w0))
    | Some file =>
        let totalPages := Z.of_nat (List.length pagesToScan) in
        (seq (update (setAnalyzing true))
        (seq (update (setError None))
        (seq (update (setBatchProgress (Some (0%Z, totalPages))))
        (tryFinally
           (tryCatch
              (bind (lift (getImagesForPages file pagesToScan))
                 (fun pageImages =>
                    scanLoop pageImages totalPages pagesToScan 0%Z))
              (fun err =>
                 update (setError (Some "Batch scan encountered an error."))))
           (seq (update (setAnalyzing false))
                (update (setBatchProgress None))))))) (st0, w0)
    end.

End Handlers.

End App.

(* ===================================================================== *)
(** * Notions the statements below use, and sample data                  *)
(* ===================================================================== *)

Module Fences.
Import JS.

(** A payload on its own lines between a fence tagged [json] and a
    closing fence. *)
Definition fenceJson (t : jsstring) : jsstring :=
  utf16 "```json" ++ [10] ++ t ++ [10] ++ utf16 "```".

(** The same with an untagged opening fence. *)
Definition fencePlain (t : jsstring) : jsstring :=
  utf16 "```" ++ [10] ++ t ++ [10] ++ utf16 "```".

End Fences.

Module Notions.
Import JS Types GeminiService.

(** Every stored entry carries the identifier built from the key it is
    stored under and from its position. *)
Definition idsFollowKeys (result : gmap jsstring (list RawLink)) : Prop :=
  forall k l i a,
    result !! k = Some l -> l !! i = Some a ->
    exists t, id a = linkId k i t.

End Notions.

Module ExportNotions.
Import JS Types PdfLib.

(** The annotations of a page, none when it has no array. *)
Definition annotsOf (page : PDFPage) : list PDFObject :=
  default [] (Annots page).

(** [d'] is [d] with more registered objects and more annotations:
    nothing in the object table of [d] is altered (the table does not
    hold the pages), every page keeps its reference and size, and the
    annotations a page had are the leading ones of those it has. *)
Record extends (d d' : PDFDocument) : Prop := mkExtends
  { ext_length : List.length (pages d') = List.length (pages d);
    ext_largest :
      (largestObjectNumber (context d) <= largestObjectNumber (context d'))%nat;
    ext_objects : forall r,
      (r <= largestObjectNumber (context d))%nat ->
      indirectObjects (context d') !! r = indirectObjects (context d) !! r;
    ext_pages : forall i p,
      pages d !! i = Some p ->
      exists p', pages d' !! i = Some p' /\ ref p' = ref p
                 /\ width p' = width p /\ height p' = height p
                 /\ annotsOf p `prefix_of` annotsOf p' }.

(** The document after one link annotation for [rect] and [target] has
    been added to the page at [pageIndex]. *)
Definition withLink (d : PDFDocument) (pageIndex : nat) (page : PDFPage)
  (annot : PDFObject) : PDFDocument :=
  let n := S (largestObjectNumber (context d)) in
  {| context := {| largestObjectNumber := n;
                   indirectObjects := <[n := annot]> (indirectObjects (context d)) |};
     pages := <[pageIndex := mkPage (ref page) (width page) (height page)
                               (Some (annotsOf page ++ [PDFRef n]))]> (pages d) |}.

End ExportNotions.

Module JsonNotions.
Import JS.

(** A parser that, when it succeeds, leaves less than it was given. *)
Definition consumes {A} (p : jsstring -> option (A * jsstring)) : Prop :=
  forall s a rest,
    p s = Some (a, rest) -> (List.length rest < List.length s)%nat.

End JsonNotions.

Module ImageNotions.
Import PdfJs.

(** A page gets an entry when it is within bounds and is drawn. *)
Definition drawn (pdfDoc : PDFDocumentProxy) (P : Z) : Prop :=
  (1 <= P <= numPages pdfDoc)%Z
  /\ exists dataURL, renderPage pdfDoc P = Rendered dataURL.

End ImageNotions.

Module ScanNotions.
Import JS Types GeminiService App.

(** The world the loop of [handleBatchScan] is in once it has gone
    through [pages], starting in [w]: each page that has an image costs
    one detection call, made in the world the pages before it left,
    whether that call returns or throws; a page without image costs
    nothing. *)
Fixpoint scanWorld {World : Type} (rt : Runtime World)
  (pageImages : gmap Z (option jsstring)) (pages : list Z) (w : World)
  : World :=
  match pages with
  | [] => w
  | pageNum :: rest =>
      scanWorld rt pageImages rest
        match truthyImage (pageImages !! pageNum) with
        | Some imageBase64 =>
            snd (analyzePageForIndex rt imageBase64 pageNum w)
        | None => w
        end
  end.

End ScanNotions.

Module Samples.
Import JS JSON Types GeminiService PdfJs PdfLib DOM.

(** A response payload that is itself a fenced block. *)
Definition fencedPayload : jsstring := Fences.fenceJson (utf16 "[1]").

(** A model that answers every request with the same text, and a clock
    that ticks once per reading. *)
Definition constantModel (answer : option jsstring) : Runtime nat :=
  {| apiKey := utf16 "key";
     generateContent := fun _ w => (inr (mkResponse answer), S w);
     DateNow := fun w => (Z.of_nat w, S w);
     ToString := fun v =>
       match v with
       | JNumber false m 0 => NtoString m
       | _ => utf16 "NaN"
       end |}.

(** Two entries, as the single-page schema asks for them. *)
Definition twoEntries : jsstring :=
  utf16 "[{" ++ quoted "label" ++ utf16 ": " ++ quoted "Apples"
    ++ utf16 ", " ++ quoted "targetPage" ++ utf16 ": 5, "
    ++ quoted "ymin" ++ utf16 ": 100, " ++ quoted "xmin" ++ utf16 ": 50, "
    ++ quoted "ymax" ++ utf16 ": 120, " ++ quoted "xmax" ++ utf16 ": 900}, {"
    ++ quoted "label" ++ utf16 ": " ++ quoted "Bananas"
    ++ utf16 ", " ++ quoted "targetPage" ++ utf16 ": 8, "
    ++ quoted "ymin" ++ utf16 ": 130, " ++ quoted "xmin" ++ utf16 ": 50, "
    ++ quoted "ymax" ++ utf16 ": 150, " ++ quoted "xmax" ++ utf16 ": 900}]".

(** One entry, as the single-page schema asks for it. *)
Definition oneEntry : jsstring :=
  utf16 "[{" ++ quoted "label" ++ utf16 ": " ++ quoted "Cherries"
    ++ utf16 ", " ++ quoted "targetPage" ++ utf16 ": 9, "
    ++ quoted "ymin" ++ utf16 ": 100, " ++ quoted "xmin" ++ utf16 ": 50, "
    ++ quoted "ymax" ++ utf16 ": 120, " ++ quoted "xmax" ++ utf16 ": 900}]".

(** A single entry that is not inside an array. *)
Definition oneObject : jsstring :=
  utf16 "{" ++ quoted "label" ++ utf16 ": " ++ quoted "Apples"
    ++ utf16 ", " ++ quoted "targetPage" ++ utf16 ": 5}".

(** Two pages of one entry each, as the batch schema asks for them. *)
Definition twoPages : jsstring :=
  utf16 "[{" ++ quoted "pageNumber" ++ utf16 ": 1, " ++ quoted "entries"
    ++ utf16 ": [{" ++ quoted "label" ++ utf16 ": " ++ quoted "Apples"
    ++ utf16 ", " ++ quoted "targetPage" ++ utf16 ": 5, "
    ++ quoted "ymin" ++ utf16 ": 100, " ++ quoted "xmin" ++ utf16 ": 50, "
    ++ quoted "ymax" ++ utf16 ": 120, " ++ quoted "xmax" ++ utf16 ": 900}]}, {"
    ++ quoted "pageNumber" ++ utf16 ": 12, " ++ quoted "entries"
    ++ utf16 ": [{" ++ quoted "label" ++ utf16 ": " ++ quoted "Bananas"
    ++ utf16 ", " ++ quoted "targetPage" ++ utf16 ": 8, "
    ++ quoted "ymin" ++ utf16 ": 130, " ++ quoted "xmin" ++ utf16 ": 50, "
    ++ quoted "ymax" ++ utf16 ": 150, " ++ quoted "xmax" ++ utf16 ": 900}]}]".

(** A two-page document of US Letter pages; the second page already
    has one annotation. *)
Definition twoPageDoc : PDFDocument :=
  {| context := {| largestObjectNumber := 20; indirectObjects := ∅ |};
     pages := [mkPage 10 612 792 None; mkPage 11 612 792 (Some [PDFRef 3])] |}.

Definition twoPageFile : File :=
  {| name := utf16 "book.pdf";
     type := "application/pdf";
     pdfjsDocument := inl (Error "not opened");
     pdflibDocument := inr twoPageDoc |}.

(** An entry covering its whole page and pointing to page 2, and one
    pointing past the end of the document. *)
Definition fullPageLink : IndexLink jsstring Z float :=
  mkLink (utf16 "page-1-link-0-0") (utf16 "Apples") 2%Z
    (mkBox 0 0 1000 1000)%float.

Definition strayLink : IndexLink jsstring Z float :=
  mkLink (utf16 "page-1-link-1-0") (utf16 "Bananas") 5%Z
    (mkBox 0 0 500 500)%float.

(** A one-page document whose only page cannot be drawn. *)
Definition unrenderableDoc : PDFDocumentProxy :=
  {| numPages := 1;
     renderPage := fun _ => RenderThrows (Error "Rendering failed") |}.

Definition unrenderableFile : File :=
  {| name := utf16 "broken.pdf";
     type := "application/pdf";
     pdfjsDocument := inr unrenderableDoc;
     pdflibDocument := inl (Error "not opened") |}.

(** A three-page document; page [n] is drawn as the image [img-n]. *)
Definition threePageDoc : PDFDocumentProxy :=
  {| numPages := 3;
     renderPage := fun n =>
       Rendered (utf16 "data:image/jpeg;base64,img-" ++ ZtoString n) |}.

Definition threePageFile : File :=
  {| name := utf16 "book.pdf";
     type := "application/pdf";
     pdfjsDocument := inr threePageDoc;
     pdflibDocument := inl (Error "not opened") |}.

(** A model that fails on the image of page 2 and answers every other
    request with two entries. *)
Definition flakyModel : Runtime nat :=
  {| apiKey := utf16 "key";
     generateContent := fun request w =>
       match parts request with
       | InlineData _ data :: _ =>
           match stripPrefix (utf16 "img-2") data with
           | Some [] => (inl (Error "503 Service Unavailable"), S w)
           | _ => (inr (mkResponse (Some twoEntries)), S w)
           end
       | _ => (inl (Error "400 Bad Request"), S w)
       end;
     DateNow := fun w => (Z.of_nat w, S w);
     ToString := fun _ => utf16 "NaN" |}.

(** A model whose request made in world 3 fails and whose other
    requests are answered with two entries: in a run started in world
    0 that is the second request, whatever it is for. *)
Definition secondRequestFails : Runtime nat :=
  {| apiKey := utf16 "key";
     generateContent := fun _ w =>
       if (w =? 3)%nat then (inl (Error "503 Service Unavailable"), S w)
       else (inr (mkResponse (Some twoEntries)), S w);
     DateNow := fun w => (Z.of_nat w, S w);
     ToString := fun _ => utf16 "NaN" |}.

(** The entries of a run, or none when it threw. *)
Definition entriesOf {A W} (run : Result (list A) * W) : list A :=
  match run with
  | (inr l, _) => l
  | (inl _, _) => []
  end.

Definition mappingOf {K A W} `{Countable K}
  (run : Result (gmap K A) * W) : gmap K A :=
  match run with
  | (inr m, _) => m
  | (inl _, _) => ∅
  end.

Definition singleRun : Result (list RawLink) * nat :=
  analyzePageForIndex (constantModel (Some twoEntries)) (utf16 "AAAA") 3 0%nat.

Definition batchRun : Result (gmap jsstring (list RawLink)) * nat :=
  analyzePagesBatch (constantModel (Some twoPages))
    [mkBatchPage 1 (utf16 "AAAA"); mkBatchPage 12 (utf16 "BBBB")] 0%nat.

(** A session on the three-page book with nothing analysed yet. *)
Definition freshSession : App.AppState :=
  {| App.file := Some threePageFile;
     App.currentPage := 1;
     App.analyzing := false;
     App.batchProgress := None;
     App.exporting := false;
     App.pageAnalyses := ∅;
     App.error := None |}.

(** The same session after pages 1 and 2 were analysed once. *)
Definition analysedSession : App.AppState :=
  App.setPageAnalyses
    (fun _ => <[1%Z := entriesOf singleRun]> (<[2%Z := entriesOf singleRun]> ∅))
    freshSession.

End Samples.

(* ===================================================================== *)
(** * [components/PDFViewer.tsx]: choosing the pages to scan             *)
(* ===================================================================== *)

Module PDFViewer.
Import JS PdfImageService.

(** The value of a code unit as a digit in [radix], if it is one. *)
Definition digitValue (radix c : N) : option N :=
  let d :=
    if (48 <=? c) && (c <=? 57) then Some (c - 48)
    else if (97 <=? c) && (c <=? 122) then Some (c - 87)
    else if (65 <=? c) && (c <=? 90) then Some (c - 55)
    else None in
  match d with
  | Some v => if v <? radix then Some v else None
  | None => None
  end.

(** Reads the longest run of [radix] digits at the start of [s]:
    accumulated value and number of digits read. *)
Fixpoint readRadix (radix : N) (s : jsstring) (acc : N) (count : nat)
  : N * nat :=
  match s with
  | c :: r =>
      match digitValue radix c with
      | Some v => readRadix radix r (radix * acc + v) (S count)
      | None => (acc, count)
      end
  | [] => (acc, count)
  end.

(** [parseInt(s)] without a radix: leading white space is skipped, a
    sign is read, a [0x] prefix selects base 16, and the longest run of
    digits is the value; [None] is [NaN].  The result is the
    mathematical integer (binary64 rounding, which sets in above 2^53,
    is not applied, and [-0] is [0]). *)
Definition parseInt (s : jsstring) : option Z :=
  let s := trimStart s in
  let '(negative, s) :=
    match s with
    | c :: r =>
        if c =? 45 then (true, r)
        else if c =? 43 then (false, r)
        else (false, s)
    | [] => (false, s)
    end in
  let '(radix, s) :=
    match s with
    | a :: b :: r =>
        if (a =? 48) && ((b =? 120) || (b =? 88)) then (16, r) else (10, s)
    | _ => (10, s)
    end in
  let '(v, count) := readRadix radix s 0 0 in
  match count with
  | O => None
  | S _ => Some (if negative then (- Z.of_N v)%Z else Z.of_N v)
  end.

(** [pages.add(p)] on a [Set] kept in insertion order. *)
Definition addPage (pages : list Z) (p : Z) : list Z :=
  if existsb (Z.eqb p) pages then pages else pages ++ [p].

(** The body of the loop over the comma-separated parts. *)
Definition selectPart (max : Z) (pages : list Z) (part : jsstring)
  : list Z :=
  let range := List.map (fun s => parseInt (trim s)) (split 45 (trim part)) in
  match range with
  | [start; end_] =>
      match start, end_ with
      | Some start, Some end_ =>
          let s := Z.min start end_ in
          let e := Z.max start end_ in
          foldl addPage pages
            (seqZ (Z.max 1 s) (Z.min max e - Z.max 1 s + 1))
      | _, _ => pages
      end
  | [p] =>
      match p with
      | Some p => if (p >=? 1)%Z && (p <=? max)%Z then addPage pages p else pages
      | None => pages
      end
  | _ => pages
  end.

Fixpoint insertSorted (x : Z) (l : list Z) : list Z :=
  match l with
  | [] => [x]
  | y :: l' => if (x <=? y)%Z then x :: l else y :: insertSorted x l'
  end.

(** [arr.sort((a, b) => a - b)] *)
Definition sortNumbers (l : list Z) : list Z := foldr insertSorted [] l.

(** [parsePageSelection] *)
Definition parsePageSelection (input : jsstring) (max : Z) : list Z :=
  sortNumbers (foldl (selectPart max) [] (split 44 input)).




End PDFViewer.

(* ===================================================================== *)
(** * [App.tsx]: what the export button looks at                         *)
(* ===================================================================== *)

Module AppView.
Import JS Types GeminiService.

(** [Object.values(pageAnalyses)] *)
Definition values (pageAnalyses : gmap Z (list RawLink))
  : list (list RawLink) :=
  (map_to_list pageAnalyses).*2.

(** [Object.values(pageAnalyses).some(links => links.length > 0)], the
    guard of [handleExportPdf]. *)
Definition hasLinks (pageAnalyses : gmap Z (list RawLink)) : bool :=
  existsb (fun links => (0 <? List.length links)%nat) (values pageAnalyses).

(** [totalLinksDetected] *)
Definition totalLinksDetected (pageAnalyses : gmap Z (list RawLink)) : nat :=
  foldl (fun acc links => (acc + List.length links)%nat) 0%nat
    (values pageAnalyses).

(** [name.replace(/\.pdf$/i, '')]: the pattern can only match the last
    four code units. *)
Definition dropPdfSuffix (name : jsstring) : jsstring :=
  match stripPrefixCI (rev (utf16 ".pdf")) (rev name) with
  | Some r => rev r
  | None => name
  end.

(** The name of the downloaded file. *)
Definition downloadName (name : jsstring) : jsstring :=
  dropPdfSuffix name ++ utf16 "_indexed.pdf".

End AppView.

(* ===================================================================== *)
(** * Further notions                                                    *)
(* ===================================================================== *)

Module MoreNotions.
Import JS JSON Types GeminiService PdfLib PdfExportService ExportNotions
  PDFViewer.

(** [v.k] for a value that is not [null]. *)
Definition member (v : JSON.value) (k : string) : any :=
  match getProp v k with
  | inr a => a
  | inl _ => None
  end.

(** A page result the batch loop passes over: not [null], and without a
    truthy page number or without an array of entries. *)
Definition passedOver (pageResult : JSON.value) : Prop :=
  pageResult <> JNull
  /\ (anyTruthy (member pageResult "pageNumber") = false
      \/ anyIsArray (member pageResult "entries") = false).

(** A page result the batch loop stores under key [k]. *)
Definition storedUnder (ToString : JSON.value -> jsstring)
  (pageResult : JSON.value) (k : jsstring) : Prop :=
  exists pn elems,
    member pageResult "pageNumber" = Some pn
    /\ truthy pn = true
    /\ member pageResult "entries" = Some (JArray elems)
    /\ ToString pn = k.

(** The entry [a] is what the detection client builds from element [e]
    at position [index] of a response for page [p]: an identifier from
    the template with some clock reading, and the six fields as read
    off the element. *)
Definition mirrors (p : jsstring) (index : nat) (e : JSON.value)
  (a : RawLink) : Prop :=
  (exists t, id a = linkId p index t)
  /\ label a = member e "label"
  /\ targetPage a = member e "targetPage"
  /\ box a = mkBox (member e "ymin") (member e "xmin")
                (member e "ymax") (member e "xmax").

(** The exception reading the property [k] of [null] raises. *)
Definition nullRead (k : string) : Exn :=
  TypeError
    (String.append "Cannot read properties of null (reading '"
       (String.append k "')")).

(** The name [__proto__]; assigning under it installs a prototype. *)
Definition protoName : jsstring := utf16 "__proto__".

(** [k] is an own property of a record the batch loop filled: a name
    the loop assigned under, other than [__proto__]. *)
Definition ownKey (result : gmap jsstring (list RawLink)) (k : jsstring)
  : Prop :=
  k <> protoName /\ is_Some (result !! k).

(** Two spellings of a word that differ in the case of ASCII letters
    only. *)
Definition sameIgnoringCase (a b : jsstring) : Prop :=
  List.map upperAscii a = List.map upperAscii b.

Definition allWhiteSpace (s : jsstring) : Prop :=
  Forall (fun c => isWhiteSpace c = true) s.

(** A target page within a document of [n] pages. *)
Definition validTarget (n : nat) (link : Link) : bool :=
  (1 <=? targetPage link)%Z && (targetPage link <=? Z.of_nat n)%Z.

(** The entries of a record that lead to an annotation in a document of
    [n] pages, each with the number of the page it is on, in the order
    the exporter meets them. *)
Definition validPairs (n : nat) (analyses : list (Z * list Link))
  : list (Z * Link) :=
  flat_map
    (fun '(pageNum, links) =>
       if (1 <=? pageNum)%Z && (pageNum <=? Z.of_nat n)%Z
       then List.map (pair pageNum) (List.filter (validTarget n) links)
       else [])
    analyses.

(** The references the page at index [j] receives when the entries of
    [placed] are registered one after the other from object number
    [next] on. *)
Fixpoint refsOn (j : nat) (placed : list (Z * Link)) (next : nat)
  : list PDFObject :=
  match placed with
  | [] => []
  | (pageNum, _) :: rest =>
      if (Z.to_nat (pageNum - 1) =? j)%nat
      then PDFRef next :: refsOn j rest (S next)
      else refsOn j rest (S next)
  end.

(** [d'] is [d] after the entries of [placed] were added in turn: each
    has its annotation under the next object number, the object table
    is otherwise as it was, and each page has received the references
    of the entries placed on it. *)
Record placedFrom (d : PDFDocument) (placed : list (Z * Link))
  (d' : PDFDocument) : Prop := mkPlaced
  { pf_length : List.length (pages d') = List.length (pages d);
    pf_largest :
      largestObjectNumber (context d')
      = (largestObjectNumber (context d) + List.length placed)%nat;
    pf_new : forall i pageNum link,
      placed !! i = Some (pageNum, link) ->
      exists page target,
        (1 <= pageNum)%Z
        /\ pages d !! Z.to_nat (pageNum - 1) = Some page
        /\ (1 <= targetPage link)%Z
        /\ pages d !! Z.to_nat (targetPage link - 1) = Some target
        /\ indirectObjects (context d')
             !! (largestObjectNumber (context d) + 1 + i)%nat
           = Some (linkAnnot (linkRect link (width page) (height page))
                     (ref target));
    pf_old : forall r,
      (r <= largestObjectNumber (context d)
       \/ largestObjectNumber (context d) + List.length placed < r)%nat ->
      indirectObjects (context d') !! r = indirectObjects (context d) !! r;
    pf_pages : forall j page,
      pages d !! j = Some page ->
      exists page',
        pages d' !! j = Some page'
        /\ ref page' = ref page
        /\ width page' = width page /\ height page' = height page
        /\ Annots page'
           = match refsOn j placed (S (largestObjectNumber (context d))) with
             | [] => Annots page
             | refs => Some (annotsOf page ++ refs)
             end }.

(** What one comma-separated part of a page selection asks for: a
    single page, or the pages between the two ends of a range. *)
Definition asksFor (part : jsstring) (p : Z) : Prop :=
  match List.map (fun s => parseInt (trim s)) (PdfImageService.split 45 (trim part)) with
  | [Some a; Some b] => (Z.min a b <= p <= Z.max a b)%Z
  | [Some a] => p = a
  | _ => False
  end.

End MoreNotions.

(* ===================================================================== *)
(** * Further sample data                                                *)
(* ===================================================================== *)

Module MoreSamples.
Import JS JSON Types GeminiService Samples.

(** The elements of a response text that is a JSON array. *)
Definition elementsOf (t : jsstring) : list JSON.value :=
  match parseResponseJSON (Some t) with
  | JArray elems => elems
  | _ => []
  end.

(** A response whose second element is [null]. *)
Definition withNull : jsstring :=
  utf16 "[{" ++ quoted "label" ++ utf16 ": " ++ quoted "Apples"
    ++ utf16 ", " ++ quoted "targetPage" ++ utf16 ": 5}, null]".

(** A batch response that names page 4 twice and has one page result
    without entries. *)
Definition repeatedPage : jsstring :=
  utf16 "[{" ++ quoted "pageNumber" ++ utf16 ": 4, " ++ quoted "entries"
    ++ utf16 ": [{" ++ quoted "label" ++ utf16 ": " ++ quoted "Apples"
    ++ utf16 ", " ++ quoted "targetPage" ++ utf16 ": 5}]}, {"
    ++ quoted "pageNumber" ++ utf16 ": 7}, {"
    ++ quoted "pageNumber" ++ utf16 ": 4, " ++ quoted "entries"
    ++ utf16 ": [{" ++ quoted "label" ++ utf16 ": " ++ quoted "Bananas"
    ++ utf16 ", " ++ quoted "targetPage" ++ utf16 ": 8}, {"
    ++ quoted "label" ++ utf16 ": " ++ quoted "Cherries"
    ++ utf16 ", " ++ quoted "targetPage" ++ utf16 ": 9}]}]".

(** The constant model without an API key. *)
Definition keylessModel : Runtime nat :=
  {| apiKey := [];
     generateContent := generateContent (constantModel (Some twoEntries));
     DateNow := DateNow (constantModel (Some twoEntries));
     ToString := ToString (constantModel (Some twoEntries)) |}.

(** A model whose [ToString] prints a string as itself and a natural
    number as its digits, answering with a page result numbered
    [__proto__] and one numbered 7. *)
Definition protoPage : jsstring :=
  utf16 "[{" ++ quoted "pageNumber" ++ utf16 ": " ++ quoted "__proto__"
    ++ utf16 ", " ++ quoted "entries" ++ utf16 ": []}, {"
    ++ quoted "pageNumber" ++ utf16 ": 7, " ++ quoted "entries"
    ++ utf16 ": [{" ++ quoted "label" ++ utf16 ": " ++ quoted "Apples"
    ++ utf16 ", " ++ quoted "targetPage" ++ utf16 ": 5}]}]".

Definition printingModel : Runtime nat :=
  {| apiKey := utf16 "key";
     generateContent := fun _ w => (inr (mkResponse (Some protoPage)), S w);
     DateNow := fun w => (Z.of_nat w, S w);
     ToString := fun v =>
       match v with
       | JNumber false m 0 => NtoString m
       | JString s => s
       | _ => utf16 "NaN"
       end |}.

Definition protoRun : Result (gmap jsstring (list RawLink)) * nat :=
  analyzePagesBatch printingModel [mkBatchPage 7 (utf16 "AAAA")] 0%nat.

Definition repeatedRun : Result (gmap jsstring (list RawLink)) * nat :=
  analyzePagesBatch (constantModel (Some repeatedPage))
    [mkBatchPage 4 (utf16 "AAAA")] 0%nat.

(** The second of the two page results for page 4, and its entries. *)
Definition lastPageFour : JSON.value :=
  nth 2 (elementsOf repeatedPage) JNull.

Definition lastEntries : list JSON.value :=
  match MoreNotions.member lastPageFour "entries" with
  | Some (JArray elems) => elems
  | _ => []
  end.

End MoreSamples.

(* ===================================================================== *)
(** * Facts about strings                                                *)
(* ===================================================================== *)

Module TextFacts.
Import JS.
Import JSON (isDigit).


Lemma trimStart_head c s u :
  trimStart s = c :: u -> isWhiteSpace c = false.
Proof.
  induction s as [|a s IH]; simpl; [discriminate|].
  destruct (isWhiteSpace a) eqn:E; [exact IH|].
  intros [= -> _]. exact E.
Qed.

Lemma trimStart_app_nil s r :
  trimStart s = [] -> trimStart (s ++ r) = trimStart r.
Proof.
  induction s as [|a s IH]; simpl; [reflexivity|].
  destruct (isWhiteSpace a); [exact IH|discriminate].
Qed.

Lemma trimStart_app_cons s r c u :
  trimStart s = c :: u -> trimStart (s ++ r) = (c :: u) ++ r.
Proof.
  induction s as [|a s IH]; simpl; [discriminate|].
  destruct (isWhiteSpace a); [exact IH|].
  intros [= -> ->]. reflexivity.
Qed.

Lemma trimEnd_nonspace c s :
  isWhiteSpace c = false -> trimEnd (s ++ [c]) = s ++ [c].
Proof.
  intros H. unfold trimEnd. rewrite rev_app_distr. simpl.
  rewrite H. simpl. now rewrite rev_involutive.
Qed.

Lemma stripPrefix_app p s : stripPrefix p (p ++ s) = Some s.
Proof.
  induction p as [|a p IH]; simpl; [reflexivity|].
  now rewrite N.eqb_refl.
Qed.

Lemma startsWith_false p s :
  startsWith p s = false -> stripPrefix p s = None.
Proof. unfold startsWith. destruct (stripPrefix p s); [discriminate|reflexivity]. Qed.

(** ** Decimal digits *)

Lemma digitsOfUint_digits d : Forall (fun c => isDigit c = true) (digitsOfUint d).
Proof. induction d; simpl; constructor; auto. Qed.

Lemma digitsOfUint_inj d d' : digitsOfUint d = digitsOfUint d' -> d = d'.
Proof.
  revert d'. induction d; intros [] E; simpl in E; try discriminate;
    try reflexivity; injection E as E; f_equal; auto.
Qed.

Lemma NtoString_inj n n' : NtoString n = NtoString n' -> n = n'.
Proof.
  intros E. apply digitsOfUint_inj in E.
  rewrite <- (DecimalN.Unsigned.of_to n), <- (DecimalN.Unsigned.of_to n').
  now rewrite E.
Qed.

Lemma NtoString_digits n : Forall (fun c => isDigit c = true) (NtoString n).
Proof. apply digitsOfUint_digits. Qed.

Lemma ZtoString_chars z :
  Forall (fun c => c = 45 \/ isDigit c = true) (ZtoString z).
Proof.
  assert (H : forall n, Forall (fun c => c = 45 \/ isDigit c = true) (NtoString n)).
  { intros n. eapply Forall_impl; [apply NtoString_digits|].
    intros c Hc. now right. }
  destruct z; unfold ZtoString; try apply H.
  constructor; [now left|apply H].
Qed.

(** Two texts that agree, each a run of digits followed by a hyphen,
    have the same run of digits. *)
Lemma digits_then_hyphen d d' r r' :
  Forall (fun c => isDigit c = true) d ->
  Forall (fun c => isDigit c = true) d' ->
  d ++ 45 :: r = d' ++ 45 :: r' -> d = d' /\ r = r'.
Proof.
  intros Hd. revert d'. induction Hd as [|c d Hc Hd IH]; intros d' Hd' E.
  - destruct Hd' as [|c' d' Hc' Hd']; simpl in E.
    + now injection E.
    + injection E as <- _. discriminate.
  - destruct Hd' as [|c' d' Hc' Hd']; simpl in E.
    + injection E as -> _. discriminate.
    + injection E as -> E. destruct (IH _ Hd' E) as [-> ->]. now split.
Qed.

End TextFacts.

(* ===================================================================== *)
(** * The parser does not depend on its fuel                             *)
(* ===================================================================== *)

Module JsonFacts.
Import JS JSON JsonNotions.

Lemma skipSpace_length s : (List.length (skipSpace s) <= List.length s)%nat.
Proof.
  induction s as [|c s IH]; simpl; [lia|].
  destruct (isJsonSpace c); simpl; lia.
Qed.

Lemma stripPrefix_length p : forall s r,
  stripPrefix p s = Some r ->
  List.length s = (List.length p + List.length r)%nat.
Proof.
  induction p as [|a p IH]; intros [|b s] r; simpl; try discriminate.
  - now intros [= <-].
  - now intros [= <-].
  - destruct (a =? b); [|discriminate]. intros H. apply IH in H. lia.
Qed.

Lemma readDigits_length s : forall acc count a k rest,
  readDigits s acc count = (a, k, rest) ->
  (List.length rest <= List.length s)%nat.
Proof.
  induction s as [|c s IH]; intros acc count a k rest; simpl.
  - intros [= _ _ <-]. simpl. lia.
  - destruct (isDigit c).
    + intros H. apply IH in H. lia.
    + intros [= _ _ <-]. simpl. lia.
Qed.

Lemma parseChars_consumes : consumes parseChars.
Proof.
  intros s. induction s as [s IH] using (induction_ltof1 _ (@List.length N)).
  unfold ltof in IH. intros cs rest.
  assert (Hcons : forall r c,
             (List.length r < List.length s)%nat ->
             match parseChars r with
             | Some (cs0, rest0) => Some (c :: cs0, rest0)
             | None => None
             end = Some (cs, rest) ->
             (List.length rest < List.length s)%nat).
  { intros r c Hr H. destruct (parseChars r) as [[cs0 rest0]|] eqn:E;
      [|discriminate].
    injection H as _ <-. specialize (IH r Hr _ _ E). lia. }
  destruct s as [|c r]; simpl; [discriminate|].
  destruct (c =? 34). { intros [= _ <-]. simpl. lia. }
  destruct (c =? 92).
  { destruct r as [|e r1]; [discriminate|].
    repeat match goal with
           | |- context [if e =? ?k then _ else _] =>
               destruct (e =? k); [apply Hcons; simpl; lia|]
           end.
    destruct (e =? 117); [|discriminate].
    destruct r1 as [|h1 [|h2 [|h3 [|h4 r2]]]]; try discriminate.
    destruct (hexVal h1), (hexVal h2), (hexVal h3), (hexVal h4);
      try discriminate.
    apply Hcons. simpl. lia. }
  destruct (c <? 32); [discriminate|].
  apply Hcons. simpl. lia.
Qed.

Lemma parseNumber_consumes : consumes parseNumber.
Proof.
  intros s v rest. unfold parseNumber.
  assert (Hsign : forall neg s1,
             match s with
             | c :: r => if c =? 45 then (true, r) else (false, s)
             | [] => (false, s)
             end = (neg, s1) ->
             (List.length s1 <= List.length s)%nat).
  { intros neg s1. destruct s as [|c r]; [intros [= _ <-]; lia|].
    destruct (c =? 45); intros [= _ <-]; simpl; lia. }
  destruct (match s with
            | c :: r => if c =? 45 then (true, r) else (false, s)
            | [] => (false, s)
            end) as [neg s1] eqn:Es.
  specialize (Hsign _ _ eq_refl).
  destruct s1 as [|c r]; [discriminate|].
  destruct (isDigit c) eqn:D; simpl; [|discriminate].
  assert (Hint : forall a k s2,
             (if c =? 48 then (0, 1%Z, r) else readDigits (c :: r) 0 0%Z)
             = (a, k, s2) ->
             (List.length s2 < List.length (c :: r))%nat).
  { intros a k s2. destruct (c =? 48).
    - intros [= _ _ <-]. simpl. lia.
    - simpl. rewrite D. intros H. apply readDigits_length in H. simpl. lia. }
  destruct (if c =? 48 then (0, 1%Z, r) else readDigits (c :: r) 0 0%Z)
    as [[int k0] s2] eqn:Ei.
  specialize (Hint _ _ _ eq_refl). simpl in Hint, Hsign.
  repeat match goal with
         | |- context [readDigits ?x ?a ?k] =>
             let E := fresh "E" in
             destruct (readDigits x a k) as [[? ?] ?] eqn:E;
             apply readDigits_length in E; simpl in E
         | |- context [match ?l with [] => _ | _ :: _ => _ end] =>
             is_var l; destruct l; simpl in *
         | |- context [if ?b then _ else _] => destruct b
         | |- Some _ = Some _ -> _ => intros [= _ <-]; simpl; lia
         | |- None = Some _ -> _ => discriminate
         | |- context [let '(_, _) := ?p in _] => destruct p eqn:?
         end.
Qed.

(** ** Each level consumes input *)

Lemma valueStep_consumes elements members :
  consumes elements -> consumes members ->
  consumes (valueStep elements members).
Proof.
  intros He Hm s v rest. unfold valueStep.
  pose proof (skipSpace_length s) as Hs.
  destruct (skipSpace s) as [|c r]; [discriminate|].
  destruct (c =? 110).
  { intros H. destruct (stripPrefix (utf16 "null") (c :: r)) eqn:E; [|discriminate].
    injection H as _ <-. apply stripPrefix_length in E. simpl in *. lia. }
  destruct (c =? 116).
  { intros H. destruct (stripPrefix (utf16 "true") (c :: r)) eqn:E; [|discriminate].
    injection H as _ <-. apply stripPrefix_length in E. simpl in *. lia. }
  destruct (c =? 102).
  { intros H. destruct (stripPrefix (utf16 "false") (c :: r)) eqn:E; [|discriminate].
    injection H as _ <-. apply stripPrefix_length in E. simpl in *. lia. }
  destruct (c =? 34).
  { destruct (parseChars r) as [[cs rest0]|] eqn:E; [|discriminate].
    intros [= _ <-]. apply parseChars_consumes in E. simpl in *. lia. }
  destruct (c =? 91).
  { pose proof (skipSpace_length r) as Hr.
    destruct (skipSpace r) as [|c' r']; [discriminate|].
    destruct (c' =? 93). { intros [= _ <-]. simpl in *. lia. }
    destruct (elements r) as [[vs rest0]|] eqn:E; [|discriminate].
    intros [= _ <-]. apply He in E. simpl in *. lia. }
  destruct (c =? 123).
  { pose proof (skipSpace_length r) as Hr.
    destruct (skipSpace r) as [|c' r']; [discriminate|].
    destruct (c' =? 125). { intros [= _ <-]. simpl in *. lia. }
    destruct (members r) as [[ms rest0]|] eqn:E; [|discriminate].
    intros [= _ <-]. apply Hm in E. simpl in *. lia. }
  intros H. apply parseNumber_consumes in H. lia.
Qed.

Lemma elementsStep_consumes value elements :
  consumes value -> consumes elements ->
  consumes (elementsStep value elements).
Proof.
  intros Hv He s vs rest. unfold elementsStep.
  destruct (value s) as [[v rest0]|] eqn:E; [|discriminate].
  apply Hv in E. pose proof (skipSpace_length rest0) as Hs.
  destruct (skipSpace rest0) as [|c r]; [discriminate|].
  destruct (c =? 44).
  { destruct (elements r) as [[vs0 rest1]|] eqn:E1; [|discriminate].
    intros [= _ <-]. apply He in E1. simpl in *. lia. }
  destruct (c =? 93); [|discriminate].
  intros [= _ <-]. simpl in *. lia.
Qed.

Lemma membersStep_consumes value members :
  consumes value -> consumes members ->
  consumes (membersStep value members).
Proof.
  intros Hv Hm s ms rest. unfold membersStep.
  pose proof (skipSpace_length s) as Hs.
  destruct (skipSpace s) as [|q r0]; [discriminate|].
  destruct (negb (q =? 34)); [discriminate|].
  destruct (parseChars r0) as [[key r1]|] eqn:Ek; [|discriminate].
  apply parseChars_consumes in Ek.
  pose proof (skipSpace_length r1) as Hr1.
  destruct (skipSpace r1) as [|colon r2]; [discriminate|].
  destruct (negb (colon =? 58)); [discriminate|].
  destruct (value r2) as [[v rest0]|] eqn:E; [|discriminate].
  apply Hv in E. pose proof (skipSpace_length rest0) as Hr.
  destruct (skipSpace rest0) as [|c r]; [discriminate|].
  destruct (c =? 44).
  { destruct (members r) as [[ms0 rest1]|] eqn:E1; [|discriminate].
    intros [= _ <-]. apply Hm in E1. simpl in *. lia. }
  destruct (c =? 125); [|discriminate].
  intros [= _ <-]. simpl in *. lia.
Qed.

Lemma parsers_consume fuel :
  consumes (parseValue fuel) /\ consumes (parseElements fuel)
  /\ consumes (parseMembers fuel).
Proof.
  induction fuel as [|fuel (IHv & IHe & IHm)].
  - repeat split; intros s a rest; discriminate.
  - repeat split; simpl.
    + now apply valueStep_consumes.
    + now apply elementsStep_consumes.
    + now apply membersStep_consumes.
Qed.

(** ** Each level looks at its sub-parsers on smaller inputs only *)

Lemma valueStep_agree elements elements' members members' s :
  (forall r, (List.length r < List.length s)%nat -> elements' r = elements r) ->
  (forall r, (List.length r < List.length s)%nat -> members' r = members r) ->
  valueStep elements' members' s = valueStep elements members s.
Proof.
  intros He Hm. unfold valueStep.
  pose proof (skipSpace_length s) as Hs.
  destruct (skipSpace s) as [|c r]; [reflexivity|].
  rewrite He, Hm by (simpl in Hs; lia). reflexivity.
Qed.

Lemma elementsStep_agree value value' elements elements' s :
  consumes value ->
  (forall r, (List.length r <= List.length s)%nat -> value' r = value r) ->
  (forall r, (List.length r < List.length s)%nat -> elements' r = elements r) ->
  elementsStep value' elements' s = elementsStep value elements s.
Proof.
  intros Hc Hv He. unfold elementsStep. rewrite Hv by lia.
  destruct (value s) as [[v rest]|] eqn:E; [|reflexivity].
  apply Hc in E. pose proof (skipSpace_length rest) as Hs.
  destruct (skipSpace rest) as [|c r]; [reflexivity|].
  rewrite He by (simpl in Hs; lia). reflexivity.
Qed.

Lemma membersStep_agree value value' members members' s :
  consumes value ->
  (forall r, (List.length r < List.length s)%nat -> value' r = value r) ->
  (forall r, (List.length r < List.length s)%nat -> members' r = members r) ->
  membersStep value' members' s = membersStep value members s.
Proof.
  intros Hc Hv Hm. unfold membersStep.
  pose proof (skipSpace_length s) as Hs.
  destruct (skipSpace s) as [|q r0]; [reflexivity|].
  destruct (negb (q =? 34)); [reflexivity|].
  destruct (parseChars r0) as [[key r1]|] eqn:Ek; [|reflexivity].
  apply parseChars_consumes in Ek.
  pose proof (skipSpace_length r1) as Hr1.
  destruct (skipSpace r1) as [|colon r2]; [reflexivity|].
  destruct (negb (colon =? 58)); [reflexivity|].
  rewrite Hv by (simpl in *; lia).
  destruct (value r2) as [[v rest]|] eqn:E; [|reflexivity].
  apply Hc in E. pose proof (skipSpace_length rest) as Hr.
  destruct (skipSpace rest) as [|c r]; [reflexivity|].
  rewrite Hm by (simpl in *; lia). reflexivity.
Qed.

(** ** More fuel than the bound changes nothing *)

Lemma parsers_fuel n :
  (forall s m, (2 * List.length s + 1 <= n)%nat -> (n <= m)%nat ->
               parseValue m s = parseValue n s)
  /\ (forall s m, (2 * List.length s + 2 <= n)%nat -> (n <= m)%nat ->
                  parseElements m s = parseElements n s)
  /\ (forall s m, (2 * List.length s + 2 <= n)%nat -> (n <= m)%nat ->
                  parseMembers m s = parseMembers n s).
Proof.
  induction n as [|n (IHv & IHe & IHm)].
  - repeat split; intros s m Hn; lia.
  - destruct (parsers_consume n) as (Cv & _ & _).
    repeat split; intros s [|m] Hn Hm; try lia; simpl.
    + apply valueStep_agree; intros r Hr; [apply IHe|apply IHm]; lia.
    + apply elementsStep_agree; [exact Cv| |]; intros r Hr;
        [apply IHv|apply IHe]; lia.
    + apply membersStep_agree; [exact Cv| |]; intros r Hr;
        [apply IHv|apply IHm]; lia.
Qed.

(** The fuel [JSON.parse] starts with is enough: any larger amount
    gives the same result. *)
Lemma parseValue_fuel text n :
  (S (2 * List.length text) <= n)%nat ->
  parseValue n text = parseValue (S (2 * List.length text)) text.
Proof.
  intros Hn. apply (proj1 (parsers_fuel _)); lia.
Qed.

End JsonFacts.

(* ===================================================================== *)
(** * The detection client                                               *)
(* ===================================================================== *)

Module GeminiFacts.
Import JS JSON Types GeminiService Fences Notions TextFacts.

(** ** [JSON.parse] and fence stripping on examples *)

Example parse_array :
  JSON.parse (utf16 " [1, -2.50e3, true, null] ")
  = Some (JArray [JNumber false 1 0; JNumber true 250 1; JBool true; JNull]).
Proof. reflexivity. Qed.

Example parse_entries :
  JSON.parse Samples.oneObject
  = Some (JObject [(utf16 "label", JString (utf16 "Apples"));
                   (utf16 "targetPage", JNumber false 5 0)]).
Proof. reflexivity. Qed.

Example parse_rejects :
  List.map JSON.parse
    [utf16 ""; utf16 "[1,]"; utf16 "01"; utf16 "1."; utf16 "nul";
     utf16 "[1] x"; utf16 "```json [1] ```"; utf16 "{1: 2}"]
  = [None; None; None; None; None; None; None; None].
Proof. reflexivity. Qed.

Example parse_nested :
  JSON.parse (utf16 "[[[[[[[[[[[[[[[[[[[[7]]]]]]]]]]]]]]]]]]]]") <> None
  /\ JSON.parse (utf16 "[1,1,1,1,1,1,1,1,1,1,1,1,1,1,1,1,1,1,1,1,[1,[1,[1]]]]")
     <> None.
Proof. split; vm_compute; discriminate. Qed.

Example cleanText_examples :
  List.map cleanText
    [utf16 "  ```json   [1]   ```  "; utf16 "```JSON[1]```";
     utf16 "``` [1]"; utf16 "[1] ```"; utf16 " [1] "]
  = [utf16 "[1]"; utf16 "[1]"; utf16 "[1]"; utf16 "[1]"; utf16 "[1]"].
Proof. reflexivity. Qed.

(** ** Fence stripping *)

Lemma replaceClosingFence_newline_fence c u :
  replaceClosingFence ((c :: u) ++ 10 :: fence) = trimEnd (c :: u).
Proof.
  unfold replaceClosingFence.
  change (10 :: fence) with ([10] ++ fence).
  rewrite !rev_app_distr, <- app_assoc, stripPrefix_app.
  reflexivity.
Qed.

(** What is left of a fenced payload once the opening fence, an
    optional tag and the white space after it are gone. *)
Lemma strip_after_opening t :
  replaceClosingFence (trimStart (t ++ 10 :: fence)) = trim t.
Proof.
  unfold trim. destruct (trimStart t) as [|c u] eqn:E.
  - rewrite (trimStart_app_nil _ _ E). reflexivity.
  - rewrite (trimStart_app_cons _ _ _ _ E).
    apply replaceClosingFence_newline_fence.
Qed.

Lemma fenceJson_shape t :
  fenceJson t = (utf16 "```json" ++ 10 :: t ++ [10; 96; 96]) ++ [96].
Proof.
  unfold fenceJson. rewrite <- !app_assoc. simpl. do 8 f_equal.
  now rewrite <- app_assoc.
Qed.

Lemma fencePlain_shape t :
  fencePlain t = (utf16 "```" ++ 10 :: t ++ [10; 96; 96]) ++ [96].
Proof.
  unfold fencePlain. rewrite <- !app_assoc. simpl. do 4 f_equal.
  now rewrite <- app_assoc.
Qed.

Lemma trim_fenceJson t : trim (fenceJson t) = fenceJson t.
Proof.
  unfold trim. change (trimStart (fenceJson t)) with (fenceJson t).
  rewrite fenceJson_shape. now apply trimEnd_nonspace.
Qed.

Lemma trim_fencePlain t : trim (fencePlain t) = fencePlain t.
Proof.
  unfold trim. change (trimStart (fencePlain t)) with (fencePlain t).
  rewrite fencePlain_shape. now apply trimEnd_nonspace.
Qed.

(** The text handed to [JSON.parse] for a fenced payload is the trimmed
    payload. *)
Lemma cleanText_fenceJson t : cleanText (fenceJson t) = trim t.
Proof.
  unfold cleanText. rewrite trim_fenceJson.
  apply strip_after_opening.
Qed.

Lemma cleanText_fencePlain t : cleanText (fencePlain t) = trim t.
Proof.
  unfold cleanText. rewrite trim_fencePlain.
  apply strip_after_opening.
Qed.

Lemma cleanText_unfenced t :
  startsWith fence (trim t) = false ->
  endsWith fence (trim t) = false ->
  cleanText t = trim t.
Proof.
  intros Hs He. unfold cleanText, replaceOpeningFence.
  rewrite (startsWith_false _ _ Hs).
  unfold replaceClosingFence. now rewrite (startsWith_false _ _ He).
Qed.

Lemma parseResponseJSON_cons c t :
  parseResponseJSON (Some (c :: t)) =
  match JSON.parse (cleanText (c :: t)) with Some v => v | None => JNull end.
Proof. reflexivity. Qed.

Lemma parseResponseJSON_text t :
  parseResponseJSON (Some t) =
  match JSON.parse (cleanText t) with Some v => v | None => JNull end.
Proof. destruct t; [reflexivity|apply parseResponseJSON_cons]. Qed.

(** C6, as stated, fails: a payload that is itself a fenced block parses
    to its content, and to [null] once it is fenced again. *)
Lemma double_fence_differs :
  parseResponseJSON (Some (fenceJson Samples.fencedPayload))
  <> parseResponseJSON (Some Samples.fencedPayload).
Proof. vm_compute. discriminate. Qed.

(** C6 (amended): for every payload [t] whose trimmed text neither
    starts nor ends with a code fence, parsing [t] wrapped in a tagged
    or an untagged fence yields the same result as parsing [t]. *)
Theorem fenced_payload_parses_alike (t : jsstring) :
  startsWith fence (trim t) = false ->
  endsWith fence (trim t) = false ->
  parseResponseJSON (Some (fenceJson t)) = parseResponseJSON (Some t)
  /\ parseResponseJSON (Some (fencePlain t)) = parseResponseJSON (Some t).
Proof.
  intros Hs He.
  rewrite !parseResponseJSON_text, cleanText_fenceJson, cleanText_fencePlain,
    (cleanText_unfenced t Hs He).
  split; reflexivity.
Qed.

Lemma fenced_payload_parses_alike_witness :
  parseResponseJSON (Some (fenceJson (utf16 " [1, 2] ")))
    = parseResponseJSON (Some (utf16 " [1, 2] "))
  /\ parseResponseJSON (Some (fencePlain (utf16 " [1, 2] ")))
    = parseResponseJSON (Some (utf16 " [1, 2] ")).
Proof.
  apply (fenced_payload_parses_alike (utf16 " [1, 2] ")); reflexivity.
Defined.

(** ** Identifiers *)

Lemma linkId_tail p index now :
  linkId p index now = utf16 "page-" ++ p ++ idTail index now.
Proof. reflexivity. Qed.

(** No letter [l] occurs in an identifier tail after its second code
    unit. *)
Lemma idTail_no_l index now :
  exists r, idTail index now = 45 :: 108 :: r /\ ~ In 108 r.
Proof.
  eexists. split; [reflexivity|].
  intros H. simpl in H.
  destruct H as [H|[H|[H|[H|H]]]]; try discriminate.
  apply in_app_or in H as [H|H].
  - pose proof (NtoString_digits (N.of_nat index)) as D.
    rewrite Forall_forall in D. apply list_elem_of_In, D in H. discriminate.
  - simpl in H. destruct H as [H|H]; [discriminate|].
    pose proof (ZtoString_chars now) as D.
    rewrite Forall_forall in D. apply list_elem_of_In, D in H.
    destruct H; discriminate.
Qed.

(** An identifier tail does not occur inside another one. *)
Lemma idTail_not_inside x i t j u :
  x ++ idTail i t = idTail j u -> x = [].
Proof.
  intros E.
  destruct (idTail_no_l i t) as (r & Er & _).
  destruct (idTail_no_l j u) as (r' & Er' & Hr').
  rewrite Er, Er' in E.
  destruct x as [|c [|c' x]]; [reflexivity|discriminate|].
  exfalso. apply Hr'. simpl in E. injection E as _ _ E.
  rewrite <- E. apply in_or_app. right. right. now left.
Qed.

Lemma linkId_inj p i t q j u :
  linkId p i t = linkId q j u -> p = q /\ i = j.
Proof.
  rewrite !linkId_tail. intros E. apply app_inv_head in E.
  assert (p = q /\ idTail i t = idTail j u) as [-> E'].
  { apply app_eq_app in E as (x & [[-> E]|[-> E]]).
    - pose proof E as E0. symmetry in E0.
      apply idTail_not_inside in E0 as ->.
      rewrite app_nil_r. now split.
    - pose proof E as E0. symmetry in E0.
      apply idTail_not_inside in E0 as ->.
      rewrite app_nil_r. now split. }
  split; [reflexivity|].
  unfold idTail in E'. apply app_inv_head in E'.
  apply digits_then_hyphen in E' as [E' _]; try apply NtoString_digits.
  apply NtoString_inj in E'. lia.
Qed.

(** ** Single-page detection *)

Section SinglePage.
Context {World : Type} (rt : Runtime World).

(** With a key and an answer from the model, the call comes down to
    what it does with the parsed text. *)
Lemma analyzePageForIndex_answered imageBase64 pageNumber w response w' :
  apiKey rt <> [] ->
  generateContent rt (singleRequest imageBase64) w = (inr response, w') ->
  analyzePageForIndex rt imageBase64 pageNumber w =
  match parseResponseJSON (text response) with
  | JArray elems =>
      tryCatch (mapIndexed (mkEntry rt (ZtoString pageNumber)) elems 0)
        (fun error => raise error) w'
  | _ => (inr [], w')
  end.
Proof.
  intros Hkey Hgen. unfold analyzePageForIndex.
  destruct (apiKey rt) as [|k ks]; [contradiction|].
  unfold tryCatch at 1, bind at 1. rewrite Hgen.
  destruct (parseResponseJSON (text response));
    cbn [isArray negb]; rewrite ?orb_true_r; reflexivity.
Qed.

(** C7: when the response text is undefined, empty, or does not parse
    after fence stripping, [analyzePageForIndex] returns the empty list
    and does not throw. *)
Theorem unparsable_response_gives_no_entries
  imageBase64 pageNumber w response w' :
  apiKey rt <> [] ->
  generateContent rt (singleRequest imageBase64) w = (inr response, w') ->
  text response = None
  \/ text response = Some []
  \/ (exists t, text response = Some t /\ JSON.parse (cleanText t) = None) ->
  analyzePageForIndex rt imageBase64 pageNumber w = (inr [], w').
Proof.
  intros Hkey Hgen Htext.
  rewrite (analyzePageForIndex_answered _ _ _ _ _ Hkey Hgen).
  destruct Htext as [-> | [-> | (t & -> & Hparse)]]; try reflexivity.
  rewrite parseResponseJSON_text, Hparse. reflexivity.
Qed.

(** C10: when the response text parses to a JSON value that is not an
    array, [analyzePageForIndex] returns the empty list. *)
Theorem non_array_response_gives_no_entries
  imageBase64 pageNumber w response w' t v :
  apiKey rt <> [] ->
  generateContent rt (singleRequest imageBase64) w = (inr response, w') ->
  text response = Some t ->
  JSON.parse (cleanText t) = Some v ->
  isArray v = false ->
  analyzePageForIndex rt imageBase64 pageNumber w = (inr [], w').
Proof.
  intros Hkey Hgen Htext Hparse Harr.
  rewrite (analyzePageForIndex_answered _ _ _ _ _ Hkey Hgen), Htext.
  rewrite parseResponseJSON_text, Hparse.
  destruct v; try reflexivity. discriminate.
Qed.

Lemma tryCatch_rethrow {A} (m : IO World A) w :
  tryCatch m (fun error => raise error) w = m w.
Proof. unfold tryCatch, raise. now destruct (m w) as [[e|a] w1]. Qed.

Lemma mkEntry_id p link index w entry w' :
  mkEntry rt p link index w = (inr entry, w') ->
  exists t, id entry = linkId p index t.
Proof.
  unfold mkEntry, bind, now, lift, ret.
  destruct (DateNow rt w) as [t w1].
  repeat (match goal with
          | |- context [getProp link ?k] => destruct (getProp link k)
          end; [discriminate|]).
  intros [= <- _]. now exists t.
Qed.

Lemma mapIndexed_ids p elems : forall n w links w',
  mapIndexed (mkEntry rt p) elems n w = (inr links, w') ->
  forall i a, links !! i = Some a -> exists t, id a = linkId p (n + i) t.
Proof.
  induction elems as [|x elems IH]; intros n w links w'; simpl.
  - intros [= <- _] i a Hi. discriminate.
  - unfold bind at 1.
    destruct (mkEntry rt p x n w) as [[e|y] w1] eqn:E1; [discriminate|].
    unfold bind at 1.
    destruct (mapIndexed (mkEntry rt p) elems (S n) w1) as [[e|ys] w2] eqn:E2;
      [discriminate|].
    intros [= <- _] [|i] a Hi; simpl in Hi.
    + injection Hi as <-. rewrite Nat.add_0_r. eapply mkEntry_id, E1.
    + destruct (IH _ _ _ _ E2 _ _ Hi) as [t Ht]. exists t.
      now rewrite Nat.add_succ_r.
Qed.

Lemma batchStep_ids result pageResult w result' w' :
  idsFollowKeys result ->
  batchStep rt result pageResult w = (inr result', w') ->
  idsFollowKeys result'.
Proof.
  intros Inv. unfold batchStep, bind at 1, lift.
  destruct (getProp pageResult "pageNumber") as [e|pageNum]; [discriminate|].
  destruct (negb (anyTruthy pageNum)); [now intros [= <- _]|].
  unfold bind at 1.
  destruct (getProp pageResult "entries") as [e|entries]; [discriminate|].
  destruct (anyTruthy entries && anyIsArray entries); [|now intros [= <- _]].
  destruct pageNum as [pn|]; [|now intros [= <- _]].
  destruct entries as [[| | | |elems|]|]; try now intros [= <- _].
  unfold bind.
  destruct (mapIndexed (mkEntry rt (ToString rt pn)) elems 0 w)
    as [[e|links] w1] eqn:E; [discriminate|].
  intros [= <- _] k l i a Hk Hi.
  destruct (decide (ToString rt pn = k)) as [<-|Hne].
  - rewrite lookup_insert_eq in Hk. injection Hk as <-.
    apply (mapIndexed_ids _ _ _ _ _ _ E _ _ Hi).
  - rewrite lookup_insert_ne in Hk by exact Hne. eapply Inv; eauto.
Qed.

Lemma forEach_ids rawData : forall result w result' w',
  idsFollowKeys result ->
  forEach (batchStep rt) rawData result w = (inr result', w') ->
  idsFollowKeys result'.
Proof.
  induction rawData as [|x rawData IH]; intros result w result' w' Inv; simpl.
  - now intros [= <- _].
  - unfold bind.
    destruct (batchStep rt result x w) as [[e|r1] w1] eqn:E; [discriminate|].
    apply IH. eapply batchStep_ids; eauto.
Qed.

(** C9: within one detection run every produced entry has an
    identifier of its own: across the list [analyzePageForIndex]
    returns, and across all entries of all pages of the mapping
    [analyzePagesBatch] returns. *)
Theorem identifiers_distinct_within_run :
  (forall imageBase64 pageNumber w links w',
      analyzePageForIndex rt imageBase64 pageNumber w = (inr links, w') ->
      NoDup (List.map id links))
  /\ (forall pages w result w',
      analyzePagesBatch rt pages w = (inr result, w') ->
      forall k1 k2 l1 l2 i j a b,
        result !! k1 = Some l1 -> result !! k2 = Some l2 ->
        l1 !! i = Some a -> l2 !! j = Some b ->
        id a = id b -> k1 = k2 /\ i = j).
Proof.
  split.
  - intros imageBase64 pageNumber w links w'.
    unfold analyzePageForIndex.
    destruct (apiKey rt) as [|k ks]; [discriminate|].
    rewrite tryCatch_rethrow. unfold bind at 1.
    destruct (generateContent rt (singleRequest imageBase64) w)
      as [[e|response] w1]; [discriminate|].
    destruct (negb (truthy (parseResponseJSON (text response)))
              || negb (isArray (parseResponseJSON (text response)))).
    { intros [= <- _]. constructor. }
    destruct (parseResponseJSON (text response)); try discriminate.
    intros Hrun. apply NoDup_alt. intros i j x Hi Hj.
    rewrite list_lookup_fmap in Hi, Hj.
    destruct (links !! i) as [a|] eqn:Ea; [|discriminate].
    destruct (links !! j) as [b|] eqn:Eb; [|discriminate].
    injection Hi as Hi. injection Hj as Hj.
    destruct (mapIndexed_ids _ _ _ _ _ _ Hrun _ _ Ea) as [t Ht].
    destruct (mapIndexed_ids _ _ _ _ _ _ Hrun _ _ Eb) as [u Hu].
    rewrite Ht in Hi. rewrite Hu, <- Hi in Hj.
    apply linkId_inj in Hj as [_ Hj]. simpl in Hj. lia.
  - intros pages w result w'. unfold analyzePagesBatch.
    destruct (apiKey rt) as [|k ks]; [discriminate|].
    rewrite tryCatch_rethrow. unfold bind at 1.
    destruct (generateContent rt (batchRequest pages) w)
      as [[e|response] w1]; [discriminate|].
    intros Hrun.
    assert (Inv : idsFollowKeys result).
    { unfold ret in Hrun.
      destruct (parseResponseJSON (text response));
        try (injection Hrun as <- _; intros k0 l i a Hk; discriminate).
      eapply forEach_ids; [|exact Hrun].
      intros k0 l i a Hk. discriminate. }
    intros k1 k2 l1 l2 i j a b H1 H2 Ha Hb Hid.
    destruct (Inv _ _ _ _ H1 Ha) as [t Ht].
    destruct (Inv _ _ _ _ H2 Hb) as [u Hu].
    rewrite Ht, Hu in Hid. now apply linkId_inj in Hid.
Qed.

End SinglePage.

Lemma identifiers_distinct_within_run_witness :
  NoDup (List.map id (Samples.entriesOf Samples.singleRun))
  /\ (forall k1 k2 l1 l2 i j a b,
        Samples.mappingOf Samples.batchRun !! k1 = Some l1 ->
        Samples.mappingOf Samples.batchRun !! k2 = Some l2 ->
        l1 !! i = Some a -> l2 !! j = Some b ->
        id a = id b -> k1 = k2 /\ i = j).
Proof.
  destruct (identifiers_distinct_within_run
              (Samples.constantModel (Some Samples.twoEntries))) as [H1 _].
  destruct (identifiers_distinct_within_run
              (Samples.constantModel (Some Samples.twoPages))) as [_ H2].
  split.
  - apply (H1 (utf16 "AAAA") 3%Z 0%nat
              (Samples.entriesOf Samples.singleRun) 3%nat).
    reflexivity.
  - apply (H2 [mkBatchPage 1 (utf16 "AAAA"); mkBatchPage 12 (utf16 "BBBB")]
              0%nat (Samples.mappingOf Samples.batchRun) 3%nat).
    vm_compute. reflexivity.
Defined.

Lemma unparsable_response_gives_no_entries_witness :
  analyzePageForIndex (Samples.constantModel (Some (utf16 "```json [1, ```")))
    (utf16 "AAAA") 3 0%nat = (inr [], 1%nat).
Proof.
  apply (unparsable_response_gives_no_entries
           (Samples.constantModel (Some (utf16 "```json [1, ```")))
           (utf16 "AAAA") 3 0%nat
           (mkResponse (Some (utf16 "```json [1, ```"))) 1%nat).
  - discriminate.
  - reflexivity.
  - right. right. exists (utf16 "```json [1, ```"). split; reflexivity.
Defined.

Lemma non_array_response_gives_no_entries_witness :
  analyzePageForIndex (Samples.constantModel (Some Samples.oneObject))
    (utf16 "AAAA") 3 0%nat = (inr [], 1%nat).
Proof.
  apply (non_array_response_gives_no_entries
           (Samples.constantModel (Some Samples.oneObject))
           (utf16 "AAAA") 3 0%nat
           (mkResponse (Some Samples.oneObject)) 1%nat
           Samples.oneObject
           (JObject [(utf16 "label", JString (utf16 "Apples"));
                     (utf16 "targetPage", JNumber false 5 0)])).
  - discriminate.
  - reflexivity.
  - reflexivity.
  - reflexivity.
  - reflexivity.
Defined.

End GeminiFacts.

(* ===================================================================== *)
(** * The exporter                                                       *)
(* ===================================================================== *)

Module FloatFacts.
Local Open Scope float_scope.

Lemma positive_finite (x : float) :
  (0 <? x) = true -> (x <? infinity) = true ->
  exists m e, Prim2SF x = S754_finite false m e.
Proof.
  rewrite !ltb_spec. destruct (Prim2SF x) as [s|s| |s m e]; cbn.
  - discriminate.
  - destruct s; discriminate.
  - discriminate.
  - destruct s; [discriminate|]. eauto.
Qed.

(** Multiplying by one is exact: the product of the significands is the
    significand shifted by 52 bits, and rounding shifts it back. *)
Lemma mul_1_l (x : float) : 1 * x = x.
Proof.
  apply Prim2SF_inj. rewrite mul_spec.
  pose proof (Prim2SF_valid x) as V.
  destruct (Prim2SF x) as [s|s| |s m e]; try reflexivity.
  change (Prim2SF 1) with (S754_finite false 4503599627370496 (-52)).
  cbn in V. unfold bounded, canonical_mantissa in V.
  apply andb_true_iff in V as [V1 V2].
  apply Z.eqb_eq in V1. apply Z.leb_le in V2.
  unfold SF64mul, SFmul. cbn [xorb].
  unfold binary_round_aux.
  assert (D : digits2_pos (Pos.mul 4503599627370496 m)
              = (digits2_pos m + 52)%positive).
  { cbv beta iota delta [Pos.mul]. cbn [digits2_pos]. lia. }
  unfold shr_fexp at 1.
  unfold Zdigits2. rewrite D.
  replace (fexp prec emax (Z.pos (digits2_pos m + 52) + (-52 + e))
           - (-52 + e))%Z with 52%Z.
  2:{ replace (Z.pos (digits2_pos m + 52) + (-52 + e))%Z
        with (Z.pos (digits2_pos m) + e)%Z by lia.
      rewrite V1. lia. }
  cbv beta iota delta [Pos.mul shr iter_pos shr_record_of_loc shr_1].
  cbn -[fexp Z.add Z.sub Z.leb prec emax shr_fexp].
  replace (-52 + e + 52)%Z with e by lia.
  unfold shr_fexp, Zdigits2. rewrite V1, Z.sub_diag.
  cbv beta iota delta [shr shr_record_of_loc shr_m].
  apply Z.leb_le in V2. rewrite V2. reflexivity.
Qed.

Lemma mul_0_l (x : float) :
  (0 <? x) = true -> (x <? infinity) = true -> 0 * x = 0.
Proof.
  intros H1 H2. destruct (positive_finite x H1 H2) as (m & e & E).
  apply Prim2SF_inj. rewrite mul_spec, E. reflexivity.
Qed.

Lemma sub_diag (x : float) :
  (0 <? x) = true -> (x <? infinity) = true -> x - x = 0.
Proof.
  intros H1 H2. destruct (positive_finite x H1 H2) as (m & e & E).
  apply Prim2SF_inj. rewrite sub_spec, E.
  unfold SF64sub, SFsub. rewrite Z.min_id.
  unfold shl_align. rewrite Z.sub_diag. cbn [fst cond_Zopp].
  replace (Z.pos m - Z.pos m)%Z with 0%Z by lia. reflexivity.
Qed.

Lemma sub_0_r (x : float) : x - 0 = x.
Proof.
  apply Prim2SF_inj. rewrite sub_spec.
  change (Prim2SF 0) with (S754_zero false).
  destruct (Prim2SF x) as [[]|[]| |s m e]; reflexivity.
Qed.

End FloatFacts.

Module ExportFacts.
Import JS Types PdfLib DOM PdfExportService ExportNotions.

Lemma foldResult_app {A S} (f : S -> A -> Result S) l1 l2 s :
  foldResult f (l1 ++ l2) s = rbind (foldResult f l1 s) (foldResult f l2).
Proof.
  revert s. induction l1 as [|x l1 IH]; intros s; simpl; [reflexivity|].
  destruct (f s x) as [e|s']; simpl; [reflexivity|apply IH].
Qed.

Lemma index_lookup {A} (arr : list A) (i : Z) x :
  (0 <= i)%Z -> arr !! Z.to_nat i = Some x -> index arr i = inr x.
Proof.
  intros Hi Hx. unfold index.
  destruct (i <? 0)%Z eqn:E; [lia|]. now rewrite Hx.
Qed.

Lemma in_range_lookup {A} (arr : list A) (i : Z) :
  (0 <= i < Z.of_nat (List.length arr))%Z ->
  exists x, arr !! Z.to_nat i = Some x.
Proof.
  intros Hi. apply lookup_lt_is_Some. lia.
Qed.

(** ** [extends] is a preorder *)

Lemma extends_refl d : extends d d.
Proof.
  split; try reflexivity; try lia.
  intros i p Hp. exists p. repeat split; try assumption. reflexivity.
Qed.

Lemma extends_trans d1 d2 d3 : extends d1 d2 -> extends d2 d3 -> extends d1 d3.
Proof.
  intros [L1 N1 O1 P1] [L2 N2 O2 P2]. split.
  - congruence.
  - lia.
  - intros r Hr. rewrite O2 by lia. now apply O1.
  - intros i p Hp.
    destruct (P1 _ _ Hp) as (p' & Hp' & R1 & W1 & H1 & A1).
    destruct (P2 _ _ Hp') as (p'' & Hp'' & R2 & W2 & H2 & A2).
    exists p''. repeat split; try congruence.
    etransitivity; eassumption.
Qed.

(** ** One link *)

Lemma addLink_out_of_range pageIndex W H d link :
  (targetPage link < 1 \/ targetPage link > Z.of_nat (List.length (pages d)))%Z ->
  addLink pageIndex W H d link = inr d.
Proof.
  intros Hr. unfold addLink.
  destruct (targetPage link - 1 >=? 0)%Z eqn:E1;
    destruct (targetPage link - 1 <? Z.of_nat (List.length (pages d)))%Z eqn:E2;
    simpl; try reflexivity.
  lia.
Qed.

Lemma addLink_in_range pageIndex W H d link page target :
  (0 <= pageIndex)%Z ->
  pages d !! Z.to_nat pageIndex = Some page ->
  (1 <= targetPage link)%Z ->
  pages d !! Z.to_nat (targetPage link - 1) = Some target ->
  addLink pageIndex W H d link =
  inr (withLink d (Z.to_nat pageIndex) page
         (linkAnnot (linkRect link W H) (ref target))).
Proof.
  intros Hp Hpage Ht Htarget. unfold addLink.
  pose proof (lookup_lt_Some _ _ _ Htarget) as Hlt.
  destruct (targetPage link - 1 >=? 0)%Z eqn:E1; [|lia].
  destruct (targetPage link - 1 <? Z.of_nat (List.length (pages d)))%Z eqn:E2;
    [|lia].
  simpl.
  rewrite (index_lookup (pages d) (targetPage link - 1) target ltac:(lia) Htarget).
  simpl.
  rewrite (index_lookup _ _ _ Hp Hpage). simpl.
  reflexivity.
Qed.

Lemma withLink_extends d i page annot :
  pages d !! i = Some page -> extends d (withLink d i page annot).
Proof.
  intros Hpage. split; simpl.
  - apply length_insert.
  - lia.
  - intros r Hr. apply lookup_insert_ne. lia.
  - intros j p Hp. destruct (decide (i = j)) as [<-|Hne].
    + rewrite list_lookup_insert_eq by (eapply lookup_lt_Some; eauto).
      eexists. split; [reflexivity|].
      assert (p = page) as -> by congruence.
      simpl. repeat split. now exists [PDFRef (S (largestObjectNumber (context d)))].
    + rewrite list_lookup_insert_ne by exact Hne.
      exists p. repeat split; [assumption|reflexivity].
Qed.

(** A link either leaves the document as it is or adds one annotation;
    it never throws on a page of the document. *)
Lemma addLink_total pageIndex W H d link :
  (0 <= pageIndex < Z.of_nat (List.length (pages d)))%Z ->
  exists d', addLink pageIndex W H d link = inr d' /\ extends d d'.
Proof.
  intros Hp.
  destruct (in_range_lookup _ _ Hp) as [page Hpage].
  destruct (Z_lt_le_dec (targetPage link) 1) as [Hlo|Hlo].
  { exists d. split; [apply addLink_out_of_range; lia|apply extends_refl]. }
  destruct (Z_lt_le_dec (Z.of_nat (List.length (pages d))) (targetPage link))
    as [Hhi|Hhi].
  { exists d. split; [apply addLink_out_of_range; lia|apply extends_refl]. }
  destruct (in_range_lookup (pages d) (targetPage link - 1) ltac:(lia))
    as [target Htarget].
  eexists. split.
  - apply addLink_in_range; eauto; lia.
  - now apply withLink_extends.
Qed.

Lemma addLinks_total pageIndex W H links : forall d,
  (0 <= pageIndex < Z.of_nat (List.length (pages d)))%Z ->
  exists d', foldResult (addLink pageIndex W H) links d = inr d' /\ extends d d'.
Proof.
  induction links as [|link links IH]; intros d Hp; simpl.
  - exists d. split; [reflexivity|apply extends_refl].
  - destruct (addLink_total pageIndex W H d link Hp) as (d1 & -> & E1). simpl.
    destruct (IH d1) as (d2 & -> & E2).
    { rewrite (ext_length _ _ E1). exact Hp. }
    exists d2. split; [reflexivity|eapply extends_trans; eauto].
Qed.

(** ** One page, and the whole record *)

Lemma exportPage_out_of_range d pageNum links :
  (pageNum < 1 \/ pageNum > Z.of_nat (List.length (pages d)))%Z ->
  exportPage d (pageNum, links) = inr d.
Proof.
  intros Hr. unfold exportPage.
  destruct (pageNum - 1 <? 0)%Z eqn:E1;
    destruct (pageNum - 1 >=? Z.of_nat (List.length (pages d)))%Z eqn:E2;
    simpl; try reflexivity.
  lia.
Qed.

Lemma exportPage_in_range d pageNum links page :
  (1 <= pageNum)%Z ->
  pages d !! Z.to_nat (pageNum - 1) = Some page ->
  exportPage d (pageNum, links) =
  foldResult (addLink (pageNum - 1) (width page) (height page)) links d.
Proof.
  intros Hp Hpage. unfold exportPage.
  pose proof (lookup_lt_Some _ _ _ Hpage) as Hlt.
  destruct (pageNum - 1 <? 0)%Z eqn:E1; [lia|].
  destruct (pageNum - 1 >=? Z.of_nat (List.length (pages d)))%Z eqn:E2; [lia|].
  simpl.
  now rewrite (index_lookup (pages d) (pageNum - 1) page ltac:(lia) Hpage).
Qed.

Lemma exportPage_total d entry :
  exists d', exportPage d entry = inr d' /\ extends d d'.
Proof.
  destruct entry as [pageNum links].
  destruct (Z_lt_le_dec pageNum 1) as [Hlo|Hlo].
  { exists d. split; [apply exportPage_out_of_range; lia|apply extends_refl]. }
  destruct (Z_lt_le_dec (Z.of_nat (List.length (pages d))) pageNum) as [Hhi|Hhi].
  { exists d. split; [apply exportPage_out_of_range; lia|apply extends_refl]. }
  destruct (in_range_lookup (pages d) (pageNum - 1) ltac:(lia)) as [page Hpage].
  rewrite (exportPage_in_range _ _ _ _ Hlo Hpage).
  apply addLinks_total. lia.
Qed.

Lemma exportPages_total analyses : forall d,
  exists d', foldResult exportPage analyses d = inr d' /\ extends d d'.
Proof.
  induction analyses as [|entry analyses IH]; intros d; simpl.
  - exists d. split; [reflexivity|apply extends_refl].
  - destruct (exportPage_total d entry) as (d1 & -> & E1). simpl.
    destruct (IH d1) as (d2 & -> & E2).
    exists d2. split; [reflexivity|eapply extends_trans; eauto].
Qed.

(** ** Entries that point outside the document *)

Lemma addLinks_skip pageIndex W H l1 link l2 d :
  (0 <= pageIndex < Z.of_nat (List.length (pages d)))%Z ->
  (targetPage link < 1 \/ targetPage link > Z.of_nat (List.length (pages d)))%Z ->
  foldResult (addLink pageIndex W H) (l1 ++ link :: l2) d
  = foldResult (addLink pageIndex W H) (l1 ++ l2) d.
Proof.
  intros Hp Ht. rewrite !foldResult_app.
  destruct (addLinks_total pageIndex W H l1 d Hp) as (d1 & -> & E1).
  simpl. rewrite addLink_out_of_range; [reflexivity|].
  now rewrite (ext_length _ _ E1).
Qed.

Lemma exportPage_skip d pageNum l1 link l2 :
  (pageNum < 1 \/ pageNum > Z.of_nat (List.length (pages d))
   \/ targetPage link < 1
   \/ targetPage link > Z.of_nat (List.length (pages d)))%Z ->
  exportPage d (pageNum, l1 ++ link :: l2) = exportPage d (pageNum, l1 ++ l2).
Proof.
  intros Hr.
  destruct (Z_lt_le_dec pageNum 1) as [Hlo|Hlo].
  { rewrite !exportPage_out_of_range by lia. reflexivity. }
  destruct (Z_lt_le_dec (Z.of_nat (List.length (pages d))) pageNum) as [Hhi|Hhi].
  { rewrite !exportPage_out_of_range by lia. reflexivity. }
  destruct (in_range_lookup (pages d) (pageNum - 1) ltac:(lia)) as [page Hpage].
  rewrite !(exportPage_in_range _ _ _ _ Hlo Hpage).
  apply addLinks_skip; lia.
Qed.

(** C2: an entry whose page number or target page lies outside the
    document's page range contributes nothing: the export completes
    without raising, and its result is the one obtained without that
    entry. *)
Theorem out_of_range_entry_is_skipped
  file pdfDoc a1 pageNum l1 link l2 a2 :
  pdflibDocument file = inr pdfDoc ->
  (pageNum < 1 \/ pageNum > Z.of_nat (List.length (pages pdfDoc))
   \/ targetPage link < 1
   \/ targetPage link > Z.of_nat (List.length (pages pdfDoc)))%Z ->
  (exists blob,
      exportModifiedPdf file (a1 ++ (pageNum, l1 ++ link :: l2) :: a2)
      = inr blob)
  /\ exportModifiedPdf file (a1 ++ (pageNum, l1 ++ link :: l2) :: a2)
     = exportModifiedPdf file (a1 ++ (pageNum, l1 ++ l2) :: a2)
  /\ ((pageNum < 1 \/ pageNum > Z.of_nat (List.length (pages pdfDoc)))%Z ->
      exportModifiedPdf file (a1 ++ (pageNum, l1 ++ link :: l2) :: a2)
      = exportModifiedPdf file (a1 ++ a2)).
Proof.
  intros Hload Hr. unfold exportModifiedPdf. rewrite Hload. simpl.
  split; [|split].
  - destruct (exportPages_total (a1 ++ (pageNum, l1 ++ link :: l2) :: a2) pdfDoc)
      as (d' & -> & _).
    simpl. eauto.
  - f_equal. rewrite !foldResult_app.
    destruct (exportPages_total a1 pdfDoc) as (d1 & -> & E1).
    cbn [foldResult rbind]. rewrite exportPage_skip; [reflexivity|].
    now rewrite (ext_length _ _ E1).
  - intros Hpage. f_equal. rewrite !foldResult_app.
    destruct (exportPages_total a1 pdfDoc) as (d1 & -> & E1).
    cbn [foldResult rbind]. rewrite exportPage_out_of_range; [reflexivity|].
    now rewrite (ext_length _ _ E1).
Qed.

Lemma out_of_range_entry_is_skipped_witness :
  (exists blob,
      exportModifiedPdf Samples.twoPageFile
        ([] ++ (1%Z, [Samples.fullPageLink] ++ Samples.strayLink :: []) :: [])
      = inr blob)
  /\ exportModifiedPdf Samples.twoPageFile
       ([] ++ (1%Z, [Samples.fullPageLink] ++ Samples.strayLink :: []) :: [])
     = exportModifiedPdf Samples.twoPageFile
         ([] ++ (1%Z, [Samples.fullPageLink] ++ []) :: []).
Proof.
  destruct (out_of_range_entry_is_skipped Samples.twoPageFile
              Samples.twoPageDoc
              [] 1%Z [Samples.fullPageLink] Samples.strayLink [] [])
    as (Hruns & Hsame & _).
  - reflexivity.
  - right. right. right. simpl. lia.
  - split; [exact Hruns|exact Hsame].
Defined.

(** The top-left quadrant of the image becomes the top-left quadrant of
    a US Letter page. *)
Example quadrant_rect :
  linkRect Samples.strayLink 612 792 = [0; 396; 306; 792]%float.
Proof. reflexivity. Qed.

(** On a two-page document, the entry for page 2 lands on page 1 after
    the annotation that page 2 keeps is left alone, and the stray entry
    leaves no trace. *)
Example export_two_entries :
  option_map (fun b => List.map Annots (pages (saved b)))
    (match exportModifiedPdf Samples.twoPageFile
             [(1%Z, [Samples.strayLink; Samples.fullPageLink])] with
     | inr b => Some b
     | inl _ => None
     end)
  = Some [Some [PDFRef 21]; Some [PDFRef 3]].
Proof. reflexivity. Qed.

(** ** The annotation an entry produces *)

Lemma withLink_object d i page annot :
  indirectObjects (context (withLink d i page annot))
    !! S (largestObjectNumber (context d)) = Some annot.
Proof. simpl. apply lookup_insert_eq. Qed.

Lemma withLink_page d i page annot :
  pages d !! i = Some page ->
  pages (withLink d i page annot) !! i
  = Some (mkPage (ref page) (width page) (height page)
            (Some (annotsOf page ++ [PDFRef (S (largestObjectNumber (context d)))]))).
Proof.
  intros Hpage. simpl. apply list_lookup_insert_eq.
  eapply lookup_lt_Some; eauto.
Qed.

Lemma full_box_rect (link : Link) (W H : float) :
  box link = (mkBox 0 0 1000 1000)%float ->
  (0 <? W)%float = true -> (W <? infinity)%float = true ->
  (0 <? H)%float = true -> (H <? infinity)%float = true ->
  linkRect link W H = [0; 0; W; H]%float.
Proof.
  intros Hbox W0 W1 H0 H1. unfold linkRect. rewrite Hbox. simpl.
  change (0 / 1000)%float with 0%float.
  change (1000 / 1000)%float with 1%float.
  rewrite !FloatFacts.mul_1_l, !FloatFacts.mul_0_l by assumption.
  now rewrite FloatFacts.sub_diag, FloatFacts.sub_0_r by assumption.
Qed.

(** C1: for an entry of a page of width [W] and height [H] whose page
    and target page are in the document, [exportModifiedPdf] registers a
    dictionary of type [/Annot] and subtype [/Link] whose [/Rect] is
    exactly the array [[x_left; y_bottom; x_right; y_top]] with
    [x_left = (xmin/1000)*W], [x_right = (xmax/1000)*W],
    [y_bottom = H - (ymax/1000)*H], [y_top = H - (ymin/1000)*H], whose
    border is zero and whose action goes to the target page, and puts
    its reference on that page; for the box
    [{ymin:0, xmin:0, ymax:1000, xmax:1000}] on a page of positive
    finite size the rectangle is [[0; 0; W; H]]. *)
Theorem link_rectangle
  file pdfDoc analyses pageNum links link page target :
  pdflibDocument file = inr pdfDoc ->
  In (pageNum, links) analyses ->
  In link links ->
  (1 <= pageNum)%Z ->
  pages pdfDoc !! Z.to_nat (pageNum - 1) = Some page ->
  (1 <= targetPage link)%Z ->
  pages pdfDoc !! Z.to_nat (targetPage link - 1) = Some target ->
  let W := width page in
  let H := height page in
  let x_left := (xmin (box link) / 1000 * W)%float in
  let x_right := (xmax (box link) / 1000 * W)%float in
  let y_bottom := (H - ymax (box link) / 1000 * H)%float in
  let y_top := (H - ymin (box link) / 1000 * H)%float in
  (exists blob r page',
      exportModifiedPdf file analyses = inr blob
      /\ (largestObjectNumber (context pdfDoc) < r)%nat
      /\ indirectObjects (context (saved blob)) !! r
         = Some (PDFDict
                   [("Type", PDFName "Annot");
                    ("Subtype", PDFName "Link");
                    ("Rect", PDFArray [PDFNumber x_left; PDFNumber y_bottom;
                                       PDFNumber x_right; PDFNumber y_top]);
                    ("Border", PDFArray [PDFNumber 0%float; PDFNumber 0%float;
                                         PDFNumber 0%float]);
                    ("A", PDFDict
                            [("Type", PDFName "Action");
                             ("S", PDFName "GoTo");
                             ("D", PDFArray [PDFRef (ref target);
                                             PDFName "Fit"])])])
      /\ pages (saved blob) !! Z.to_nat (pageNum - 1) = Some page'
      /\ In (PDFRef r) (annotsOf page'))
  /\ (box link = (mkBox 0 0 1000 1000)%float ->
      (0 <? W)%float = true -> (W <? infinity)%float = true ->
      (0 <? H)%float = true -> (H <? infinity)%float = true ->
      [x_left; y_bottom; x_right; y_top] = [0; 0; W; H]%float).
Proof.
  intros Hload Hentry Hlink Hp Hpage Ht Htarget W H x_left x_right y_bottom y_top.
  split; [|apply full_box_rect].
  apply in_split in Hentry as (a1 & a2 & ->).
  apply in_split in Hlink as (l1 & l2 & ->).
  unfold exportModifiedPdf. rewrite Hload. simpl.
  rewrite foldResult_app.
  destruct (exportPages_total a1 pdfDoc) as (d1 & -> & E1).
  cbn [foldResult rbind].
  destruct (ext_pages _ _ E1 _ _ Hpage) as (page1 & Hpage1 & _ & W1 & H1 & _).
  rewrite (exportPage_in_range _ _ _ _ Hp Hpage1), W1, H1, foldResult_app.
  assert (R1 : (0 <= pageNum - 1 < Z.of_nat (List.length (pages d1)))%Z).
  { apply lookup_lt_Some in Hpage1. lia. }
  destruct (addLinks_total (pageNum - 1) (width page) (height page) l1 d1 R1)
    as (d2 & -> & E2).
  pose proof (extends_trans _ _ _ E1 E2) as E12.
  destruct (ext_pages _ _ E12 _ _ Hpage) as (page2 & Hpage2 & _).
  destruct (ext_pages _ _ E12 _ _ Htarget) as (target2 & Htarget2 & Rt & _).
  cbn [foldResult rbind].
  rewrite (addLink_in_range (pageNum - 1) _ _ _ _ page2 target2
             ltac:(lia) Hpage2 Ht Htarget2).
  rewrite Rt. cbn [foldResult rbind].
  set (annot := linkAnnot (linkRect link (width page) (height page)) (ref target)).
  set (d3 := withLink d2 (Z.to_nat (pageNum - 1)) page2 annot).
  assert (R3 : (0 <= pageNum - 1 < Z.of_nat (List.length (pages d3)))%Z).
  { subst d3. simpl. rewrite length_insert, (ext_length _ _ E2). exact R1. }
  destruct (addLinks_total (pageNum - 1) (width page) (height page) l2 d3 R3)
    as (d4 & -> & E4).
  cbn [foldResult rbind].
  destruct (exportPages_total a2 d4) as (d5 & -> & E5). cbn [foldResult rbind].
  pose proof (extends_trans _ _ _ E4 E5) as E35.
  destruct (ext_pages _ _ E35 _ _ (withLink_page d2 _ page2 annot Hpage2))
    as (page5 & Hpage5 & _ & _ & _ & [k Hk]).
  exists {| saved := d5; blobType := "application/pdf" |},
    (S (largestObjectNumber (context d2))), page5.
  repeat split.
  - pose proof (ext_largest _ _ E12). lia.
  - simpl. rewrite (ext_objects _ _ E35) by (subst d3; simpl; lia).
    apply withLink_object.
  - exact Hpage5.
  - rewrite Hk. unfold annotsOf at 1. simpl.
    apply in_or_app. left. apply in_or_app. right. now left.
Qed.

Lemma link_rectangle_witness :
  (exists blob r page',
      exportModifiedPdf Samples.twoPageFile
        [(1%Z, [Samples.strayLink; Samples.fullPageLink])] = inr blob
      /\ (20 < r)%nat
      /\ indirectObjects (context (saved blob)) !! r
         = Some (PDFDict
                   [("Type", PDFName "Annot");
                    ("Subtype", PDFName "Link");
                    ("Rect", PDFArray [PDFNumber 0%float; PDFNumber 0%float;
                                       PDFNumber 612%float;
                                       PDFNumber 792%float]);
                    ("Border", PDFArray [PDFNumber 0%float; PDFNumber 0%float;
                                         PDFNumber 0%float]);
                    ("A", PDFDict
                            [("Type", PDFName "Action");
                             ("S", PDFName "GoTo");
                             ("D", PDFArray [PDFRef 11; PDFName "Fit"])])])
      /\ pages (saved blob) !! 0%nat = Some page'
      /\ In (PDFRef r) (annotsOf page'))
  /\ linkRect Samples.fullPageLink 612 792 = [0; 0; 612; 792]%float.
Proof.
  destruct (link_rectangle Samples.twoPageFile Samples.twoPageDoc
              [(1%Z, [Samples.strayLink; Samples.fullPageLink])]
              1%Z [Samples.strayLink; Samples.fullPageLink]
              Samples.fullPageLink
              (mkPage 10 612 792 None) (mkPage 11 612 792 (Some [PDFRef 3])))
    as [H1 H2].
  - reflexivity.
  - now left.
  - right. now left.
  - lia.
  - reflexivity.
  - simpl. lia.
  - reflexivity.
  - split; [exact H1|]. apply H2; reflexivity.
Defined.

(** C3: processing one valid entry of a page leaves the page's
    annotation array with the annotations it had, unchanged and in
    order, followed by the reference to the new link annotation (an
    array holding just that reference when the page had none) and leaves
    the other pages as they were; and whatever the entries, the
    annotations a page had remain the leading ones of its array. *)
Theorem new_annotation_is_appended
  file pdfDoc pageNum link page target :
  pdflibDocument file = inr pdfDoc ->
  (1 <= pageNum)%Z ->
  pages pdfDoc !! Z.to_nat (pageNum - 1) = Some page ->
  (1 <= targetPage link)%Z ->
  pages pdfDoc !! Z.to_nat (targetPage link - 1) = Some target ->
  (exists blob page' new,
      exportModifiedPdf file [(pageNum, [link])] = inr blob
      /\ new = PDFRef (S (largestObjectNumber (context pdfDoc)))
      /\ indirectObjects (context (saved blob))
           !! S (largestObjectNumber (context pdfDoc))
         = Some (linkAnnot (linkRect link (width page) (height page))
                   (ref target))
      /\ pages (saved blob) !! Z.to_nat (pageNum - 1) = Some page'
      /\ Annots page'
         = Some match Annots page with
                | Some old => old ++ [new]
                | None => [new]
                end
      /\ (forall old, Annots page = Some old ->
          exists annots, Annots page' = Some annots
                         /\ List.length annots = S (List.length old))
      /\ (forall j, j <> Z.to_nat (pageNum - 1) ->
          pages (saved blob) !! j = pages pdfDoc !! j))
  /\ (forall analyses,
      exists blob,
        exportModifiedPdf file analyses = inr blob
        /\ forall i p, pages pdfDoc !! i = Some p ->
           exists p', pages (saved blob) !! i = Some p'
                      /\ annotsOf p `prefix_of` annotsOf p').
Proof.
  intros Hload Hp Hpage Ht Htarget. split.
  - unfold exportModifiedPdf. rewrite Hload. cbn [rbind foldResult].
    rewrite (exportPage_in_range _ _ _ _ Hp Hpage). cbn [rbind foldResult].
    rewrite (addLink_in_range (pageNum - 1) _ _ _ _ page target
               ltac:(lia) Hpage Ht Htarget).
    cbn [rbind foldResult].
    eexists _, _, _. split; [reflexivity|]. simpl.
    split; [reflexivity|].
    split; [apply lookup_insert_eq|].
    split; [apply list_lookup_insert_eq; eapply lookup_lt_Some; eauto|].
    split; [|split].
    + simpl. unfold annotsOf. now destruct (Annots page).
    + intros old Hold. eexists. split; [reflexivity|].
      unfold annotsOf. rewrite Hold. simpl.
      rewrite length_app. simpl. lia.
    + intros j Hj. now apply list_lookup_insert_ne.
  - intros analyses. unfold exportModifiedPdf. rewrite Hload. simpl.
    destruct (exportPages_total analyses pdfDoc) as (d' & -> & E). simpl.
    eexists. split; [reflexivity|]. simpl.
    intros i p Hi.
    destruct (ext_pages _ _ E _ _ Hi) as (p' & Hp' & _ & _ & _ & Hpre).
    eauto.
Qed.

Lemma new_annotation_is_appended_witness :
  exists blob page',
    exportModifiedPdf Samples.twoPageFile [(2%Z, [Samples.fullPageLink])]
    = inr blob
    /\ pages (saved blob) !! 1%nat = Some page'
    /\ Annots page' = Some [PDFRef 3; PDFRef 21].
Proof.
  destruct (new_annotation_is_appended Samples.twoPageFile Samples.twoPageDoc
              2%Z Samples.fullPageLink
              (mkPage 11 612 792 (Some [PDFRef 3]))
              (mkPage 11 612 792 (Some [PDFRef 3])))
    as [(blob & page' & new & Hrun & -> & _ & Hpage' & Hannots & _) _].
  - reflexivity.
  - lia.
  - reflexivity.
  - simpl. lia.
  - reflexivity.
  - exists blob, page'. repeat split; assumption.
Defined.

End ExportFacts.

(* ===================================================================== *)
(** * The rasteriser                                                     *)
(* ===================================================================== *)

Module ImageFacts.
Import JS PdfJs DOM PdfImageService ImageNotions.

Lemma renderInto_lookup pdfDoc results pageNum P :
  is_Some (renderInto pdfDoc results pageNum !! P)
  <-> is_Some (results !! P) \/ (P = pageNum /\ drawn pdfDoc P).
Proof.
  unfold renderInto, drawn.
  destruct (pageNum <? 1)%Z eqn:E1; simpl.
  { split; [tauto|]. intros [H|[-> [H _]]]; [exact H|lia]. }
  destruct (pageNum >? numPages pdfDoc)%Z eqn:E2; simpl.
  { split; [tauto|]. intros [H|[-> [H _]]]; [exact H|lia]. }
  destruct (renderPage pdfDoc pageNum) as [e| |dataURL] eqn:E.
  - split; [tauto|]. intros [H|[-> [_ [u Hu]]]]; [exact H|congruence].
  - split; [tauto|]. intros [H|[-> [_ [u Hu]]]]; [exact H|congruence].
  - destruct (decide (pageNum = P)) as [->|Hne].
    + rewrite lookup_insert_eq. split; [|eauto].
      intros _. right. split; [reflexivity|]. split; [lia|]. eauto.
    + rewrite lookup_insert_ne by exact Hne.
      split; [tauto|]. intros [H|[-> _]]; [exact H|contradiction].
Qed.

Lemma renderAll_lookup pdfDoc pageNumbers : forall results P,
  is_Some (foldl (renderInto pdfDoc) results pageNumbers !! P)
  <-> is_Some (results !! P) \/ (In P pageNumbers /\ drawn pdfDoc P).
Proof.
  induction pageNumbers as [|pageNum pageNumbers IH]; intros results P; simpl.
  - tauto.
  - rewrite IH, renderInto_lookup. intuition (subst; auto).
Qed.

(** C5, as stated, fails: page 1 of a one-page document is within
    bounds, yet it gets no entry when drawing it throws. *)
Lemma in_bounds_page_without_entry :
  pdfjsDocument Samples.unrenderableFile = inr Samples.unrenderableDoc
  /\ (1 <= 1 <= numPages Samples.unrenderableDoc)%Z
  /\ exists results,
       getImagesForPages Samples.unrenderableFile [1%Z] = inr results
       /\ results !! 1%Z = None.
Proof.
  split; [reflexivity|]. split; [simpl; lia|].
  eexists. split; reflexivity.
Qed.

(** C5 (amended): on a document that opens, [getImagesForPages] returns
    without raising, and its result has an entry for a page number [P]
    exactly when [P] was requested, is within bounds
    ([1 <= P <= numPages]) and was drawn (neither [getPage] nor [render]
    threw and the canvas gave a 2D context); so a page out of bounds, or
    one that could not be drawn, gets no entry. *)
Theorem rendered_pages_get_entries file pdfDoc pageNumbers :
  pdfjsDocument file = inr pdfDoc ->
  exists results,
    getImagesForPages file pageNumbers = inr results
    /\ forall P,
         is_Some (results !! P)
         <-> In P pageNumbers
             /\ (1 <= P <= numPages pdfDoc)%Z
             /\ exists dataURL, renderPage pdfDoc P = Rendered dataURL.
Proof.
  intros Hload. unfold getImagesForPages. rewrite Hload. simpl.
  eexists. split; [reflexivity|].
  intros P. rewrite renderAll_lookup, lookup_empty. unfold drawn.
  split.
  - intros [[x Hx]|H]; [discriminate|exact H].
  - intros H. now right.
Qed.

Lemma rendered_pages_get_entries_witness :
  exists results,
    getImagesForPages Samples.threePageFile [0; 2; 7]%Z = inr results
    /\ is_Some (results !! 2%Z)
    /\ results !! 0%Z = None
    /\ results !! 7%Z = None.
Proof.
  destruct (rendered_pages_get_entries Samples.threePageFile
              Samples.threePageDoc [0; 2; 7]%Z eq_refl)
    as (results & Hrun & Hiff).
  exists results. split; [exact Hrun|]. repeat split.
  - apply Hiff. split; [right; now left|]. split; [simpl; lia|].
    eexists. reflexivity.
  - apply eq_None_not_Some. intros H. apply Hiff in H as (_ & H & _). lia.
  - apply eq_None_not_Some. intros H. apply Hiff in H as (_ & H & _).
    simpl in H. lia.
Defined.

End ImageFacts.

(* ===================================================================== *)
(** * The scan handlers                                                  *)
(* ===================================================================== *)

Module AppFacts.
Import JS Types DOM GeminiService PdfImageService App ScanNotions.

Section Handlers.
Context {World : Type} (rt : Runtime World).

(** A page is left alone, or it receives the entries of a successful
    call made for it. *)
Lemma scanPage_spec pageImages totalPages completed pageNum st w :
  exists st' w',
    scanPage rt pageImages totalPages completed pageNum (st, w)
    = (inr tt, (st', w'))
    /\ (pageAnalyses st' = pageAnalyses st
          /\ (truthyImage (pageImages !! pageNum) = None
              \/ exists imageBase64 e,
                   truthyImage (pageImages !! pageNum) = Some imageBase64
                   /\ analyzePageForIndex rt imageBase64 pageNum w = (inl e, w'))
        \/ exists imageBase64 links,
             truthyImage (pageImages !! pageNum) = Some imageBase64
             /\ analyzePageForIndex rt imageBase64 pageNum w = (inr links, w')
             /\ pageAnalyses st' = <[pageNum := links]> (pageAnalyses st)).
Proof.
  unfold scanPage.
  destruct (truthyImage (pageImages !! pageNum)) as [imageBase64|] eqn:Himg.
  - unfold tryCatch, seq, bind, update, await, ret.
    destruct (analyzePageForIndex rt imageBase64 pageNum w) as [[e|links] w1] eqn:E.
    + eexists _, _. split; [reflexivity|]. left. simpl. eauto 6.
    + eexists _, _. split; [reflexivity|]. right. simpl. eauto 6.
  - eexists _, _. split; [reflexivity|]. left. eauto.
Qed.

Lemma scanLoop_spec pageImages totalPages pagesToScan :
  forall completed st w,
  exists st' w',
    scanLoop rt pageImages totalPages pagesToScan completed (st, w)
    = (inr tt, (st', w'))
    /\ (forall p,
          pageAnalyses st' !! p = pageAnalyses st !! p
          \/ exists imageBase64 links w0 w1,
               In p pagesToScan
               /\ truthyImage (pageImages !! p) = Some imageBase64
               /\ analyzePageForIndex rt imageBase64 p w0 = (inr links, w1)
               /\ pageAnalyses st' !! p = Some links)
    /\ (forall q imageBase64,
          In q pagesToScan ->
          truthyImage (pageImages !! q) = Some imageBase64 ->
          (forall w0, exists links w1,
              analyzePageForIndex rt imageBase64 q w0 = (inr links, w1)) ->
          exists links w0 w1,
            analyzePageForIndex rt imageBase64 q w0 = (inr links, w1)
            /\ pageAnalyses st' !! q = Some links).
Proof.
  induction pagesToScan as [|pageNum rest IH]; intros completed st w.
  - exists st, w. split; [reflexivity|]. split; [now left|]. intros q img [].
  - simpl. unfold seq, bind.
    destruct (scanPage_spec pageImages totalPages completed pageNum st w)
      as (st1 & w1 & -> & Hstep).
    destruct (IH (completed + 1)%Z st1 w1) as (st' & w' & -> & Hany & Hgood).
    exists st', w'. split; [reflexivity|]. split.
    + intros p. destruct (Hany p) as [Hsame|(img & l & w0 & w2 & Hin & H)].
      2:{ right. exists img, l, w0, w2. split; [now right|exact H]. }
      rewrite Hsame.
      destruct Hstep as [[-> _]|(img & l & Himg & Hcall & ->)]; [now left|].
      destruct (decide (pageNum = p)) as [->|Hne].
      * right. exists img, l, w, w1. rewrite lookup_insert_eq.
        split; [now left|]. auto.
      * left. now rewrite lookup_insert_ne.
    + intros q img Hin Himg Hok.
      destruct (in_dec Z.eq_dec q rest) as [Hrest|Hrest];
        [now apply (Hgood q img)|].
      destruct Hin as [->|Hin]; [|contradiction].
      destruct (Hok w) as (l & w2 & Hcall).
      destruct (Hany q) as [Hsame|(img' & l' & w0 & w3 & Hin & _)];
        [|contradiction].
      exists l, w, w2. split; [exact Hcall|]. rewrite Hsame.
      destruct Hstep as [[_ [Hnone|(img' & e & Himg' & Hthrow)]]
                        |(img' & l' & Himg' & Hcall' & ->)].
      * congruence.
      * assert (img' = img) as -> by congruence. congruence.
      * assert (img' = img) as -> by congruence.
        rewrite lookup_insert_eq. congruence.
Qed.

(** The batch handler returns normally whatever happens inside it, and
    ends on the state its loop reached. *)
Lemma handleBatchScan_run pagesToScan st w :
  exists st' w',
    handleBatchScan rt pagesToScan (st, w) = (inr tt, (st', w'))
    /\ forall f pageImages,
         file st = Some f ->
         getImagesForPages f pagesToScan = inr pageImages ->
         exists st0 st1,
           pageAnalyses st0 = pageAnalyses st
           /\ scanLoop rt pageImages (Z.of_nat (List.length pagesToScan))
                pagesToScan 0%Z (st0, w) = (inr tt, (st1, w'))
           /\ pageAnalyses st' = pageAnalyses st1.
Proof.
  unfold handleBatchScan.
  destruct (file st) as [f|] eqn:Hfile.
  2:{ exists st, w. split; [reflexivity|]. intros f imgs Hf. discriminate. }
  unfold seq, bind, update, tryFinally, tryCatch, lift.
  destruct (getImagesForPages f pagesToScan) as [e|pageImages] eqn:Himgs.
  { eexists _, _. split; [reflexivity|]. intros f' imgs [= <-] Hi.
    rewrite Himgs in Hi. discriminate. }
  match goal with
  | |- context [scanLoop rt pageImages ?t pagesToScan ?c (?s, w)] =>
      destruct (scanLoop_spec pageImages t pagesToScan c s w)
        as (st1 & w1 & Hloop & _); rewrite Hloop
  end.
  eexists _, _. split; [reflexivity|].
  intros f' imgs [= <-] Hi. rewrite Himgs in Hi. injection Hi as <-.
  eexists _, st1. split; [|split; [exact Hloop|reflexivity]]. reflexivity.
Qed.

(** One round of the loop, with the world it leaves. *)
Lemma scanPage_world pageImages totalPages completed pageNum st w :
  exists st',
    scanPage rt pageImages totalPages completed pageNum (st, w)
    = (inr tt, (st', scanWorld rt pageImages [pageNum] w))
    /\ (forall q, q <> pageNum ->
          pageAnalyses st' !! q = pageAnalyses st !! q)
    /\ forall imageBase64,
         truthyImage (pageImages !! pageNum) = Some imageBase64 ->
         (forall e w1,
             analyzePageForIndex rt imageBase64 pageNum w = (inl e, w1) ->
             pageAnalyses st' = pageAnalyses st)
         /\ (forall links w1,
               analyzePageForIndex rt imageBase64 pageNum w = (inr links, w1) ->
               pageAnalyses st' !! pageNum = Some links).
Proof.
  unfold scanPage. cbn [scanWorld].
  destruct (truthyImage (pageImages !! pageNum)) as [imageBase64|].
  - unfold tryCatch, seq, bind, update, await, ret.
    destruct (analyzePageForIndex rt imageBase64 pageNum w)
      as [[e|links] w1] eqn:E.
    + eexists. split; [reflexivity|]. split; [intros q Hq; reflexivity|].
      intros img [= <-]. rewrite E. split; [intros e' w2 _; reflexivity|].
      intros l w2 [=].
    + eexists. split; [reflexivity|]. cbn. split.
      * intros q Hq. now apply lookup_insert_ne.
      * intros img [= <-]. rewrite E. split; [intros e w2 [=]|].
        intros l w2 [= <- _]. apply lookup_insert_eq.
  - exists st. split; [reflexivity|]. split; [intros q Hq; reflexivity|].
    intros img [=].
Qed.

(** The loop, with the world it leaves: pages it does not go through
    keep their entries. *)
Lemma scanLoop_world pageImages totalPages pages : forall completed st w,
  exists st',
    scanLoop rt pageImages totalPages pages completed (st, w)
    = (inr tt, (st', scanWorld rt pageImages pages w))
    /\ forall q, ~ In q pages ->
         pageAnalyses st' !! q = pageAnalyses st !! q.
Proof.
  induction pages as [|pageNum rest IH]; intros completed st w.
  - exists st. split; [reflexivity|]. reflexivity.
  - cbn [scanLoop]. unfold seq, bind.
    destruct (scanPage_world pageImages totalPages completed pageNum st w)
      as (st1 & -> & Hother & _).
    destruct (IH (completed + 1)%Z st1 (scanWorld rt pageImages [pageNum] w))
      as (st' & -> & Hrest).
    exists st'. split; [reflexivity|].
    intros q Hq. rewrite Hrest by (intros Hin; apply Hq; now right).
    apply Hother. intros ->. apply Hq. now left.
Qed.

(** The loop around one of its pages: the call for [p] is made in the
    world the pages before it left, and its outcome decides what is
    stored for [p]. *)
Lemma scanLoop_at pageImages totalPages p post pre :
  ~ In p post ->
  forall completed st w,
  exists st',
    scanLoop rt pageImages totalPages (pre ++ p :: post) completed (st, w)
    = (inr tt, (st', scanWorld rt pageImages (pre ++ p :: post) w))
    /\ forall imageBase64,
         truthyImage (pageImages !! p) = Some imageBase64 ->
         (forall e w1,
             analyzePageForIndex rt imageBase64 p
               (scanWorld rt pageImages pre w) = (inl e, w1) ->
             ~ In p pre ->
             pageAnalyses st' !! p = pageAnalyses st !! p)
         /\ (forall links w1,
               analyzePageForIndex rt imageBase64 p
                 (scanWorld rt pageImages pre w) = (inr links, w1) ->
               pageAnalyses st' !! p = Some links).
Proof.
  intros Hpost.
  induction pre as [|x pre IH]; intros completed st w.
  - cbn [app scanLoop]. unfold seq, bind.
    destruct (scanPage_world pageImages totalPages completed p st w)
      as (st1 & -> & _ & Hp).
    destruct (scanLoop_world pageImages totalPages post (completed + 1)%Z
                st1 (scanWorld rt pageImages [p] w)) as (st' & -> & Hrest).
    exists st'. split; [reflexivity|].
    intros img Himg. destruct (Hp img Himg) as [Hfail Hok].
    rewrite (Hrest p Hpost). split.
    + intros e w1 Hcall _. now rewrite (Hfail e w1 Hcall).
    + intros links w1 Hcall. exact (Hok links w1 Hcall).
  - cbn [app scanLoop]. unfold seq, bind.
    destruct (scanPage_world pageImages totalPages completed x st w)
      as (st1 & -> & Hother & _).
    destruct (IH (completed + 1)%Z st1 (scanWorld rt pageImages [x] w))
      as (st' & -> & Hp).
    exists st'. split; [reflexivity|].
    intros img Himg. destruct (Hp img Himg) as [Hfail Hok]. split.
    + intros e w1 Hcall Hpre.
      rewrite (Hfail e w1 Hcall) by (intros Hin; apply Hpre; now right).
      apply Hother. intros ->. apply Hpre. now left.
    + intros links w1 Hcall. exact (Hok links w1 Hcall).
Qed.

(** C4: the batch scan returns normally.  It makes one detection call
    for each requested page that has an image, in the world the calls
    before it left.  When the call made for a page throws, the stored
    results of that page are what they were before the scan (absent if
    there were none); when it returns, the page gets the entries it
    returned, whatever happened to the calls for the other pages.  The
    page is taken at any place of the request ([pre] before it, [post]
    after it, none of [post] being the page again). *)
Theorem batch_scan_continues_after_failure :
  (forall pagesToScan st w,
      exists st' w',
        handleBatchScan rt pagesToScan (st, w) = (inr tt, (st', w')))
  /\ (forall pre p post st w f pageImages,
        file st = Some f ->
        getImagesForPages f (pre ++ p :: post) = inr pageImages ->
        ~ In p post ->
        exists st',
          handleBatchScan rt (pre ++ p :: post) (st, w)
          = (inr tt, (st', scanWorld rt pageImages (pre ++ p :: post) w))
          /\ forall imageBase64,
               truthyImage (pageImages !! p) = Some imageBase64 ->
               (forall e w1,
                   analyzePageForIndex rt imageBase64 p
                     (scanWorld rt pageImages pre w) = (inl e, w1) ->
                   ~ In p pre ->
                   pageAnalyses st' !! p = pageAnalyses st !! p
                   /\ (pageAnalyses st !! p = None ->
                       pageAnalyses st' !! p = None))
               /\ (forall links w1,
                     analyzePageForIndex rt imageBase64 p
                       (scanWorld rt pageImages pre w) = (inr links, w1) ->
                     pageAnalyses st' !! p = Some links)).
Proof.
  split.
  { intros pagesToScan st w.
    destruct (handleBatchScan_run pagesToScan st w) as (st' & w' & Hrun & _).
    eauto. }
  intros pre p post st w f pageImages Hfile Himgs Hpost.
  destruct (handleBatchScan_run (pre ++ p :: post) st w)
    as (st' & w' & Hrun & Hloop).
  destruct (Hloop f pageImages Hfile Himgs) as (st0 & st1 & H0 & Hscan & H1).
  destruct (scanLoop_at pageImages
              (Z.of_nat (List.length (pre ++ p :: post))) p post pre Hpost
              0%Z st0 w) as (st1' & Hscan' & Hp).
  rewrite Hscan in Hscan'. injection Hscan' as <- ->.
  exists st'. split; [exact Hrun|].
  intros img Himg. destruct (Hp img Himg) as [Hfail Hok].
  rewrite H1, <- H0. split.
  - intros e w1 Hcall Hpre. rewrite (Hfail e w1 Hcall Hpre).
    split; [reflexivity|trivial].
  - exact Hok.
Qed.

(** C8: a successful detection on a page stores exactly the entries it
    returned under that page number, whatever was stored there before,
    and leaves the entries of every other page number as they were: in
    [handleAnalyzePage] for the current page, and in [handleBatchScan]
    for each scanned page and for the pages that were not scanned. *)
Theorem reanalysis_replaces_page_entries st w :
  (forall imageBase64 links w1,
      analyzePageForIndex rt imageBase64 (currentPage st) w = (inr links, w1) ->
      exists st',
        handleAnalyzePage rt imageBase64 (st, w) = (inr tt, (st', w1))
        /\ pageAnalyses st' !! currentPage st = Some links
        /\ forall q, q <> currentPage st ->
             pageAnalyses st' !! q = pageAnalyses st !! q)
  /\ (forall pagesToScan f pageImages,
        file st = Some f ->
        getImagesForPages f pagesToScan = inr pageImages ->
        exists st' w',
          handleBatchScan rt pagesToScan (st, w) = (inr tt, (st', w'))
          /\ (forall q imageBase64,
                In q pagesToScan ->
                truthyImage (pageImages !! q) = Some imageBase64 ->
                (forall w0, exists links w1,
                    analyzePageForIndex rt imageBase64 q w0 = (inr links, w1)) ->
                exists links w0 w1,
                  analyzePageForIndex rt imageBase64 q w0 = (inr links, w1)
                  /\ pageAnalyses st' !! q = Some links)
          /\ (forall q, ~ In q pagesToScan ->
                pageAnalyses st' !! q = pageAnalyses st !! q)).
Proof.
  split.
  - intros imageBase64 links w1 Hcall.
    unfold handleAnalyzePage, seq, bind, update, tryFinally, tryCatch, await.
    rewrite Hcall. eexists. split; [reflexivity|]. simpl. split.
    + apply lookup_insert_eq.
    + intros q Hq. now apply lookup_insert_ne.
  - intros pagesToScan f pageImages Hfile Himgs.
    destruct (handleBatchScan_run pagesToScan st w) as (st' & w' & Hrun & Hloop).
    exists st', w'. split; [exact Hrun|].
    destruct (Hloop f pageImages Hfile Himgs) as (st0 & st1 & H0 & Hscan & H1).
    destruct (scanLoop_spec pageImages (Z.of_nat (List.length pagesToScan))
                pagesToScan 0%Z st0 w) as (st1' & w1' & Hscan' & Hany & Hgood).
    rewrite Hscan in Hscan'. injection Hscan' as <- <-.
    rewrite H1, <- H0. split; [exact Hgood|].
    intros q Hq.
    destruct (Hany q) as [Hsame|(img & l & w0 & w2 & Hin & _)];
      [exact Hsame|contradiction].
Qed.

End Handlers.

Lemma batch_scan_continues_after_failure_witness :
  exists st' w',
    handleBatchScan Samples.secondRequestFails [1; 2; 3]%Z
      (Samples.freshSession, 0%nat)
    = (inr tt, (st', w'))
    /\ pageAnalyses st' !! 2%Z = None
    /\ is_Some (pageAnalyses st' !! 1%Z)
    /\ is_Some (pageAnalyses st' !! 3%Z).
Proof.
  destruct (batch_scan_continues_after_failure Samples.secondRequestFails)
    as [_ H].
  pose (pageImages :=
          <[3%Z := Some (utf16 "img-3")]>
            (<[2%Z := Some (utf16 "img-2")]>
               (<[1%Z := Some (utf16 "img-1")]>
                  (∅ : gmap Z (option jsstring))))).
  destruct (H [] 1%Z [2; 3]%Z Samples.freshSession 0%nat
              Samples.threePageFile pageImages eq_refl eq_refl)
    as (st1 & Hrun1 & Hp1); [intros [E|[E|[]]]; discriminate|].
  destruct (H [1]%Z 2%Z [3]%Z Samples.freshSession 0%nat
              Samples.threePageFile pageImages eq_refl eq_refl)
    as (st2 & Hrun2 & Hp2); [intros [E|[]]; discriminate|].
  destruct (H [1; 2]%Z 3%Z [] Samples.freshSession 0%nat
              Samples.threePageFile pageImages eq_refl eq_refl)
    as (st3 & Hrun3 & Hp3); [intros []|].
  pose proof (f_equal (fun r => fst (snd r))
                (eq_trans (eq_sym Hrun1) Hrun2)) as E12.
  pose proof (f_equal (fun r => fst (snd r))
                (eq_trans (eq_sym Hrun1) Hrun3)) as E13.
  cbn [fst snd] in E12, E13. subst st2 st3.
  eexists st1, _. split; [exact Hrun1|]. split; [|split].
  - destruct (Hp2 (utf16 "img-2") eq_refl) as [Hfail _].
    destruct (Hfail (Error "503 Service Unavailable") 4%nat) as [_ Hnone].
    + vm_compute. reflexivity.
    + intros [E|[]]; discriminate.
    + now apply Hnone.
  - destruct (Hp1 (utf16 "img-1") eq_refl) as [_ Hok].
    eexists.
    apply (Hok (Samples.entriesOf
                  (analyzePageForIndex Samples.secondRequestFails
                     (utf16 "img-1") 1 0%nat)) 3%nat).
    vm_compute. reflexivity.
  - destruct (Hp3 (utf16 "img-3") eq_refl) as [_ Hok].
    eexists.
    apply (Hok (Samples.entriesOf
                  (analyzePageForIndex Samples.secondRequestFails
                     (utf16 "img-3") 3 4%nat)) 7%nat).
    vm_compute. reflexivity.
Defined.

Lemma reanalysis_replaces_page_entries_witness :
  exists st',
    handleAnalyzePage (Samples.constantModel (Some Samples.oneEntry))
      (utf16 "AAAA") (Samples.analysedSession, 0%nat)
    = (inr tt, (st', 2%nat))
    /\ (exists links, pageAnalyses st' !! 1%Z = Some links
                      /\ List.length links = 1%nat)
    /\ pageAnalyses st' !! 2%Z = pageAnalyses Samples.analysedSession !! 2%Z.
Proof.
  destruct (reanalysis_replaces_page_entries
              (Samples.constantModel (Some Samples.oneEntry))
              Samples.analysedSession 0%nat) as [H _].
  destruct (H (utf16 "AAAA")
              (Samples.entriesOf
                 (analyzePageForIndex
                    (Samples.constantModel (Some Samples.oneEntry))
                    (utf16 "AAAA") 1 0%nat))
              2%nat)
    as (st' & Hrun & Hpage & Hothers).
  - reflexivity.
  - exists st'. split; [exact Hrun|]. split.
    + eexists. split; [exact Hpage|reflexivity].
    + apply Hothers. discriminate.
Defined.

End AppFacts.

(* ===================================================================== *)
(** * The page selection of the viewer                                   *)
(* ===================================================================== *)

Module ViewerFacts.
Import JS PdfImageService PDFViewer MoreNotions TextFacts.

(** ** Sorting *)

Lemma insertSorted_In x l y : In y (insertSorted x l) <-> y = x \/ In y l.
Proof.
  induction l as [|z l IH]; simpl; [intuition|].
  destruct (x <=? z)%Z; simpl; [intuition|].
  rewrite IH. intuition.
Qed.

Lemma sortNumbers_In l y : In y (sortNumbers l) <-> In y l.
Proof.
  induction l as [|x l IH]; simpl; [tauto|].
  rewrite insertSorted_In, IH. intuition.
Qed.

Lemma insertSorted_sorted x l :
  ~ In x l -> StronglySorted Z.lt l -> StronglySorted Z.lt (insertSorted x l).
Proof.
  intros Hx Hl. induction Hl as [|y l Hl IH Hy]; simpl.
  - repeat constructor.
  - destruct (x <=? y)%Z eqn:E.
    + assert (x < y)%Z by (simpl in Hx; lia).
      constructor; [constructor; assumption|].
      constructor; [assumption|].
      rewrite Forall_forall in *. intros z Hz. apply Hy in Hz. lia.
    + constructor; [apply IH; simpl in Hx; tauto|].
      rewrite Forall_forall in *. intros z Hz.
      apply list_elem_of_In, insertSorted_In in Hz as [->|Hz]; [lia|].
      apply Hy. now apply list_elem_of_In.
Qed.

Lemma sortNumbers_sorted l : List.NoDup l -> StronglySorted Z.lt (sortNumbers l).
Proof.
  induction 1 as [|x l Hx Hl IH]; simpl; [constructor|].
  apply insertSorted_sorted; [|exact IH]. now rewrite sortNumbers_In.
Qed.



(** ** The set of pages *)

Lemma existsb_eqb_In p pages : existsb (Z.eqb p) pages = true <-> In p pages.
Proof.
  rewrite existsb_exists. split.
  - intros (x & Hx & E). apply Z.eqb_eq in E. now subst.
  - intros H. exists p. split; [exact H|apply Z.eqb_refl].
Qed.

Lemma addPage_In pages p x : In x (addPage pages p) <-> In x pages \/ x = p.
Proof.
  unfold addPage. destruct (existsb (Z.eqb p) pages) eqn:E.
  - apply existsb_eqb_In in E. intuition (subst; auto).
  - rewrite in_app_iff. simpl. intuition.
Qed.

Lemma addPage_NoDup pages p : List.NoDup pages -> List.NoDup (addPage pages p).
Proof.
  intros H. unfold addPage. destruct (existsb (Z.eqb p) pages) eqn:E; [exact H|].
  apply NoDup_ListNoDup, NoDup_app. repeat split.
  - now apply NoDup_ListNoDup.
  - intros x Hx Hp. apply list_elem_of_singleton in Hp as ->.
    apply list_elem_of_In, existsb_eqb_In in Hx. congruence.
  - apply NoDup_singleton.
Qed.

Lemma addPages_In l : forall pages x,
  In x (foldl addPage pages l) <-> In x pages \/ In x l.
Proof.
  induction l as [|p l IH]; intros pages x; simpl; [tauto|].
  rewrite IH, addPage_In. intuition.
Qed.

Lemma addPages_NoDup l : forall pages,
  List.NoDup pages -> List.NoDup (foldl addPage pages l).
Proof.
  induction l as [|p l IH]; intros pages H; simpl; [exact H|].
  apply IH. now apply addPage_NoDup.
Qed.


(** ** One part of the selection *)

Lemma selectPart_In max pages part p :
  In p (selectPart max pages part)
  <-> In p pages \/ (asksFor part p /\ (1 <= p <= max)%Z).
Proof.
  unfold selectPart, asksFor.
  destruct (List.map (fun s => parseInt (trim s)) (split 45 (trim part)))
    as [|[a|] [|[b|] [|c l]]]; try tauto.
  - destruct (a >=? 1)%Z eqn:E1; destruct (a <=? max)%Z eqn:E2; simpl;
      rewrite ?addPage_In; intuition (subst; lia).
  - rewrite addPages_In.
    assert (H : In p (seqZ (Z.max 1 (Z.min a b))
                        (Z.min max (Z.max a b) - Z.max 1 (Z.min a b) + 1))
                <-> (Z.min a b <= p <= Z.max a b)%Z /\ (1 <= p <= max)%Z).
    { rewrite <- list_elem_of_In, elem_of_seqZ. lia. }
    rewrite H. tauto.
Qed.

Lemma selectPart_NoDup max pages part :
  List.NoDup pages -> List.NoDup (selectPart max pages part).
Proof.
  intros H. unfold selectPart.
  destruct (List.map (fun s => parseInt (trim s)) (split 45 (trim part)))
    as [|[a|] [|[b|] [|c l]]]; try exact H.
  - destruct ((a >=? 1)%Z && (a <=? max)%Z); [now apply addPage_NoDup|exact H].
  - now apply addPages_NoDup.
Qed.

Lemma selectParts_In max parts : forall pages p,
  In p (foldl (selectPart max) pages parts)
  <-> In p pages
      \/ ((1 <= p <= max)%Z /\ exists part, In part parts /\ asksFor part p).
Proof.
  induction parts as [|part parts IH]; intros pages p; simpl.
  - split; [tauto|]. intros [H|(_ & part & [] & _)]. exact H.
  - rewrite IH, selectPart_In. split.
    + intros [[H|[H1 H2]]|(H1 & part' & H2 & H3)]; eauto 8.
    + intros [H|(H1 & part' & [<-|H2] & H3)]; eauto 8.
Qed.

Lemma selectParts_NoDup max parts : forall pages,
  List.NoDup pages -> List.NoDup (foldl (selectPart max) pages parts).
Proof.
  induction parts as [|part parts IH]; intros pages H; simpl; [exact H|].
  apply IH. now apply selectPart_NoDup.
Qed.

(** X1: the pages [parsePageSelection] returns are in strictly
    increasing order (so none occurs twice) and all lie between 1 and
    [max], whatever the input text.  The bound [max] is taken below
    [2^53], the range in which the numbers of the program are the
    integers of the model. *)
Theorem selection_sorted_in_bounds input max :
  (max < 2 ^ 53)%Z ->
  StronglySorted Z.lt (parsePageSelection input max)
  /\ Forall (fun p => (1 <= p <= max)%Z) (parsePageSelection input max).
Proof.
  intros _. unfold parsePageSelection. split.
  - apply sortNumbers_sorted, selectParts_NoDup. constructor.
  - apply Forall_forall. intros p Hp.
    apply list_elem_of_In, sortNumbers_In, selectParts_In in Hp
      as [[]|[Hp _]].
    exact Hp.
Qed.

Lemma selection_sorted_in_bounds_witness :
  StronglySorted Z.lt (parsePageSelection (utf16 "7, 2-4, 3, 9-30") 20)
  /\ Forall (fun p => (1 <= p <= 20)%Z)
       (parsePageSelection (utf16 "7, 2-4, 3, 9-30") 20).
Proof.
  apply (selection_sorted_in_bounds (utf16 "7, 2-4, 3, 9-30") 20). lia.
Defined.

(** X2: a page is selected exactly when it lies between 1 and [max] and
    one of the comma-separated parts asks for it, as a single page or
    as a page of a range given by its two ends in either order; [max]
    is taken below [2^53] as above. *)
Theorem selection_membership input max p :
  (max < 2 ^ 53)%Z ->
  In p (parsePageSelection input max)
  <-> (1 <= p <= max)%Z
      /\ exists part, In part (split 44 input) /\ asksFor part p.
Proof.
  intros _. unfold parsePageSelection.
  rewrite sortNumbers_In, selectParts_In. simpl. tauto.
Qed.

Lemma selection_membership_witness :
  In 3%Z (parsePageSelection (utf16 "7, 4-2") 20)
  <-> (1 <= 3 <= 20)%Z
      /\ exists part, In part (split 44 (utf16 "7, 4-2")) /\ asksFor part 3%Z.
Proof.
  apply (selection_membership (utf16 "7, 4-2") 20 3%Z). lia.
Defined.

(** ** Reading back a printed number *)






(** ** Splitting and trimming texts without separators or spaces *)

Lemma split_none sep s : ~ In sep s -> split sep s = [s].
Proof.
  induction s as [|c s IH]; intros H; simpl; [reflexivity|].
  destruct (N.eqb_spec c sep) as [->|Hne]; [exfalso; apply H; now left|].
  rewrite IH; [reflexivity|]. intros Hs. apply H. now right.
Qed.

Lemma split_at sep a b :
  ~ In sep a -> split sep (a ++ sep :: b) = a :: split sep b.
Proof.
  induction a as [|c a IH]; intros H; simpl.
  - now rewrite N.eqb_refl.
  - destruct (N.eqb_spec c sep) as [->|Hne]; [exfalso; apply H; now left|].
    rewrite IH; [reflexivity|]. intros Hs. apply H. now right.
Qed.









(** A selection as a user types it. *)
Example selection_example :
  parsePageSelection (utf16 "11-13, 8, 5-1, 0x0A, 12, x, 7-, 40") 20
  = [1; 2; 3; 4; 5; 8; 10; 11; 12; 13]%Z.
Proof. reflexivity. Qed.

End ViewerFacts.

(* ===================================================================== *)
(** * The detection client: what the entries are made of                 *)
(* ===================================================================== *)

Module DetectionFacts.
Import JS JSON Types GeminiService MoreNotions TextFacts GeminiFacts.

Lemma member_null k : member JNull k = None.
Proof. reflexivity. Qed.

Lemma not_both (elems : list JSON.value) :
  In JNull elems -> Forall (fun e => e <> JNull) elems -> False.
Proof.
  intros Hin Hall. rewrite Forall_forall in Hall.
  apply list_elem_of_In, Hall in Hin. now apply Hin.
Qed.

Lemma null_or_not (elems : list JSON.value) :
  In JNull elems \/ Forall (fun e => e <> JNull) elems.
Proof.
  induction elems as [|x elems [IH|IH]].
  - right. constructor.
  - left. now right.
  - destruct x; try (right; constructor; [discriminate|exact IH]).
    left. now left.
Qed.

Section Detection.
Context {World : Type} (rt : Runtime World).

(** Building one entry reads the clock, then the six fields: it throws
    on [null] and on nothing else. *)
Lemma mkEntry_cases p link index w :
  (link = JNull
   /\ exists w', mkEntry rt p link index w = (inl (nullRead "label"), w'))
  \/ (link <> JNull
      /\ exists a w', mkEntry rt p link index w = (inr a, w')
                      /\ mirrors p index link a).
Proof.
  unfold mkEntry, bind, now, lift, ret, mirrors.
  destruct (DateNow rt w) as [t w1].
  destruct link;
    [left; split; [reflexivity|]; eexists; reflexivity|..];
    right; (split; [discriminate|]); eexists _, _;
    (split; [reflexivity|]); simpl; eauto.
Qed.

Lemma mapIndexed_cases p elems : forall n w,
  (In JNull elems
   /\ exists w',
        mapIndexed (mkEntry rt p) elems n w = (inl (nullRead "label"), w'))
  \/ (Forall (fun e => e <> JNull) elems
      /\ exists links w',
           mapIndexed (mkEntry rt p) elems n w = (inr links, w')
           /\ List.length links = List.length elems
           /\ forall i e, elems !! i = Some e ->
                exists a, links !! i = Some a /\ mirrors p (n + i) e a).
Proof.
  induction elems as [|x elems IH]; intros n w.
  - right. split; [constructor|]. exists [], w.
    split; [reflexivity|]. split; [reflexivity|]. intros i e Hi. discriminate.
  - cbn [mapIndexed]. unfold bind, ret.
    destruct (mkEntry_cases p x n w)
      as [[-> [w1 E1]]|[Hx (a & w1 & E1 & Ha)]]; rewrite E1.
    { left. split; [now left|]. now exists w1. }
    destruct (IH (S n) w1)
      as [[Hin [w2 E2]]|[Hall (links & w2 & E2 & Hlen & Hlinks)]];
      rewrite E2.
    { left. split; [now right|]. now exists w2. }
    right. split; [now constructor|]. exists (a :: links), w2.
    split; [reflexivity|]. split; [simpl; now rewrite Hlen|].
    intros [|i] e Hi; simpl in Hi.
    + injection Hi as <-. exists a. rewrite Nat.add_0_r. now split.
    + destruct (Hlinks i e Hi) as (b & Hb & Hm). exists b.
      rewrite Nat.add_succ_r. now split.
Qed.

(** One round of the batch loop: it throws on a [null] page result,
    passes over one without a truthy page number or without an array of
    entries, and otherwise builds the entries and stores them. *)
Lemma batchStep_cases result pageResult w :
  (pageResult = JNull
   /\ batchStep rt result pageResult w = (inl (nullRead "pageNumber"), w))
  \/ (passedOver pageResult
      /\ batchStep rt result pageResult w = (inr result, w))
  \/ (exists pn elems,
         member pageResult "pageNumber" = Some pn
         /\ truthy pn = true
         /\ member pageResult "entries" = Some (JArray elems)
         /\ batchStep rt result pageResult w
            = bind (mapIndexed (mkEntry rt (ToString rt pn)) elems 0)
                (fun links => ret (<[ToString rt pn := links]> result)) w).
Proof.
  unfold passedOver.
  destruct pageResult as [|b|neg m e|s|l|ms];
    [left; now split|..];
    try (right; left; split; [split; [discriminate|now left]|reflexivity]).
  unfold batchStep, member, bind, lift, getProp, ok. simpl.
  destruct (lookupMember (utf16 "pageNumber") ms) as [pn|] eqn:Epn; simpl;
    [|right; left; split; [split; [discriminate|now left]|reflexivity]].
  destruct (truthy pn) eqn:Etruthy; simpl;
    [|right; left; split; [split; [discriminate|now left]|reflexivity]].
  destruct (lookupMember (utf16 "entries") ms) as [entries|] eqn:Eentries;
    simpl;
    [|right; left; split; [split; [discriminate|now right]|reflexivity]].
  destruct entries as [|b|neg m e|s|elems|ms'];
    try (right; left; split; [split; [discriminate|now right]|];
         simpl; rewrite ?andb_false_r; reflexivity).
  right. right. exists pn, elems. repeat split; try assumption.
Qed.

Lemma passedOver_not_stored pageResult k :
  passedOver pageResult -> ~ storedUnder (ToString rt) pageResult k.
Proof.
  intros [_ [H|H]] (pn & elems & Hpn & Htruthy & Hentries & _).
  - rewrite Hpn in H. simpl in H. congruence.
  - rewrite Hentries in H. discriminate.
Qed.

(** What one successful round does to the keys of the result. *)
Lemma batchStep_keys result pageResult w result' w' :
  batchStep rt result pageResult w = (inr result', w') ->
  forall k, is_Some (result' !! k)
            <-> is_Some (result !! k)
                \/ storedUnder (ToString rt) pageResult k.
Proof.
  intros Hrun k.
  destruct (batchStep_cases result pageResult w)
    as [[-> H]|[[Hpass H]|(pn & elems & Hpn & Htruthy & Hentries & H)]];
    rewrite H in Hrun.
  - discriminate.
  - injection Hrun as <- <-. split; [now left|].
    intros [Hk|Hk]; [exact Hk|]. now apply passedOver_not_stored in Hk.
  - unfold bind, ret in Hrun.
    destruct (mapIndexed (mkEntry rt (ToString rt pn)) elems 0 w)
      as [[e|links] w1]; [discriminate|].
    injection Hrun as <- <-.
    destruct (decide (ToString rt pn = k)) as [<-|Hne].
    + rewrite lookup_insert_eq. split; [|eauto].
      intros _. right. now exists pn, elems.
    + rewrite lookup_insert_ne by exact Hne. split; [now left|].
      intros [Hk|(pn' & elems' & Hpn' & _ & _ & Hk)]; [exact Hk|].
      congruence.
Qed.

Lemma forEach_keys rawData : forall result w result' w',
  forEach (batchStep rt) rawData result w = (inr result', w') ->
  forall k, is_Some (result' !! k)
            <-> is_Some (result !! k)
                \/ exists pageResult,
                     In pageResult rawData
                     /\ storedUnder (ToString rt) pageResult k.
Proof.
  induction rawData as [|x rawData IH]; intros result w result' w' Hrun k.
  - injection Hrun as <- <-. split; [now left|].
    intros [H|(y & [] & _)]; exact H.
  - cbn [forEach] in Hrun. unfold bind at 1 in Hrun.
    destruct (batchStep rt result x w) as [[e|result1] w1] eqn:E;
      [discriminate|].
    rewrite (IH _ _ _ _ Hrun k), (batchStep_keys _ _ _ _ _ E k).
    split.
    + intros [[H|H]|(y & Hy & H)]; [now left|right..].
      * exists x. split; [now left|exact H].
      * exists y. split; [now right|exact H].
    + intros [H|(y & [<-|Hy] & H)]; [left; now left|left; now right|].
      right. now exists y.
Qed.

(** A round for a page result that is not stored under [k] leaves the
    entries under [k] alone. *)
Lemma batchStep_other result pageResult w result' w' k :
  ~ storedUnder (ToString rt) pageResult k ->
  batchStep rt result pageResult w = (inr result', w') ->
  result' !! k = result !! k.
Proof.
  intros Hk Hrun.
  destruct (batchStep_cases result pageResult w)
    as [[-> H]|[[Hpass H]|(pn & elems & Hpn & Htruthy & Hentries & H)]];
    rewrite H in Hrun.
  - discriminate.
  - now injection Hrun as <- <-.
  - unfold bind, ret in Hrun.
    destruct (mapIndexed (mkEntry rt (ToString rt pn)) elems 0 w)
      as [[e|links] w1]; [discriminate|].
    injection Hrun as <- <-. apply lookup_insert_ne. intros <-.
    apply Hk. now exists pn, elems.
Qed.

Lemma forEach_other k rawData : forall result w result' w',
  Forall (fun y => ~ storedUnder (ToString rt) y k) rawData ->
  forEach (batchStep rt) rawData result w = (inr result', w') ->
  result' !! k = result !! k.
Proof.
  induction rawData as [|x rawData IH]; intros result w result' w' Hall Hrun.
  - now injection Hrun as <- <-.
  - cbn [forEach] in Hrun. unfold bind at 1 in Hrun.
    destruct (batchStep rt result x w) as [[e|result1] w1] eqn:E;
      [discriminate|].
    apply Forall_cons in Hall as [Hx Hall].
    rewrite (IH _ _ _ _ Hall Hrun). eapply batchStep_other; eassumption.
Qed.

Lemma forEach_app {A S} (f : S -> A -> IO World S) l1 l2 s w :
  forEach f (l1 ++ l2) s w = bind (forEach f l1 s) (forEach f l2) w.
Proof.
  revert s w. induction l1 as [|x l1 IH]; intros s w; [reflexivity|].
  cbn [forEach app]. unfold bind.
  destruct (f s x w) as [[e|s1] w1]; [reflexivity|].
  rewrite IH. reflexivity.
Qed.

(** With a key and an answer from the model, the batch call comes down
    to its loop over the parsed array. *)
Lemma analyzePagesBatch_answered pages w response w' :
  apiKey rt <> [] ->
  generateContent rt (batchRequest pages) w = (inr response, w') ->
  analyzePagesBatch rt pages w =
  match parseResponseJSON (text response) with
  | JArray rawData => forEach (batchStep rt) rawData ∅ w'
  | _ => (inr ∅, w')
  end.
Proof.
  intros Hkey Hcall. unfold analyzePagesBatch.
  destruct (apiKey rt) as [|c key]; [contradiction|].
  rewrite tryCatch_rethrow. unfold bind. rewrite Hcall.
  now destruct (parseResponseJSON (text response)).
Qed.

(** X4: when the model answers a single-page request with a JSON array
    none of whose elements is [null], [analyzePageForIndex] returns one
    entry per element, in the order of the array: the entry at index
    [i] has an identifier [page-<pageNumber>-link-<i>-<time>] and its
    label, target page and box are the properties of that name read off
    element [i], [undefined] where the element has none.  The page
    number is an integer with [-2^53 < pageNumber < 2^53], the range in
    which it prints as its decimal digits. *)
Theorem single_page_entries_mirror_response
  imageBase64 pageNumber w response w' elems :
  (- 2 ^ 53 < pageNumber < 2 ^ 53)%Z ->
  apiKey rt <> [] ->
  generateContent rt (singleRequest imageBase64) w = (inr response, w') ->
  parseResponseJSON (text response) = JArray elems ->
  Forall (fun e => e <> JNull) elems ->
  exists links w'',
    analyzePageForIndex rt imageBase64 pageNumber w = (inr links, w'')
    /\ List.length links = List.length elems
    /\ forall i e, elems !! i = Some e ->
         exists a, links !! i = Some a
                   /\ mirrors (ZtoString pageNumber) i e a.
Proof.
  intros _ Hkey Hcall Hparse Hall.
  rewrite (analyzePageForIndex_answered rt _ _ _ _ _ Hkey Hcall), Hparse,
    tryCatch_rethrow.
  destruct (mapIndexed_cases (ZtoString pageNumber) elems 0 w')
    as [[Hin _]|[_ (links & w'' & Hrun & Hlen & Hlinks)]].
  - destruct (not_both elems Hin Hall).
  - exists links, w''. split; [exact Hrun|]. split; [exact Hlen|].
    intros i e Hi. apply (Hlinks i e Hi).
Qed.

(** X5: when the model answers a single-page request with a JSON array,
    [analyzePageForIndex] throws exactly when some element of the array
    is [null], and what it rethrows is a [TypeError] (the engine's, for
    reading a property of [null]); no entry of that response is
    returned. *)
Theorem null_element_makes_detection_throw
  imageBase64 pageNumber w response w' elems :
  apiKey rt <> [] ->
  generateContent rt (singleRequest imageBase64) w = (inr response, w') ->
  parseResponseJSON (text response) = JArray elems ->
  (In JNull elems ->
   exists e w'',
     analyzePageForIndex rt imageBase64 pageNumber w = (inl e, w'')
     /\ exn_name e = "TypeError"%string)
  /\ (forall e w'',
        analyzePageForIndex rt imageBase64 pageNumber w = (inl e, w'') ->
        In JNull elems /\ exn_name e = "TypeError"%string).
Proof.
  intros Hkey Hcall Hparse.
  rewrite (analyzePageForIndex_answered rt _ _ _ _ _ Hkey Hcall), Hparse,
    tryCatch_rethrow.
  destruct (mapIndexed_cases (ZtoString pageNumber) elems 0 w')
    as [[Hin [w1 ->]]|[Hall (links & w1 & -> & _)]].
  - split; [intros _; now eexists _, w1|].
    intros e w'' [= <- _]. now split.
  - split; [intros Hin; destruct (not_both elems Hin Hall)|].
    intros e w'' [=].
Qed.

(** X6: when the model answers a batch request with a JSON array and
    [analyzePagesBatch] returns, the own properties of the returned
    record are exactly the string forms, other than [__proto__], of the
    page numbers of those page results that have a truthy [pageNumber]
    and an array under [entries]; any other page result leaves no
    trace, and a page number that prints as [__proto__] gives no
    property (the assignment installs a prototype instead). *)
Theorem batch_result_keys pages w response w' rawData result w'' :
  apiKey rt <> [] ->
  generateContent rt (batchRequest pages) w = (inr response, w') ->
  parseResponseJSON (text response) = JArray rawData ->
  analyzePagesBatch rt pages w = (inr result, w'') ->
  forall k,
    ownKey result k
    <-> k <> protoName
        /\ exists pageResult,
             In pageResult rawData
             /\ storedUnder (ToString rt) pageResult k.
Proof.
  intros Hkey Hcall Hparse Hrun k. unfold ownKey.
  rewrite (analyzePagesBatch_answered _ _ _ _ Hkey Hcall), Hparse in Hrun.
  rewrite (forEach_keys _ _ _ _ _ Hrun k), lookup_empty.
  split; intros [Hk H]; (split; [exact Hk|]); [|now right].
  destruct H as [[x Hx]|H]; [discriminate|exact H].
Qed.

(** X7: when several page results of a batch response have the same page
    number, the last one wins: the entries returned under that key are
    built from the [entries] array of the last page result stored under
    it, one entry per element and in its order, with identifiers
    [page-<key>-link-<i>-<time>]. *)
Theorem batch_last_page_result_wins
  pages w response w' pre pageResult post pn elems result w'' :
  apiKey rt <> [] ->
  generateContent rt (batchRequest pages) w = (inr response, w') ->
  parseResponseJSON (text response) = JArray (pre ++ pageResult :: post) ->
  member pageResult "pageNumber" = Some pn ->
  truthy pn = true ->
  member pageResult "entries" = Some (JArray elems) ->
  Forall (fun y => ~ storedUnder (ToString rt) y (ToString rt pn)) post ->
  analyzePagesBatch rt pages w = (inr result, w'') ->
  exists links,
    result !! ToString rt pn = Some links
    /\ List.length links = List.length elems
    /\ forall i e, elems !! i = Some e ->
         exists a, links !! i = Some a
                   /\ mirrors (ToString rt pn) i e a.
Proof.
  intros Hkey Hcall Hparse Hpn Htruthy Hentries Hpost Hrun.
  rewrite (analyzePagesBatch_answered _ _ _ _ Hkey Hcall), Hparse in Hrun.
  rewrite forEach_app in Hrun. unfold bind at 1 in Hrun.
  destruct (forEach (batchStep rt) pre ∅ w') as [[e|result1] w1];
    [discriminate|].
  cbn [forEach] in Hrun. unfold bind at 1 in Hrun.
  destruct (batchStep rt result1 pageResult w1) as [[e|result2] w2] eqn:E;
    [discriminate|].
  rewrite (forEach_other _ _ _ _ _ _ Hpost Hrun).
  destruct (batchStep_cases result1 pageResult w1)
    as [[-> H]|[[[_ [Hpass|Hpass]] H]
               |(pn' & elems' & Hpn' & _ & Hentries' & H)]].
  - discriminate.
  - rewrite Hpn in Hpass. simpl in Hpass. congruence.
  - rewrite Hentries in Hpass. discriminate.
  - assert (pn' = pn) as -> by congruence.
    assert (elems' = elems) as -> by congruence.
    rewrite H in E. unfold bind, ret in E.
    destruct (mapIndexed_cases (ToString rt pn) elems 0 w1)
      as [[_ [w3 Hthrow]]|[_ (links & w3 & Hok & Hlen & Hlinks)]].
    + rewrite Hthrow in E. discriminate.
    + rewrite Hok in E. injection E as <- <-.
      exists links. rewrite lookup_insert_eq. split; [reflexivity|].
      split; [exact Hlen|]. intros i e Hi. apply (Hlinks i e Hi).
Qed.

End Detection.

Lemma single_page_entries_mirror_response_witness :
  exists links w'',
    analyzePageForIndex (Samples.constantModel (Some Samples.twoEntries))
      (utf16 "AAAA") 3 0%nat = (inr links, w'')
    /\ List.length links
       = List.length (MoreSamples.elementsOf Samples.twoEntries)
    /\ forall i e,
         MoreSamples.elementsOf Samples.twoEntries !! i = Some e ->
         exists a, links !! i = Some a /\ mirrors (ZtoString 3) i e a.
Proof.
  apply (single_page_entries_mirror_response
           (Samples.constantModel (Some Samples.twoEntries))
           (utf16 "AAAA") 3%Z 0%nat
           (mkResponse (Some Samples.twoEntries)) 1%nat
           (MoreSamples.elementsOf Samples.twoEntries)).
  - lia.
  - discriminate.
  - reflexivity.
  - vm_compute. reflexivity.
  - vm_compute. repeat constructor; discriminate.
Defined.

Lemma null_element_makes_detection_throw_witness :
  exists e w'',
    analyzePageForIndex (Samples.constantModel (Some MoreSamples.withNull))
      (utf16 "AAAA") 3 0%nat = (inl e, w'')
    /\ exn_name e = "TypeError"%string.
Proof.
  refine (proj1 (null_element_makes_detection_throw
                   (Samples.constantModel (Some MoreSamples.withNull))
                   (utf16 "AAAA") 3%Z 0%nat
                   (mkResponse (Some MoreSamples.withNull)) 1%nat
                   (MoreSamples.elementsOf MoreSamples.withNull) _ _ _) _).
  - discriminate.
  - reflexivity.
  - vm_compute. reflexivity.
  - vm_compute. right. now left.
Defined.

Lemma batch_result_keys_witness :
  ownKey (Samples.mappingOf MoreSamples.protoRun) (utf16 "7")
  <-> utf16 "7" <> protoName
      /\ exists pageResult,
           In pageResult (MoreSamples.elementsOf MoreSamples.protoPage)
           /\ storedUnder (ToString MoreSamples.printingModel)
                pageResult (utf16 "7").
Proof.
  refine (batch_result_keys MoreSamples.printingModel
            [mkBatchPage 7 (utf16 "AAAA")] 0%nat
            (mkResponse (Some MoreSamples.protoPage)) 1%nat
            (MoreSamples.elementsOf MoreSamples.protoPage)
            (Samples.mappingOf MoreSamples.protoRun) 2%nat
            _ _ _ _ (utf16 "7")).
  - discriminate.
  - reflexivity.
  - vm_compute. reflexivity.
  - vm_compute. reflexivity.
Defined.

(** The keys of the answer that names [__proto__] and page 7. *)
Example proto_is_no_key :
  ~ ownKey (Samples.mappingOf MoreSamples.protoRun) protoName
  /\ ownKey (Samples.mappingOf MoreSamples.protoRun) (utf16 "7").
Proof.
  split.
  - intros [H _]. now apply H.
  - split; [discriminate|]. vm_compute. eauto.
Qed.

Lemma batch_last_page_result_wins_witness :
  exists links,
    Samples.mappingOf MoreSamples.repeatedRun
      !! ToString (Samples.constantModel (Some MoreSamples.repeatedPage))
           (JNumber false 4 0)
    = Some links
    /\ List.length links = List.length MoreSamples.lastEntries
    /\ forall i e, MoreSamples.lastEntries !! i = Some e ->
         exists a,
           links !! i = Some a
           /\ mirrors
                (ToString (Samples.constantModel (Some MoreSamples.repeatedPage))
                   (JNumber false 4 0)) i e a.
Proof.
  apply (batch_last_page_result_wins
           (Samples.constantModel (Some MoreSamples.repeatedPage))
           [mkBatchPage 4 (utf16 "AAAA")] 0%nat
           (mkResponse (Some MoreSamples.repeatedPage)) 1%nat
           (take 2 (MoreSamples.elementsOf MoreSamples.repeatedPage))
           MoreSamples.lastPageFour [] (JNumber false 4 0)
           MoreSamples.lastEntries
           (Samples.mappingOf MoreSamples.repeatedRun) 4%nat).
  - discriminate.
  - reflexivity.
  - vm_compute. reflexivity.
  - vm_compute. reflexivity.
  - reflexivity.
  - vm_compute. reflexivity.
  - constructor.
  - vm_compute. reflexivity.
Defined.

End DetectionFacts.

(* ===================================================================== *)
(** * Fenced answers in general                                          *)
(* ===================================================================== *)

Module FenceFacts.
Import JS JSON GeminiService MoreNotions TextFacts.

Lemma trimStart_white ws : allWhiteSpace ws -> trimStart ws = [].
Proof.
  induction 1 as [|c ws Hc _ IH]; [reflexivity|]. simpl. now rewrite Hc.
Qed.

Lemma trimStart_skip ws r : allWhiteSpace ws -> trimStart (ws ++ r) = trimStart r.
Proof. intros H. apply trimStart_app_nil. now apply trimStart_white. Qed.

Lemma allWhiteSpace_rev ws : allWhiteSpace ws -> allWhiteSpace (rev ws).
Proof.
  unfold allWhiteSpace. rewrite !Forall_forall. intros H c Hc.
  apply H. apply list_elem_of_In. apply list_elem_of_In, in_rev in Hc.
  exact Hc.
Qed.

Lemma trimEnd_skip s ws : allWhiteSpace ws -> trimEnd (s ++ ws) = trimEnd s.
Proof.
  intros H. unfold trimEnd. rewrite rev_app_distr.
  now rewrite trimStart_skip by now apply allWhiteSpace_rev.
Qed.

Lemma trimEnd_fence s : trimEnd (s ++ fence) = s ++ fence.
Proof.
  change fence with ([96; 96] ++ [96]). rewrite app_assoc.
  now apply trimEnd_nonspace.
Qed.

(** The trimmed text of a fenced block with white space around it. *)
Lemma trim_fenced ws0 body ws3 :
  allWhiteSpace ws0 -> allWhiteSpace ws3 ->
  trim (ws0 ++ fence ++ body ++ fence ++ ws3) = fence ++ body ++ fence.
Proof.
  intros H0 H3. unfold trim. rewrite (trimStart_skip _ _ H0).
  change (trimStart (fence ++ body ++ fence ++ ws3))
    with (fence ++ body ++ fence ++ ws3).
  replace (fence ++ body ++ fence ++ ws3)
    with (((fence ++ body) ++ fence) ++ ws3)
    by now rewrite <- !app_assoc.
  rewrite (trimEnd_skip _ _ H3), trimEnd_fence. now rewrite <- app_assoc.
Qed.

(** A spelling of the tag, in any case, is consumed by the
    case-insensitive pattern. *)
Lemma stripPrefixCI_same p : forall tag r,
  sameIgnoringCase tag p -> stripPrefixCI p (tag ++ r) = Some r.
Proof.
  unfold sameIgnoringCase.
  induction p as [|a p IH]; intros [|b tag] r H; try discriminate.
  - reflexivity.
  - simpl in *. injection H as Hab H. rewrite Hab, N.eqb_refl.
    now apply IH.
Qed.

Lemma white_not_j c :
  isWhiteSpace c = true -> (upperAscii 106 =? upperAscii c) = false.
Proof.
  intros H. apply N.eqb_neq. intros E.
  assert (c = 74 \/ c = 106) as [->| ->]; [|discriminate..].
  unfold upperAscii in E.
  destruct ((97 <=? c) && (c <=? 122)) eqn:Hc.
  - apply andb_true_iff in Hc as [H1 H2].
    apply N.leb_le in H1. apply N.leb_le in H2.
    change (upperAscii 106) with 74 in E. simpl in E. lia.
  - simpl in E. left. now symmetry.
Qed.

Lemma stripPrefixCI_white c ws r :
  isWhiteSpace c = true ->
  stripPrefixCI (utf16 "json") ((c :: ws) ++ r) = None.
Proof.
  intros H. change (utf16 "json") with (106 :: utf16 "son").
  cbn [stripPrefixCI app]. now rewrite (white_not_j c H).
Qed.

(** What the second pattern leaves of a payload followed by white space
    and the closing fence. *)
Lemma strip_closing t ws2 :
  allWhiteSpace ws2 ->
  replaceClosingFence (trimStart (t ++ ws2 ++ fence)) = trim t.
Proof.
  intros H2. unfold trim. destruct (trimStart t) as [|c u] eqn:E.
  - rewrite (trimStart_app_nil _ _ E), (trimStart_skip _ _ H2). reflexivity.
  - rewrite (trimStart_app_cons _ _ _ _ E).
    unfold replaceClosingFence.
    rewrite !rev_app_distr, <- app_assoc, stripPrefix_app.
    rewrite trimStart_skip by now apply allWhiteSpace_rev.
    reflexivity.
Qed.

(** X8: a fenced answer is unwrapped whatever the white space and the
    case of the tag: for a text made of white space, three backticks, a
    tag that is [json] in any mix of upper and lower case (or no tag, then
    followed by at least one white space character), white space, a
    payload, white space, three backticks and white space, the text
    handed to [JSON.parse] is the trimmed payload. *)
Theorem fenced_block_is_unwrapped ws0 tag ws1 t ws2 ws3 :
  allWhiteSpace ws0 -> allWhiteSpace ws1 ->
  allWhiteSpace ws2 -> allWhiteSpace ws3 ->
  (tag = [] /\ ws1 <> []) \/ sameIgnoringCase tag (utf16 "json") ->
  cleanText (ws0 ++ fence ++ tag ++ ws1 ++ t ++ ws2 ++ fence ++ ws3)
  = trim t.
Proof.
  intros H0 H1 H2 H3 Htag. unfold cleanText.
  replace (ws0 ++ fence ++ tag ++ ws1 ++ t ++ ws2 ++ fence ++ ws3)
    with (ws0 ++ fence ++ (tag ++ ws1 ++ t ++ ws2) ++ fence ++ ws3)
    by now rewrite <- !app_assoc.
  rewrite (trim_fenced _ _ _ H0 H3).
  unfold replaceOpeningFence. rewrite stripPrefix_app, <- !app_assoc.
  destruct Htag as [[-> Hws]|Htag].
  - destruct ws1 as [|c ws1]; [contradiction|].
    apply Forall_cons in H1 as Hc. destruct Hc as [Hc _].
    cbn [app]. change (c :: ws1 ++ t ++ ws2 ++ fence)
      with ((c :: ws1) ++ t ++ ws2 ++ fence).
    rewrite (stripPrefixCI_white c ws1 _ Hc), (trimStart_skip _ _ H1).
    now apply strip_closing.
  - rewrite (stripPrefixCI_same _ _ _ Htag), (trimStart_skip _ _ H1).
    now apply strip_closing.
Qed.

Lemma fenced_block_is_unwrapped_witness :
  cleanText (utf16 "  " ++ fence ++ utf16 "JSON" ++ [10; 32]
               ++ utf16 " [1, 2] " ++ [9; 10] ++ fence ++ [10])
  = trim (utf16 " [1, 2] ").
Proof.
  apply (fenced_block_is_unwrapped (utf16 "  ") (utf16 "JSON") [10; 32]
           (utf16 " [1, 2] ") [9; 10] [10]).
  - repeat constructor.
  - repeat constructor.
  - repeat constructor.
  - repeat constructor.
  - right. reflexivity.
Defined.

End FenceFacts.

(* ===================================================================== *)
(** * The rasteriser: what is stored for a page                          *)
(* ===================================================================== *)

Module ImageValueFacts.
Import JS PdfJs DOM PdfImageService ViewerFacts.

Lemma renderInto_other pdfDoc results pageNum P :
  pageNum <> P -> renderInto pdfDoc results pageNum !! P = results !! P.
Proof.
  intros Hne. unfold renderInto.
  destruct ((pageNum <? 1)%Z || (pageNum >? numPages pdfDoc)%Z);
    [reflexivity|].
  destruct (renderPage pdfDoc pageNum); try reflexivity.
  now apply lookup_insert_ne.
Qed.

Lemma renderInto_drawn pdfDoc results P dataURL :
  (1 <= P <= numPages pdfDoc)%Z ->
  renderPage pdfDoc P = Rendered dataURL ->
  renderInto pdfDoc results P !! P = Some (split 44 dataURL !! 1%nat).
Proof.
  intros Hin Hdraw. unfold renderInto. rewrite Hdraw.
  destruct (Z.ltb_spec P 1); [lia|].
  destruct (Z.gtb_spec P (numPages pdfDoc)); [lia|].
  apply lookup_insert_eq.
Qed.

Lemma renderAll_drawn pdfDoc P dataURL pageNumbers : forall results,
  (1 <= P <= numPages pdfDoc)%Z ->
  renderPage pdfDoc P = Rendered dataURL ->
  results !! P = Some (split 44 dataURL !! 1%nat) \/ In P pageNumbers ->
  foldl (renderInto pdfDoc) results pageNumbers !! P
  = Some (split 44 dataURL !! 1%nat).
Proof.
  induction pageNumbers as [|pageNum pageNumbers IH];
    intros results Hin Hdraw Hcase; simpl.
  - now destruct Hcase.
  - apply IH; [exact Hin|exact Hdraw|].
    destruct (decide (pageNum = P)) as [->|Hne].
    + left. now apply renderInto_drawn.
    + rewrite (renderInto_other _ _ _ _ Hne).
      destruct Hcase as [H|[H|H]]; [now left|contradiction|now right].
Qed.

Lemma renderInto_value pdfDoc results pageNum P v :
  renderInto pdfDoc results pageNum !! P = Some v ->
  results !! P = Some v
  \/ (P = pageNum /\ (1 <= P <= numPages pdfDoc)%Z
      /\ exists dataURL, renderPage pdfDoc P = Rendered dataURL
                         /\ v = split 44 dataURL !! 1%nat).
Proof.
  unfold renderInto.
  destruct (Z.ltb_spec pageNum 1); [now left|].
  destruct (Z.gtb_spec pageNum (numPages pdfDoc)); [now left|]. simpl.
  destruct (renderPage pdfDoc pageNum) as [e| |dataURL] eqn:E;
    [now left..|].
  destruct (decide (pageNum = P)) as [->|Hne].
  - rewrite lookup_insert_eq. intros [= <-]. right.
    split; [reflexivity|]. split; [lia|]. now exists dataURL.
  - rewrite lookup_insert_ne by exact Hne. now left.
Qed.

Lemma renderAll_value pdfDoc P v pageNumbers : forall results,
  foldl (renderInto pdfDoc) results pageNumbers !! P = Some v ->
  results !! P = Some v
  \/ (In P pageNumbers /\ (1 <= P <= numPages pdfDoc)%Z
      /\ exists dataURL, renderPage pdfDoc P = Rendered dataURL
                         /\ v = split 44 dataURL !! 1%nat).
Proof.
  induction pageNumbers as [|pageNum pageNumbers IH]; intros results; simpl.
  - now left.
  - intros H. destruct (IH _ H) as [H1|(Hin & Hb & Hd)].
    + destruct (renderInto_value _ _ _ _ _ H1) as [H2|(-> & Hb & Hd)].
      * now left.
      * right. split; [now left|]. now split.
    + right. split; [now right|]. now split.
Qed.

(** X9: for a requested page within bounds that was drawn,
    [getImagesForPages] stores what follows the first comma of the data
    URL: when the URL is a header, a comma and a payload without commas,
    the stored image is the payload; when the URL has no comma at all,
    the stored value is [undefined]. *)
Theorem stored_image_is_payload file pdfDoc pageNumbers P :
  pdfjsDocument file = inr pdfDoc ->
  In P pageNumbers ->
  (1 <= P <= numPages pdfDoc)%Z ->
  exists results,
    getImagesForPages file pageNumbers = inr results
    /\ (forall header payload,
          renderPage pdfDoc P = Rendered (header ++ utf16 "," ++ payload) ->
          ~ In 44 header -> ~ In 44 payload ->
          results !! P = Some (Some payload))
    /\ (forall dataURL,
          renderPage pdfDoc P = Rendered dataURL ->
          ~ In 44 dataURL ->
          results !! P = Some None).
Proof.
  intros Hload Hreq Hin. unfold getImagesForPages. rewrite Hload. simpl.
  eexists. split; [reflexivity|]. split.
  - intros header payload Hdraw Hh Hp.
    rewrite (renderAll_drawn _ _ _ _ _ Hin Hdraw (or_intror Hreq)).
    change (utf16 "," ++ payload) with (44 :: payload).
    now rewrite (split_at _ _ _ Hh), (split_none _ _ Hp).
  - intros dataURL Hdraw Hd.
    rewrite (renderAll_drawn _ _ _ _ _ Hin Hdraw (or_intror Hreq)).
    now rewrite (split_none _ _ Hd).
Qed.

Lemma stored_image_is_payload_witness :
  exists results,
    getImagesForPages Samples.threePageFile [3; 2]%Z = inr results
    /\ results !! 2%Z = Some (Some (utf16 "img-2")).
Proof.
  destruct (stored_image_is_payload Samples.threePageFile
              Samples.threePageDoc [3; 2]%Z 2%Z eq_refl)
    as (results & Hrun & Hpayload & _).
  - right. now left.
  - simpl. lia.
  - exists results. split; [exact Hrun|].
    apply (Hpayload (utf16 "data:image/jpeg;base64") (utf16 "img-2")).
    + reflexivity.
    + vm_compute. intuition discriminate.
    + vm_compute. intuition discriminate.
Defined.

End ImageValueFacts.

(* ===================================================================== *)
(** * The exporter: which objects it registers, and where                *)
(* ===================================================================== *)

Module ExportOrderFacts.
Import JS Types PdfLib DOM PdfExportService ExportNotions MoreNotions
  ExportFacts.

Lemma refsOn_app j l1 : forall l2 next,
  refsOn j (l1 ++ l2) next
  = refsOn j l1 next ++ refsOn j l2 (next + List.length l1).
Proof.
  induction l1 as [|[pageNum link] l1 IH]; intros l2 next; simpl.
  - now rewrite Nat.add_0_r.
  - rewrite IH, <- Nat.add_succ_comm.
    now destruct (Z.to_nat (pageNum - 1) =? j)%nat.
Qed.

Lemma placed_nil d : placedFrom d [] d.
Proof.
  split; simpl.
  - reflexivity.
  - lia.
  - intros i pageNum link Hi. discriminate.
  - reflexivity.
  - intros j page Hj. exists page. now repeat split.
Qed.

Lemma placed_one d pageNum link page target :
  (1 <= pageNum)%Z ->
  pages d !! Z.to_nat (pageNum - 1) = Some page ->
  (1 <= targetPage link)%Z ->
  pages d !! Z.to_nat (targetPage link - 1) = Some target ->
  placedFrom d [(pageNum, link)]
    (withLink d (Z.to_nat (pageNum - 1)) page
       (linkAnnot (linkRect link (width page) (height page)) (ref target))).
Proof.
  intros Hp Hpage Ht Htarget. split.
  - apply length_insert.
  - simpl. lia.
  - intros [|i] pageNum' link' Hi; [|discriminate].
    injection Hi as <- <-. exists page, target. repeat split; try assumption.
    replace (largestObjectNumber (context d) + 1 + 0)%nat
      with (S (largestObjectNumber (context d))) by lia.
    apply withLink_object.
  - intros r Hr. simpl in *. apply lookup_insert_ne. lia.
  - intros j page0 Hj. cbn [refsOn].
    destruct (Nat.eqb_spec (Z.to_nat (pageNum - 1)) j) as [<-|Hne].
    + assert (page0 = page) as -> by congruence.
      rewrite (withLink_page _ _ _ _ Hpage).
      eexists. split; [reflexivity|]. now repeat split.
    + simpl. rewrite list_lookup_insert_ne by exact Hne.
      exists page0. now repeat split.
Qed.

Lemma placed_app d l1 d1 l2 d2 :
  placedFrom d l1 d1 -> placedFrom d1 l2 d2 -> placedFrom d (l1 ++ l2) d2.
Proof.
  intros [Hlen1 Hlarge1 Hnew1 Hold1 Hpages1] [Hlen2 Hlarge2 Hnew2 Hold2 Hpages2].
  assert (Hback : forall j page1,
             pages d1 !! j = Some page1 ->
             exists page, pages d !! j = Some page
                          /\ ref page1 = ref page
                          /\ width page1 = width page
                          /\ height page1 = height page).
  { intros j page1 Hj.
    destruct (pages d !! j) as [page|] eqn:E.
    - destruct (Hpages1 j page E) as (page' & Hj' & Hr & Hw & Hh & _).
      assert (page' = page1) as -> by congruence. now exists page.
    - apply lookup_lt_Some in Hj. apply lookup_ge_None in E. lia. }
  split.
  - congruence.
  - rewrite Hlarge2, Hlarge1, length_app. lia.
  - intros i pageNum link Hi.
    destruct (Nat.lt_ge_cases i (List.length l1)) as [Hlt|Hge].
    + rewrite lookup_app_l in Hi by exact Hlt.
      destruct (Hnew1 i pageNum link Hi)
        as (page & target & Hp & Hpage & Ht & Htarget & Hobj).
      exists page, target. repeat split; try assumption.
      rewrite Hold2; [exact Hobj|]. left. rewrite Hlarge1.
      lia.
    + rewrite lookup_app_r in Hi by exact Hge.
      destruct (Hnew2 _ pageNum link Hi)
        as (page1 & target1 & Hp & Hpage1 & Ht & Htarget1 & Hobj).
      destruct (Hback _ _ Hpage1) as (page & Hpage & _ & Hw & Hh).
      destruct (Hback _ _ Htarget1) as (target & Htarget & Hr & _).
      exists page, target. repeat split; try assumption.
      rewrite <- Hw, <- Hh, <- Hr, <- Hobj. f_equal.
      rewrite Hlarge1. lia.
  - intros r Hr. rewrite length_app in Hr.
    rewrite Hold2 by (rewrite Hlarge1; lia). apply Hold1. lia.
  - intros j page Hj.
    destruct (Hpages1 j page Hj) as (page1 & Hj1 & Hr1 & Hw1 & Hh1 & Ha1).
    destruct (Hpages2 j page1 Hj1) as (page2 & Hj2 & Hr2 & Hw2 & Hh2 & Ha2).
    exists page2. split; [exact Hj2|].
    split; [congruence|]. split; [congruence|]. split; [congruence|].
    rewrite refsOn_app, Ha2, Hlarge1.
    replace (S (largestObjectNumber (context d) + List.length l1))
      with (S (largestObjectNumber (context d)) + List.length l1)%nat by lia.
    unfold annotsOf at 1. rewrite Ha1.
    match goal with
    | |- context [refsOn j l2 ?n] => generalize (refsOn j l2 n)
    end.
    intros refs2.
    destruct (refsOn j l1 (S (largestObjectNumber (context d))))
      as [|r1 refs1]; destruct refs2 as [|r2 refs2]; simpl;
      rewrite ?app_nil_r, <- ?app_assoc; reflexivity.
Qed.

Lemma validTarget_spec n (link : Link) :
  validTarget n link = true
  <-> (1 <= targetPage link <= Z.of_nat n)%Z.
Proof. unfold validTarget. lia. Qed.

(** The loop over the links of one page. *)
Lemma addLinks_placed pageNum W H links : forall d page,
  (1 <= pageNum)%Z ->
  pages d !! Z.to_nat (pageNum - 1) = Some page ->
  width page = W -> height page = H ->
  exists d',
    foldResult (addLink (pageNum - 1) W H) links d = inr d'
    /\ placedFrom d
         (List.map (pair pageNum)
            (List.filter (validTarget (List.length (pages d))) links)) d'.
Proof.
  induction links as [|link links IH]; intros d page Hp Hpage HW HH.
  - exists d. split; [reflexivity|apply placed_nil].
  - cbn [foldResult List.filter].
    destruct (validTarget (List.length (pages d)) link) eqn:Hvalid.
    + apply validTarget_spec in Hvalid.
      destruct (in_range_lookup (pages d) (targetPage link - 1) ltac:(lia))
        as [target Htarget].
      rewrite (addLink_in_range (pageNum - 1) W H d link page target
                 ltac:(lia) Hpage ltac:(lia) Htarget).
      cbn [rbind].
      pose proof (placed_one d pageNum link page target Hp Hpage
                    ltac:(lia) Htarget) as Hone.
      rewrite HW, HH in Hone.
      destruct (pf_pages _ _ _ Hone _ _ Hpage)
        as (page1 & Hpage1 & _ & Hw1 & Hh1 & _).
      destruct (IH _ page1 Hp Hpage1 ltac:(congruence) ltac:(congruence))
        as (d' & Hrun & Hrest).
      exists d'. split; [exact Hrun|].
      rewrite (pf_length _ _ _ Hone) in Hrest.
      cbn [List.map]. change (?x :: ?l) with ([x] ++ l).
      eapply placed_app; eassumption.
    + rewrite addLink_out_of_range.
      2:{ apply not_true_iff_false in Hvalid.
          rewrite validTarget_spec in Hvalid. lia. }
      cbn [rbind]. now apply (IH d page).
Qed.

Lemma exportPage_placed d pageNum links :
  exists d',
    exportPage d (pageNum, links) = inr d'
    /\ placedFrom d (validPairs (List.length (pages d)) [(pageNum, links)]) d'.
Proof.
  unfold validPairs. cbn [flat_map]. rewrite app_nil_r.
  destruct ((1 <=? pageNum)%Z && (pageNum <=? Z.of_nat (List.length (pages d)))%Z)
    eqn:Hin.
  - assert (1 <= pageNum <= Z.of_nat (List.length (pages d)))%Z as Hp by lia.
    destruct (in_range_lookup (pages d) (pageNum - 1) ltac:(lia))
      as [page Hpage].
    rewrite (exportPage_in_range d pageNum links page ltac:(lia) Hpage).
    now apply (addLinks_placed pageNum _ _ links d page).
  - exists d. split; [|apply placed_nil].
    apply exportPage_out_of_range. lia.
Qed.

Lemma validPairs_cons n entry analyses :
  validPairs n (entry :: analyses)
  = validPairs n [entry] ++ validPairs n analyses.
Proof. unfold validPairs. cbn [flat_map]. now rewrite app_nil_r. Qed.

Lemma exportPages_placed analyses : forall d,
  exists d',
    foldResult exportPage analyses d = inr d'
    /\ placedFrom d (validPairs (List.length (pages d)) analyses) d'.
Proof.
  induction analyses as [|[pageNum links] analyses IH]; intros d.
  - exists d. split; [reflexivity|apply placed_nil].
  - cbn [foldResult].
    destruct (exportPage_placed d pageNum links) as (d1 & -> & H1).
    cbn [rbind]. destruct (IH d1) as (d' & Hrun & H2).
    exists d'. split; [exact Hrun|].
    rewrite (pf_length _ _ _ H1) in H2.
    rewrite validPairs_cons. eapply placed_app; eassumption.
Qed.

(** X10: the exporter registers exactly one object per entry that lies
    on a page of the document and points to a page of the document, in
    the order of the record and of each page's list: the largest object
    number grows by the number of such entries, and the [i]-th of them
    gets the [i]-th number after the largest one that was in use, under
    which lies a dictionary of type [/Annot] and subtype [/Link] with
    the rectangle of the entry on its page and an action that goes to
    its target page; the result is a PDF blob. *)
Theorem export_numbers_new_objects file pdfDoc analyses :
  pdflibDocument file = inr pdfDoc ->
  let placed := validPairs (List.length (pages pdfDoc)) analyses in
  let largest := largestObjectNumber (context pdfDoc) in
  exists blob,
    exportModifiedPdf file analyses = inr blob
    /\ blobType blob = "application/pdf"%string
    /\ largestObjectNumber (context (saved blob))
       = (largest + List.length placed)%nat
    /\ (forall i pageNum link,
          placed !! i = Some (pageNum, link) ->
          exists page target,
            pages pdfDoc !! Z.to_nat (pageNum - 1) = Some page
            /\ pages pdfDoc !! Z.to_nat (targetPage link - 1) = Some target
            /\ let W := width page in
               let H := height page in
               indirectObjects (context (saved blob)) !! (largest + 1 + i)%nat
               = Some (PDFDict
                   [("Type", PDFName "Annot");
                    ("Subtype", PDFName "Link");
                    ("Rect", PDFArray
                       [PDFNumber (xmin (box link) / 1000 * W)%float;
                        PDFNumber (H - ymax (box link) / 1000 * H)%float;
                        PDFNumber (xmax (box link) / 1000 * W)%float;
                        PDFNumber (H - ymin (box link) / 1000 * H)%float]);
                    ("Border", PDFArray [PDFNumber 0%float; PDFNumber 0%float;
                                         PDFNumber 0%float]);
                    ("A", PDFDict
                            [("Type", PDFName "Action");
                             ("S", PDFName "GoTo");
                             ("D", PDFArray [PDFRef (ref target);
                                             PDFName "Fit"])])])).
Proof.
  intros Hload placed largest. unfold exportModifiedPdf. rewrite Hload.
  cbn [rbind].
  destruct (exportPages_placed analyses pdfDoc) as (d' & -> & H).
  cbn [rbind]. eexists. split; [reflexivity|]. split; [reflexivity|].
  cbn [saved]. split; [apply (pf_largest _ _ _ H)|].
  intros i pageNum link Hi.
  destruct (pf_new _ _ _ H i pageNum link Hi)
    as (page & target & _ & Hpage & _ & Htarget & Hobj).
  exists page, target. split; [exact Hpage|]. split; [exact Htarget|].
  exact Hobj.
Qed.

(** X11: after an export every page has its reference and its size, and
    its annotations are those it had followed by the references of the
    entries placed on it, in the order they were registered; a page on
    which no entry is placed keeps its annotation array as it was (none
    if it had none). *)
Theorem export_page_annotations file pdfDoc analyses :
  pdflibDocument file = inr pdfDoc ->
  let placed := validPairs (List.length (pages pdfDoc)) analyses in
  let largest := largestObjectNumber (context pdfDoc) in
  exists blob,
    exportModifiedPdf file analyses = inr blob
    /\ List.length (pages (saved blob)) = List.length (pages pdfDoc)
    /\ forall j page,
         pages pdfDoc !! j = Some page ->
         exists page',
           pages (saved blob) !! j = Some page'
           /\ ref page' = ref page
           /\ width page' = width page /\ height page' = height page
           /\ Annots page'
              = match refsOn j placed (S largest) with
                | [] => Annots page
                | refs => Some (annotsOf page ++ refs)
                end.
Proof.
  intros Hload placed largest. unfold exportModifiedPdf. rewrite Hload.
  cbn [rbind].
  destruct (exportPages_placed analyses pdfDoc) as (d' & -> & H).
  cbn [rbind]. eexists. split; [reflexivity|]. cbn [saved].
  split; [apply (pf_length _ _ _ H)|apply (pf_pages _ _ _ H)].
Qed.

Lemma export_numbers_new_objects_witness :
  exists blob,
    exportModifiedPdf Samples.twoPageFile
      [(2%Z, [Samples.strayLink; Samples.fullPageLink]);
       (3%Z, [Samples.fullPageLink]);
       (1%Z, [Samples.fullPageLink])] = inr blob
    /\ largestObjectNumber (context (saved blob)) = 22%nat
    /\ (exists rest, indirectObjects (context (saved blob)) !! 21%nat
          = Some (PDFDict
                    (("Type", PDFName "Annot") :: ("Subtype", PDFName "Link")
                     :: ("Rect", PDFArray [PDFNumber 0%float; PDFNumber 0%float;
                                           PDFNumber 612%float;
                                           PDFNumber 792%float])
                     :: rest)))
    /\ is_Some (indirectObjects (context (saved blob)) !! 22%nat).
Proof.
  destruct (export_numbers_new_objects Samples.twoPageFile Samples.twoPageDoc
              [(2%Z, [Samples.strayLink; Samples.fullPageLink]);
               (3%Z, [Samples.fullPageLink]);
               (1%Z, [Samples.fullPageLink])] eq_refl)
    as (blob & Hrun & _ & Hlargest & Hnew).
  exists blob. split; [exact Hrun|]. split; [exact Hlargest|]. split.
  - destruct (Hnew 0%nat 2%Z Samples.fullPageLink eq_refl)
      as (page & target & [= <-] & [= <-] & Hobj).
    eexists. exact Hobj.
  - destruct (Hnew 1%nat 1%Z Samples.fullPageLink eq_refl)
      as (page & target & [= <-] & [= <-] & Hobj).
    eexists. exact Hobj.
Defined.

Lemma export_page_annotations_witness :
  exists blob,
    exportModifiedPdf Samples.twoPageFile
      [(2%Z, [Samples.strayLink; Samples.fullPageLink]);
       (3%Z, [Samples.fullPageLink]);
       (1%Z, [Samples.fullPageLink]);
       (2%Z, [Samples.fullPageLink])] = inr blob
    /\ List.map Annots (pages (saved blob))
       = [Some [PDFRef 22]; Some [PDFRef 3; PDFRef 21; PDFRef 23]].
Proof.
  destruct (export_page_annotations Samples.twoPageFile Samples.twoPageDoc
              [(2%Z, [Samples.strayLink; Samples.fullPageLink]);
               (3%Z, [Samples.fullPageLink]);
               (1%Z, [Samples.fullPageLink]);
               (2%Z, [Samples.fullPageLink])] eq_refl)
    as (blob & Hrun & Hlen & Hpages).
  exists blob. split; [exact Hrun|].
  destruct (Hpages 0%nat _ eq_refl) as (p0 & H0 & _ & _ & _ & A0).
  destruct (Hpages 1%nat _ eq_refl) as (p1 & H1 & _ & _ & _ & A1).
  destruct (pages (saved blob)) as [|q0 [|q1 [|q2 rest]]]; try discriminate.
  injection H0 as ->. injection H1 as ->.
  simpl. now rewrite A0, A1.
Defined.

End ExportOrderFacts.

(* ===================================================================== *)
(** * The handlers: banners, flags and what a scan may write             *)
(* ===================================================================== *)

Module HandlerFacts.
Import JS Types PdfJs DOM GeminiService PdfImageService App AppFacts
  ImageValueFacts.

Section Handlers.
Context {World : Type} (rt : Runtime World).

Lemma analyze_missing_key imageBase64 pageNumber w :
  apiKey rt = [] ->
  analyzePageForIndex rt imageBase64 pageNumber w
  = (inl (Error "API Key is missing"), w).
Proof. intros Hkey. unfold analyzePageForIndex. now rewrite Hkey. Qed.

(** One round of the scan touches the progress display and the stored
    entries, nothing else. *)
Lemma scanPage_frame pageImages totalPages completed pageNum st w :
  exists st' w',
    scanPage rt pageImages totalPages completed pageNum (st, w)
    = (inr tt, (st', w'))
    /\ file st' = file st /\ currentPage st' = currentPage st
    /\ analyzing st' = analyzing st /\ exporting st' = exporting st
    /\ error st' = error st.
Proof.
  unfold scanPage.
  destruct (truthyImage (pageImages !! pageNum)) as [imageBase64|].
  - unfold tryCatch, seq, bind, update, await, ret.
    destruct (analyzePageForIndex rt imageBase64 pageNum w) as [[e|links] w1];
      eexists _, _; (split; [reflexivity|]); now repeat split.
  - exists st, w. now repeat split.
Qed.

Lemma scanLoop_frame pageImages totalPages pagesToScan :
  forall completed st w,
  exists st' w',
    scanLoop rt pageImages totalPages pagesToScan completed (st, w)
    = (inr tt, (st', w'))
    /\ file st' = file st /\ currentPage st' = currentPage st
    /\ analyzing st' = analyzing st /\ exporting st' = exporting st
    /\ error st' = error st.
Proof.
  induction pagesToScan as [|pageNum rest IH]; intros completed st w.
  - exists st, w. now repeat split.
  - simpl. unfold seq, bind.
    destruct (scanPage_frame pageImages totalPages completed pageNum st w)
      as (st1 & w1 & -> & H1 & H2 & H3 & H4 & H5).
    destruct (IH (completed + 1)%Z st1 w1)
      as (st' & w' & -> & G1 & G2 & G3 & G4 & G5).
    exists st', w'. split; [reflexivity|]. repeat split; congruence.
Qed.

(** Without a key a round calls nothing and stores nothing. *)
Lemma scanPage_missing_key pageImages totalPages completed pageNum st w :
  apiKey rt = [] ->
  exists st',
    scanPage rt pageImages totalPages completed pageNum (st, w)
    = (inr tt, (st', w))
    /\ pageAnalyses st' = pageAnalyses st.
Proof.
  intros Hkey. unfold scanPage.
  destruct (truthyImage (pageImages !! pageNum)) as [imageBase64|].
  - unfold tryCatch, seq, bind, update, await, ret.
    rewrite (analyze_missing_key _ _ _ Hkey).
    eexists. split; reflexivity.
  - exists st. now split.
Qed.

Lemma scanLoop_missing_key pageImages totalPages pagesToScan :
  apiKey rt = [] ->
  forall completed st w,
  exists st',
    scanLoop rt pageImages totalPages pagesToScan completed (st, w)
    = (inr tt, (st', w))
    /\ pageAnalyses st' = pageAnalyses st.
Proof.
  intros Hkey.
  induction pagesToScan as [|pageNum rest IH]; intros completed st w.
  - exists st. now split.
  - simpl. unfold seq, bind.
    destruct (scanPage_missing_key pageImages totalPages completed pageNum
                st w Hkey) as (st1 & -> & H1).
    destruct (IH (completed + 1)%Z st1 w) as (st' & -> & H2).
    exists st'. split; [reflexivity|congruence].
Qed.

(** The batch handler, unfolded around its loop. *)
Lemma handleBatchScan_frame pagesToScan st w f :
  file st = Some f ->
  let totalPages := Z.of_nat (List.length pagesToScan) in
  let started :=
    setBatchProgress (Some (0%Z, totalPages))
      (setError None (setAnalyzing true st)) in
  match getImagesForPages f pagesToScan with
  | inr pageImages =>
      forall st1 w',
        scanLoop rt pageImages totalPages pagesToScan 0%Z (started, w)
        = (inr tt, (st1, w')) ->
        handleBatchScan rt pagesToScan (st, w)
        = (inr tt, (setBatchProgress None (setAnalyzing false st1), w'))
  | inl e =>
      handleBatchScan rt pagesToScan (st, w)
      = (inr tt,
         (setBatchProgress None
            (setAnalyzing false
               (setError (Some "Batch scan encountered an error.") started)),
          w))
  end.
Proof.
  intros Hfile totalPages started. unfold handleBatchScan. rewrite Hfile.
  unfold seq, bind, update, tryFinally, tryCatch, lift.
  destruct (getImagesForPages f pagesToScan) as [e|pageImages].
  - reflexivity.
  - intros st1 w' Hloop. fold totalPages. fold started.
    now rewrite Hloop.
Qed.

(** X12: [handleAnalyzePage] always returns with the busy flag off and
    leaves the file, the current page, the export flag and the batch
    progress alone.  If detection returned, the banner is cleared and
    the entries of the current page are replaced by the new ones; if it
    threw, the banner asks to check the API key and the stored entries
    are what they were. *)
Theorem analyze_page_outcome imageBase64 st w :
  exists st' w',
    handleAnalyzePage rt imageBase64 (st, w) = (inr tt, (st', w'))
    /\ analyzing st' = false
    /\ file st' = file st /\ currentPage st' = currentPage st
    /\ exporting st' = exporting st /\ batchProgress st' = batchProgress st
    /\ ((exists links,
            analyzePageForIndex rt imageBase64 (currentPage st) w
            = (inr links, w')
            /\ error st' = None
            /\ pageAnalyses st'
               = <[currentPage st := links]> (pageAnalyses st))
        \/ (exists e,
              analyzePageForIndex rt imageBase64 (currentPage st) w
              = (inl e, w')
              /\ error st'
                 = Some "Failed to analyze page. Please check your API key or try again."%string
              /\ pageAnalyses st' = pageAnalyses st)).
Proof.
  unfold handleAnalyzePage, seq, bind, update, tryFinally, tryCatch, await.
  cbn [currentPage setAnalyzing setError].
  destruct (analyzePageForIndex rt imageBase64 (currentPage st) w)
    as [[e|links] w1] eqn:E.
  - eexists _, _. split; [reflexivity|]. repeat (split; [reflexivity|]).
    right. exists e. now repeat split.
  - eexists _, _. split; [reflexivity|]. repeat (split; [reflexivity|]).
    left. exists links. now repeat split.
Qed.

(** X13: [handleBatchScan] on a loaded file always returns with the busy
    flag off and the progress display cleared, and leaves the file, the
    current page and the export flag alone.  The banner [Batch scan
    encountered an error.] is shown exactly when the document could not
    be opened, and then nothing is stored and the model is not called;
    when the document opens the banner is cleared, whatever happens to
    the single pages. *)
Theorem batch_scan_outcome pagesToScan st w f :
  file st = Some f ->
  exists st' w',
    handleBatchScan rt pagesToScan (st, w) = (inr tt, (st', w'))
    /\ analyzing st' = false /\ batchProgress st' = None
    /\ file st' = file st /\ currentPage st' = currentPage st
    /\ exporting st' = exporting st
    /\ error st'
       = match pdfjsDocument f with
         | inr _ => None
         | inl _ => Some "Batch scan encountered an error."%string
         end
    /\ (forall e, pdfjsDocument f = inl e ->
          pageAnalyses st' = pageAnalyses st /\ w' = w).
Proof.
  intros Hfile.
  pose proof (handleBatchScan_frame pagesToScan st w f Hfile) as Hrun.
  cbv zeta in Hrun. unfold getImagesForPages in Hrun.
  destruct (pdfjsDocument f) as [e|pdfDoc]; cbn [rbind ok] in Hrun.
  - eexists _, _. split; [exact Hrun|]. do 6 (split; [reflexivity|]).
    intros e' _. now split.
  - match type of Hrun with
    | forall st1 w', scanLoop rt ?imgs ?t _ ?c (?s, _) = _ -> _ =>
        destruct (scanLoop_frame imgs t pagesToScan c s w)
          as (st1 & w1 & Hloop & H1 & H2 & H3 & H4 & H5)
    end.
    exists (setBatchProgress None (setAnalyzing false st1)), w1.
    split; [exact (Hrun st1 w1 Hloop)|].
    split; [reflexivity|]. split; [reflexivity|].
    split; [exact H1|]. split; [exact H2|]. split; [exact H4|].
    split; [exact H5|]. intros e [=].
Qed.

(** X14: without an API key nothing reaches the model.  A single-page
    analysis ends with the banner that asks to check the key; a batch
    scan of a document that opens ends without any banner, although no
    page was analysed.  Either way the stored entries and the world
    outside are what they were. *)
Theorem missing_key_outcome :
  apiKey rt = [] ->
  (forall imageBase64 st w,
      exists st',
        handleAnalyzePage rt imageBase64 (st, w) = (inr tt, (st', w))
        /\ error st'
           = Some "Failed to analyze page. Please check your API key or try again."%string
        /\ pageAnalyses st' = pageAnalyses st)
  /\ (forall pagesToScan st w f pdfDoc,
        file st = Some f ->
        pdfjsDocument f = inr pdfDoc ->
        exists st',
          handleBatchScan rt pagesToScan (st, w) = (inr tt, (st', w))
          /\ error st' = None
          /\ pageAnalyses st' = pageAnalyses st).
Proof.
  intros Hkey. split.
  - intros imageBase64 st w.
    unfold handleAnalyzePage, seq, bind, update, tryFinally, tryCatch, await.
    cbn [currentPage setAnalyzing setError].
    rewrite (analyze_missing_key _ _ _ Hkey).
    eexists. split; [reflexivity|]. now split.
  - intros pagesToScan st w f pdfDoc Hfile Hload.
    pose proof (handleBatchScan_frame pagesToScan st w f Hfile) as Hrun.
    cbv zeta in Hrun. unfold getImagesForPages in Hrun.
    rewrite Hload in Hrun. cbn [rbind ok] in Hrun.
    match type of Hrun with
    | forall st1 w', scanLoop rt ?imgs ?t _ ?c (?s, _) = _ -> _ =>
        destruct (scanLoop_missing_key imgs t pagesToScan Hkey c s w)
          as (st1 & Hloop & Hsame);
        destruct (scanLoop_frame imgs t pagesToScan c s w)
          as (st2 & w2 & Hloop2 & _ & _ & _ & _ & Herr)
    end.
    rewrite Hloop in Hloop2. injection Hloop2 as <- <-.
    exists (setBatchProgress None (setAnalyzing false st1)).
    split; [exact (Hrun st1 w Hloop)|]. split; [exact Herr|exact Hsame].
Qed.

(** X15: a batch scan writes entries only for requested pages that are
    within bounds, were drawn, and whose data URL has a non-empty text
    after its first comma; what it writes for such a page is the result
    of a detection call that returned for that text and that page
    number.  Every other page keeps its entries. *)
Theorem batch_scan_writes_drawn_pages pagesToScan st w f pdfDoc :
  file st = Some f ->
  pdfjsDocument f = inr pdfDoc ->
  exists st' w',
    handleBatchScan rt pagesToScan (st, w) = (inr tt, (st', w'))
    /\ forall p,
         pageAnalyses st' !! p = pageAnalyses st !! p
         \/ (In p pagesToScan
             /\ (1 <= p <= numPages pdfDoc)%Z
             /\ exists dataURL imageBase64 links w0 w1,
                  renderPage pdfDoc p = Rendered dataURL
                  /\ split 44 dataURL !! 1%nat = Some imageBase64
                  /\ imageBase64 <> []
                  /\ analyzePageForIndex rt imageBase64 p w0
                     = (inr links, w1)
                  /\ pageAnalyses st' !! p = Some links).
Proof.
  intros Hfile Hload.
  pose proof (handleBatchScan_frame pagesToScan st w f Hfile) as Hrun.
  cbv zeta in Hrun. unfold getImagesForPages in Hrun.
  rewrite Hload in Hrun. cbn [rbind ok] in Hrun.
  match type of Hrun with
  | forall st1 w', scanLoop rt ?imgs ?t _ ?c (?s, _) = _ -> _ =>
      destruct (scanLoop_spec rt imgs t pagesToScan c s w)
        as (st1 & w1 & Hloop & Hany & _)
  end.
  exists (setBatchProgress None (setAnalyzing false st1)), w1.
  split; [exact (Hrun st1 w1 Hloop)|]. cbn.
  intros p.
  destruct (Hany p) as [Hsame|(img & links & w0 & w2 & Hin & Himg & Hcall & Hp)];
    [now left|].
  right. split; [exact Hin|].
  unfold truthyImage in Himg.
  destruct (foldl (renderInto pdfDoc) ∅ pagesToScan !! p) as [v|] eqn:Ev;
    [|discriminate].
  destruct (renderAll_value _ _ _ _ _ Ev)
    as [Hempty|(_ & Hb & dataURL & Hdraw & ->)].
  { rewrite lookup_empty in Hempty. discriminate. }
  split; [exact Hb|].
  destruct (split 44 dataURL !! 1%nat) as [[|c s]|] eqn:Es;
    try discriminate.
  injection Himg as <-.
  exists dataURL, (c :: s), links, w0, w2. repeat split; try assumption.
  discriminate.
Qed.

End Handlers.

Lemma batch_scan_outcome_witness :
  exists st' w',
    handleBatchScan Samples.flakyModel [1]%Z
      (App.setPageAnalyses (fun m => m)
         (App.mkAppState (Some Samples.twoPageFile) 1 false None false ∅ None),
       0%nat)
    = (inr tt, (st', w'))
    /\ error st' = Some "Batch scan encountered an error."%string
    /\ w' = 0%nat.
Proof.
  destruct (batch_scan_outcome Samples.flakyModel [1]%Z
              (App.setPageAnalyses (fun m => m)
                 (App.mkAppState (Some Samples.twoPageFile) 1 false None
                    false ∅ None))
              0%nat Samples.twoPageFile eq_refl)
    as (st' & w' & Hrun & _ & _ & _ & _ & _ & Herr & Hfail).
  exists st', w'. split; [exact Hrun|]. split; [exact Herr|].
  now destruct (Hfail _ eq_refl).
Defined.

Lemma missing_key_outcome_witness :
  exists st',
    handleBatchScan MoreSamples.keylessModel [1; 2]%Z
      (Samples.freshSession, 0%nat)
    = (inr tt, (st', 0%nat))
    /\ error st' = None
    /\ pageAnalyses st' = pageAnalyses Samples.freshSession.
Proof.
  destruct (missing_key_outcome MoreSamples.keylessModel eq_refl)
    as [_ Hbatch].
  apply (Hbatch [1; 2]%Z Samples.freshSession 0%nat Samples.threePageFile
           Samples.threePageDoc eq_refl eq_refl).
Defined.

Lemma batch_scan_writes_drawn_pages_witness :
  exists st' w',
    handleBatchScan Samples.flakyModel [1; 2; 7]%Z
      (Samples.freshSession, 0%nat)
    = (inr tt, (st', w'))
    /\ pageAnalyses st' !! 7%Z = None.
Proof.
  destruct (batch_scan_writes_drawn_pages Samples.flakyModel [1; 2; 7]%Z
              Samples.freshSession 0%nat Samples.threePageFile
              Samples.threePageDoc eq_refl eq_refl)
    as (st' & w' & Hrun & Hany).
  exists st', w'. split; [exact Hrun|].
  destruct (Hany 7%Z) as [Hsame|(_ & Hb & _)].
  - rewrite Hsame. reflexivity.
  - simpl in Hb. lia.
Defined.

End HandlerFacts.

(* ===================================================================== *)
(** * The export button and the download name                            *)
(* ===================================================================== *)

Module AppViewFacts.
Import JS Types GeminiService AppView MoreNotions FenceFacts.

Lemma total_from (l : list (list RawLink)) : forall acc,
  foldl (fun acc links => (acc + List.length links)%nat) acc l
  = (acc + foldl (fun acc links => (acc + List.length links)%nat) 0%nat l)%nat.
Proof.
  induction l as [|links l IH]; intros acc; simpl; [lia|].
  rewrite IH, (IH (List.length links)). lia.
Qed.

Lemma some_iff_total (l : list (list RawLink)) :
  existsb (fun links => (0 <? List.length links)%nat) l = true
  <-> (0 < foldl (fun acc links => (acc + List.length links)%nat) 0%nat l)%nat.
Proof.
  induction l as [|links l IH]; simpl.
  - split; [discriminate|lia].
  - rewrite total_from, orb_true_iff, IH, Nat.ltb_lt. lia.
Qed.

(** X16: the export button's guard and the counter agree:
    [handleExportPdf] finds links to export exactly when
    [totalLinksDetected] is not zero. *)
Theorem export_guard_agrees_with_counter
  (pageAnalyses : gmap Z (list RawLink)) :
  hasLinks pageAnalyses = true <-> (0 < totalLinksDetected pageAnalyses)%nat.
Proof. apply some_iff_total. Qed.

Lemma stripPrefixCI_inv p : forall s r,
  stripPrefixCI p s = Some r ->
  exists tag, s = tag ++ r /\ sameIgnoringCase tag p.
Proof.
  unfold sameIgnoringCase.
  induction p as [|a p IH]; intros s r H.
  - injection H as <-. now exists [].
  - destruct s as [|b s]; [discriminate|]. simpl in H.
    destruct (N.eqb_spec (upperAscii a) (upperAscii b)) as [E|_];
      [|discriminate].
    destruct (IH s r H) as (tag & -> & Htag).
    exists (b :: tag). split; [reflexivity|]. simpl. now rewrite E, Htag.
Qed.

Lemma sameIgnoringCase_rev a b :
  sameIgnoringCase a b -> sameIgnoringCase (rev a) (rev b).
Proof. unfold sameIgnoringCase. rewrite !map_rev. now intros ->. Qed.

(** X17: the download name is the file name with one trailing [.pdf], in
    any mix of upper and lower case, replaced by [_indexed.pdf]; a name
    without such an ending gets [_indexed.pdf] appended as it is. *)
Theorem download_name_replaces_extension :
  (forall stem ext,
      sameIgnoringCase ext (utf16 ".pdf") ->
      downloadName (stem ++ ext) = stem ++ utf16 "_indexed.pdf")
  /\ (forall name,
        (forall stem ext,
            name = stem ++ ext -> ~ sameIgnoringCase ext (utf16 ".pdf")) ->
        downloadName name = name ++ utf16 "_indexed.pdf").
Proof.
  split.
  - intros stem ext Hext. unfold downloadName, dropPdfSuffix.
    rewrite rev_app_distr.
    rewrite (stripPrefixCI_same _ _ _ (sameIgnoringCase_rev _ _ Hext)).
    now rewrite rev_involutive.
  - intros name Hno. unfold downloadName, dropPdfSuffix.
    destruct (stripPrefixCI (rev (utf16 ".pdf")) (rev name)) as [r|] eqn:E;
      [|reflexivity].
    destruct (stripPrefixCI_inv _ _ _ E) as (tag & Hname & Htag).
    exfalso. apply (Hno (rev r) (rev tag)).
    + rewrite <- rev_app_distr, <- Hname. now rewrite rev_involutive.
    + apply sameIgnoringCase_rev in Htag. exact Htag.
Qed.

Lemma download_name_replaces_extension_witness :
  downloadName (utf16 "Book.pdf" ++ utf16 ".PDF")
  = utf16 "Book.pdf" ++ utf16 "_indexed.pdf".
Proof.
  destruct download_name_replaces_extension as [H _].
  apply (H (utf16 "Book.pdf") (utf16 ".PDF")). reflexivity.
Defined.

End AppViewFacts.
